(** * Telegram <-> WezTerm bridge: a shallow embedding and its properties

    The development follows the JavaScript sources of the bridge:
    - [src/bridge.js] (module [Bridge]): the first bridge, with the pending
      marker and without allow-list, mute flag or hook endpoint;
    - the later bridge server (module [Server]): allow-list, mute flag,
      [/hook] endpoint, fresh pane validation before every dispatch; its
      Markdown converter is [ServerMarkup];
    - [hooks/send-to-telegram.js] and the later hook script: the
      completion extractor (module [Extractor], the same in both) and the
      first Markdown converter ([HookMarkup]).

    The localized message literals are given in their UTF-8 reading.

    Modelling decisions, used throughout:
    - a JavaScript string is the list of its UTF-16 code units ([N]);
      string literals are written with [js], which decodes the UTF-8 bytes
      of a Rocq string literal into code units;
    - a handler runs in a monad threading the process state (module-level
      [let] variables, the three state files, the environment) and a trace
      of every outward effect, and may throw; one handler invocation is one
      run, [await] points are sequenced in program order;
    - what the outside world answers (pane listings, results of shell
      commands, replies of the chat API, the clock) is read from queues
      held in the state, one entry per call, in call order;
    - built-ins whose tables or algorithms are no part of the sources are
      inputs: [toLowerCase] is a parameter of the handlers that call it,
      [JSON.parse] a parameter of the extractor and of the hook script,
      and a request carries what [new URL] and [JSON.parse] make of its
      target and of its body, failure included;
    - the conversion of a parsed value to a string, as template literals
      and [join] make it, is partial: it throws on an object with a field
      [toString];
    - console output is left out, and reading or writing a state file
      does not fail. *)

From Stdlib Require Import List NArith ZArith Bool Lia.
From Stdlib Require String Ascii DecimalPos.
Import ListNotations.
Import String.StringSyntax.
Delimit Scope string_scope with string.

Set Implicit Arguments.

(* ===================================================================== *)
(** * JavaScript strings *)
(* ===================================================================== *)

Module JS.

Definition char := N.
Definition jsstring := list char.

(** ** Literals *)

(** Code points of a UTF-8 byte sequence (well-formed input assumed; a
    truncated sequence ends the decoding). *)
Fixpoint utf8_points (bs : list N) : list N :=
  match bs with
  | [] => []
  | b0 :: r0 =>
    if (b0 <? 0x80)%N then b0 :: utf8_points r0
    else if (b0 <? 0xE0)%N then
      match r0 with
      | b1 :: r1 => ((b0 mod 0x20) * 0x40 + b1 mod 0x40)%N :: utf8_points r1
      | _ => []
      end
    else if (b0 <? 0xF0)%N then
      match r0 with
      | b1 :: b2 :: r2 =>
        ((b0 mod 0x10) * 0x1000 + (b1 mod 0x40) * 0x40 + b2 mod 0x40)%N
          :: utf8_points r2
      | _ => []
      end
    else
      match r0 with
      | b1 :: b2 :: b3 :: r3 =>
        ((b0 mod 0x08) * 0x40000 + (b1 mod 0x40) * 0x1000
         + (b2 mod 0x40) * 0x40 + b3 mod 0x40)%N :: utf8_points r3
      | _ => []
      end
  end.

Definition utf16_units (cp : N) : list char :=
  if (cp <? 0x10000)%N then [cp]
  else let v := (cp - 0x10000)%N in
       [(0xD800 + v / 0x400)%N; (0xDC00 + v mod 0x400)%N].

Definition js (s : String.string) : jsstring :=
  flat_map utf16_units
    (utf8_points (map Ascii.N_of_ascii (String.list_ascii_of_string s))).
Arguments js s%_string.

Definition AMP : char := 38%N.        (* & *)
Definition LT : char := 60%N.         (* < *)
Definition GT : char := 62%N.         (* > *)
Definition BACKTICK : char := 96%N.   (* ` *)
Definition STAR : char := 42%N.       (* * *)
Definition UNDERSCORE : char := 95%N. (* _ *)
Definition TILDE : char := 126%N.     (* ~ *)
Definition DOLLAR : char := 36%N.     (* $ *)
Definition DQUOTE : char := 34%N.     (* double quote *)
Definition APOS : char := 39%N.       (* ' *)
Definition LF : char := 10%N.         (* \n *)
Definition SPACE : char := 32%N.
Definition SLASH : char := 47%N.      (* / *)
Definition COMMA : char := 44%N.

(** ** Comparison, search, slicing *)

Fixpoint jseqb (a b : jsstring) : bool :=
  match a, b with
  | [], [] => true
  | x :: a', y :: b' => (x =? y)%N && jseqb a' b'
  | _, _ => false
  end.

(** [s.startsWith(p)] *)
Fixpoint startsWith (s p : jsstring) : bool :=
  match p with
  | [] => true
  | y :: p' =>
    match s with
    | [] => false
    | x :: s' => (x =? y)%N && startsWith s' p'
    end
  end.

(** First occurrence of [pat] in [s] ([s.indexOf(pat)]), returned as the
    text before it and the text after it; [None] for index -1. *)
Fixpoint splitFirst (pat s : jsstring) : option (jsstring * jsstring) :=
  if startsWith s pat then Some ([], skipn (length pat) s)
  else match s with
       | [] => None
       | c :: s' =>
         match splitFirst pat s' with
         | Some (b, a) => Some (c :: b, a)
         | None => None
         end
       end.

(** [s.includes(pat)] *)
Definition includes (s pat : jsstring) : bool :=
  match splitFirst pat s with Some _ => true | None => false end.

(** [s.slice(0, n)] for [n >= 0] *)
Definition slice0 (n : nat) (s : jsstring) : jsstring := firstn n s.

(** Longest prefix of characters satisfying [p], and the rest. *)
Fixpoint span (p : char -> bool) (s : jsstring) : jsstring * jsstring :=
  match s with
  | [] => ([], [])
  | c :: s' =>
    if p c then let (a, b) := span p s' in (c :: a, b) else ([], s)
  end.

(** ** Character classes *)

(** WhiteSpace and LineTerminator of ECMA-262: what [trim] strips and what
    [\s] matches. *)
Definition isWhiteSpace (c : char) : bool :=
  ((9 <=? c) && (c <=? 13) || (c =? 32) || (c =? 0xA0) || (c =? 0x1680)
   || (0x2000 <=? c) && (c <=? 0x200A) || (c =? 0x2028) || (c =? 0x2029)
   || (c =? 0x202F) || (c =? 0x205F) || (c =? 0x3000) || (c =? 0xFEFF))%N.

(** LineTerminator: the characters [.] does not match. *)
Definition isLineTerminator (c : char) : bool :=
  ((c =? 10) || (c =? 13) || (c =? 0x2028) || (c =? 0x2029))%N.

(** [\w] without the [i] and [u] flags: [A-Za-z0-9_]. *)
Definition isWordChar (c : char) : bool :=
  ((65 <=? c) && (c <=? 90) || (97 <=? c) && (c <=? 122)
   || (48 <=? c) && (c <=? 57) || (c =? 95))%N.

Definition isDigit (c : char) : bool := ((48 <=? c) && (c <=? 57))%N.

Fixpoint trimStart (s : jsstring) : jsstring :=
  match s with
  | [] => []
  | c :: s' => if isWhiteSpace c then trimStart s' else s
  end.

Definition trimEnd (s : jsstring) : jsstring := rev (trimStart (rev s)).

(** [s.trim()] *)
Definition trim (s : jsstring) : jsstring := trimEnd (trimStart s).

(** [s.toLowerCase()] is a built-in of the host.  Its table, the
    lower-case mapping of Unicode, is no part of the sources: the handlers
    that call it take it as the parameter [toLowerCase], and what is proved
    of them holds for every such function.  [lowerASCII] is the built-in on
    texts of ASCII code units, where it maps [A-Z] to [a-z]; the runs on
    the sample requests, whose texts are ASCII, are made with it. *)
Definition lowerChar (c : char) : char :=
  if ((65 <=? c) && (c <=? 90))%N then (c + 32)%N else c.

Definition lowerASCII (s : jsstring) : jsstring := map lowerChar s.

(** [s.split(sep)] for a separator of one code unit. *)
Fixpoint split (sep : char) (s : jsstring) : list jsstring :=
  match s with
  | [] => [[]]
  | c :: s' =>
    match split sep s' with
    | [] => [[]]  (* not reached: [split] never returns the empty list *)
    | w :: ws => if (c =? sep)%N then [] :: w :: ws else (c :: w) :: ws
    end
  end.

(** [parts.join(sep)] *)
Fixpoint join (sep : jsstring) (parts : list jsstring) : jsstring :=
  match parts with
  | [] => []
  | [p] => p
  | p :: ps => p ++ sep ++ join sep ps
  end.

(** ** Numbers as text *)

Fixpoint uint_digits (u : Decimal.uint) : jsstring :=
  match u with
  | Decimal.Nil => []
  | Decimal.D0 u' => 48%N :: uint_digits u'
  | Decimal.D1 u' => 49%N :: uint_digits u'
  | Decimal.D2 u' => 50%N :: uint_digits u'
  | Decimal.D3 u' => 51%N :: uint_digits u'
  | Decimal.D4 u' => 52%N :: uint_digits u'
  | Decimal.D5 u' => 53%N :: uint_digits u'
  | Decimal.D6 u' => 54%N :: uint_digits u'
  | Decimal.D7 u' => 55%N :: uint_digits u'
  | Decimal.D8 u' => 56%N :: uint_digits u'
  | Decimal.D9 u' => 57%N :: uint_digits u'
  end.

(** [String(n)] for a natural number (array indices, lengths). *)
Definition String_nat (n : nat) : jsstring := uint_digits (Nat.to_uint n).

(** [String(z)] for an integer: decimal digits with a leading minus sign.
    This is what JavaScript prints for every integer below 10^21 in
    absolute value, which covers chat and pane identifiers. *)
Definition String_Z (z : Z) : jsstring :=
  match z with
  | Z0 => [48%N]
  | Zpos p => uint_digits (Pos.to_uint p)
  | Zneg p => 45%N :: uint_digits (Pos.to_uint p)
  end.

(** ** Replacement *)

(** [s.replace(/c/g, r)] for a pattern of one literal character and a
    replacement text [r] without [$]. *)
Definition replaceAllChar (c : char) (r : jsstring) (s : jsstring) : jsstring :=
  flat_map (fun x => if (x =? c)%N then r else [x]) s.

Definition digitVal (c : char) : nat := N.to_nat (c - 48)%N.

(** GetSubstitution of ECMA-262 (without named groups): the expansion of a
    replacement template.  [matched] is the matched text, [before] and
    [after] the parts of the subject around it, [captures] the groups. *)
Fixpoint getSubstitution (matched before after : jsstring)
    (captures : list jsstring) (template : jsstring) : jsstring :=
  let rec := getSubstitution matched before after captures in
  match template with
  | [] => []
  | c :: t =>
    if negb (c =? DOLLAR)%N then c :: rec t
    else
      match t with
      | [] => [c]
      | d :: t' =>
        if (d =? DOLLAR)%N then DOLLAR :: rec t'
        else if (d =? AMP)%N then matched ++ rec t'
        else if (d =? BACKTICK)%N then before ++ rec t'
        else if (d =? APOS)%N then after ++ rec t'
        else if isDigit d then
          let m := length captures in
          let one :=
            let i := digitVal d in
            if (1 <=? i)%nat && (i <=? m)%nat
            then nth (i - 1) captures [] ++ rec t'
            else c :: d :: rec t' in
          match t' with
          | d2 :: t'' =>
            if isDigit d2 then
              let i2 := (10 * digitVal d + digitVal d2)%nat in
              if (m <? i2)%nat then one
              else if (1 <=? i2)%nat
                   then nth (i2 - 1) captures [] ++ rec t''
                   else c :: d :: d2 :: rec t''
            else one
          | [] => one
          end
        else c :: rec t
      end
  end.

(** [s.replace(pat, repl)] with a string pattern: the first occurrence
    only, and [repl] is a replacement template. *)
Definition replaceString (pat repl s : jsstring) : jsstring :=
  match splitFirst pat s with
  | None => s
  | Some (before, after) =>
    before ++ getSubstitution pat before after [] repl ++ after
  end.

(** A regular expression is represented by its matcher at a position: given
    the subject from that position on, the groups and the length of the
    match, if there is one there.  All matchers below match at least one
    character. *)
Definition matcher := jsstring -> option (list jsstring * nat).

(** [s.replace(re, f)] for a global regular expression: positions are
    tried from left to right, and after a match the scan resumes behind it.
    [before] is the subject up to the current position, [skip] the number
    of characters left of the last match.  The callback [f] receives its
    own state (the array a callback pushes to), the matched text, the text
    before and after it and the groups. *)
Fixpoint replaceRegex {A : Type} (m : matcher)
    (f : A -> jsstring -> jsstring -> jsstring -> list jsstring -> jsstring * A)
    (before s : jsstring) (skip : nat) (a : A) : jsstring * A :=
  match s with
  | [] => ([], a)
  | c :: s' =>
    match skip with
    | S k => replaceRegex m f (before ++ [c]) s' k a
    | O =>
      match m s with
      | Some (groups, len) =>
        let '(r, a1) := f a (firstn len s) before (skipn len s) groups in
        let '(out, a2) := replaceRegex m f (before ++ [c]) s' (len - 1) a1 in
        (r ++ out, a2)
      | None =>
        let '(out, a2) := replaceRegex m f (before ++ [c]) s' 0 a in
        (c :: out, a2)
      end
    end
  end.

(** [s.replace(re, template)] for a global regular expression. *)
Definition replaceTemplate (m : matcher) (template s : jsstring) : jsstring :=
  fst (replaceRegex m
         (fun (_ : unit) matched before after groups =>
            (getSubstitution matched before after groups template, tt))
         [] s 0 tt).

End JS.

(* ===================================================================== *)
(** * The Markup Converter ([markdownToTelegramHtml]) *)
(* ===================================================================== *)

Module Markup.
Import JS.

(** [escapeHtml]: three global single-character replacements, [&] first. *)
Definition escapeHtml (str : jsstring) : jsstring :=
  replaceAllChar GT (js "&gt;")
    (replaceAllChar LT (js "&lt;")
       (replaceAllChar AMP (js "&amp;") str)).

Definition FENCE : jsstring := js "```".

(** A lazy group that takes any character, followed by the literal
    [close]: the group is the shortest text after which [close] occurs.
    Returns the group and the length consumed, [close] included. *)
Definition lazyUntil (close s : jsstring) : option (jsstring * nat) :=
  match splitFirst close s with
  | Some (body, _) => Some (body, length body + length close)
  | None => None
  end.

(** [\n?([\s\S]*?)```]: the optional newline is greedy, so the alternative
    that consumes it is tried first. *)
Definition fenceTail (s : jsstring) : option (jsstring * nat) :=
  let without := lazyUntil FENCE s in
  match s with
  | c :: s' =>
    if (c =? LF)%N then
      match lazyUntil FENCE s' with
      | Some (code, n) => Some (code, S n)
      | None => without
      end
    else without
  | [] => without
  end.

(** The group of word characters [\w*] followed by the tail: greedy, the longest run of word
    characters is tried first, then the shorter ones. *)
Fixpoint fenceLang (k : nat) (s : jsstring) : option (jsstring * jsstring * nat) :=
  match fenceTail (skipn k s) with
  | Some (code, n) => Some (firstn k s, code, k + n)
  | None =>
    match k with
    | O => None
    | S k' => fenceLang k' s
    end
  end.

(** The regular expression of fenced code blocks,
    three backticks, a group [\w*], an optional newline, a lazy group
    [[\s\S]*?], three backticks; groups: language tag, code. *)
Definition matchFence : matcher := fun s =>
  if startsWith s FENCE then
    let r := skipn 3 s in
    match fenceLang (length (fst (span isWordChar r))) r with
    | Some (lang, code, len) => Some ([lang; code], 3 + len)
    | None => None
    end
  else None.

(** The regular expression of inline code, [`([^`]+)`]: a backtick, the
    longest non-empty run without backtick, a backtick (a shorter run is
    followed by a character of the run, never by a backtick). *)
Definition matchInline : matcher := fun s =>
  match s with
  | c :: r =>
    if (c =? BACKTICK)%N then
      let (run, rest) := span (fun x => negb (x =? BACKTICK)%N) r in
      match run, rest with
      | _ :: _, q :: _ =>
        if (q =? BACKTICK)%N then Some ([run], length run + 2) else None
      | _, _ => None
      end
    else None
  | [] => None
  end.

(** [(.+?)] followed by the literal [close]: one character that is not a
    line terminator, then as few more as needed before [close]. *)
Fixpoint lazyDots (close s : jsstring) : option jsstring :=
  match s with
  | [] => None
  | c :: s' =>
    if isLineTerminator c then None
    else if startsWith s' close then Some [c]
    else match lazyDots close s' with
         | Some g => Some (c :: g)
         | None => None
         end
  end.

(** The regular expressions of emphasis, [D(.+?)D] for a literal delimiter
    [D] ([**], [*], [__], [~~]). *)
Definition matchPair (delim : jsstring) : matcher := fun s =>
  if startsWith s delim then
    match lazyDots delim (skipn (length delim) s) with
    | Some g => Some ([g], length delim + length g + length delim)
    | None => None
    end
  else None.

(** [items.forEach((item, index) => { result = result.replace(key(index), item) })] *)
Fixpoint restore (key : nat -> jsstring) (items : list jsstring) (index : nat)
    (result : jsstring) : jsstring :=
  match items with
  | [] => result
  | item :: rest =>
    restore key rest (S index) (replaceString (key index) item result)
  end.

Section Converter.

(** The two sources differ in the placeholders only: what the extraction
    callbacks return, and what the restoring loops look for. *)
Variables placeholderBlock placeholderInline : nat -> jsstring.
Variables keyBlock keyInline : nat -> jsstring.

Definition extractCodeBlocks (text : jsstring) : jsstring * list jsstring :=
  replaceRegex matchFence
    (fun (codeBlocks : list jsstring) _ _ _ groups =>
       let code := nth 1 groups [] in
       (placeholderBlock (length codeBlocks),
        codeBlocks
          ++ [js "<pre><code>" ++ escapeHtml (trim code) ++ js "</code></pre>"]))
    [] text 0 [].

Definition extractInlineCodes (text : jsstring) : jsstring * list jsstring :=
  replaceRegex matchInline
    (fun (inlineCodes : list jsstring) _ _ _ groups =>
       let code := nth 0 groups [] in
       (placeholderInline (length inlineCodes),
        inlineCodes ++ [js "<code>" ++ escapeHtml code ++ js "</code>"]))
    [] text 0 [].

Definition emphasis (result : jsstring) : jsstring :=
  let result := replaceTemplate (matchPair (js "**")) (js "<b>$1</b>") result in
  let result := replaceTemplate (matchPair (js "*")) (js "<i>$1</i>") result in
  let result := replaceTemplate (matchPair (js "__")) (js "<u>$1</u>") result in
  replaceTemplate (matchPair (js "~~")) (js "<s>$1</s>") result.

Definition convert (text : jsstring) : jsstring :=
  let '(result, codeBlocks) := extractCodeBlocks text in
  let '(result, inlineCodes) := extractInlineCodes result in
  let result := escapeHtml result in
  let result := emphasis result in
  let result := restore keyBlock codeBlocks 0 result in
  restore keyInline inlineCodes 0 result.

End Converter.

End Markup.

(** The converter of the bridge server: placeholders [<<<CODEBLOCKn>>>]
    and [<<<INLINECODEn>>>], looked for in their escaped form. *)
Module ServerMarkup.
Import JS Markup.

Definition markdownToTelegramHtml : jsstring -> jsstring :=
  convert
    (fun index => js "<<<CODEBLOCK" ++ String_nat index ++ js ">>>")
    (fun index => js "<<<INLINECODE" ++ String_nat index ++ js ">>>")
    (fun index => js "&lt;&lt;&lt;CODEBLOCK" ++ String_nat index ++ js "&gt;&gt;&gt;")
    (fun index => js "&lt;&lt;&lt;INLINECODE" ++ String_nat index ++ js "&gt;&gt;&gt;").

End ServerMarkup.

(** The converter of [hooks/send-to-telegram.js]: placeholders
    [__CODE_BLOCK_n__] and [__INLINE_CODE_n__]. *)
Module HookMarkup.
Import JS Markup.

Definition markdownToTelegramHtml : jsstring -> jsstring :=
  convert
    (fun index => js "__CODE_BLOCK_" ++ String_nat index ++ js "__")
    (fun index => js "__INLINE_CODE_" ++ String_nat index ++ js "__")
    (fun index => js "__CODE_BLOCK_" ++ String_nat index ++ js "__")
    (fun index => js "__INLINE_CODE_" ++ String_nat index ++ js "__").

End HookMarkup.

(* ===================================================================== *)
(** * JSON values *)
(* ===================================================================== *)

Module Json.
Import JS.

(** A parsed JSON value.  A number is represented by the text [String]
    prints for it, which is all the programs observe of a number (they
    print it and test it for being zero). *)
#[warnings="-register-all"]
Inductive json : Type :=
| JNull
| JBool (b : bool)
| JNum (repr : jsstring)
| JStr (s : jsstring)
| JArr (items : list json)
| JObj (fields : list (jsstring * json)).

(** Truthiness ([if (v)], [!v], [v || d], [v && w]). *)
Definition truthy (v : json) : bool :=
  match v with
  | JNull => false
  | JBool b => b
  | JNum repr => negb (jseqb repr (js "0"))
  | JStr s => match s with [] => false | _ => true end
  | JArr _ => true
  | JObj _ => true
  end.

(** Truthiness of a value that may be [undefined]. *)
Definition truthyU (v : option json) : bool :=
  match v with
  | None => false
  | Some x => truthy x
  end.

Fixpoint lookup (key : jsstring) (fields : list (jsstring * json)) : option json :=
  match fields with
  | [] => None
  | (k, v) :: rest => if jseqb k key then Some v else lookup key rest
  end.

(** [v.key] for one of the keys read by the programs ([type], [message],
    [content], [text], [cwd], [sessionId]): [undefined] when [v] is not an
    object or has no such field.  Reading a property of [null] throws and
    is handled where it happens. *)
Definition prop (v : json) (key : jsstring) : option json :=
  match v with
  | JObj fields => lookup key fields
  | _ => None
  end.

(** [f] on every element, in order; [None] as soon as one fails. *)
Definition mapM {A B : Type} (f : A -> option B) : list A -> option (list B) :=
  fix each (l : list A) : option (list B) :=
    match l with
    | [] => Some []
    | x :: rest =>
      match f x, each rest with
      | Some y, Some ys => Some (y :: ys)
      | _, _ => None
      end
    end.

(** [String(v)], the conversion made by template literals and by
    [Array.prototype.join]; [None] where it throws a [TypeError].  An
    array prints as its elements joined by commas.  An object prints
    through the method found under [toString]: the inherited one gives
    [[object Object]]; a field of that name hides it and, being a parsed
    value, is no function, after which [valueOf] gives no primitive either
    and the conversion throws. *)
Fixpoint toString (v : json) : option jsstring :=
  match v with
  | JNull => Some (js "null")
  | JBool true => Some (js "true")
  | JBool false => Some (js "false")
  | JNum repr => Some repr
  | JStr s => Some s
  | JArr items =>
    option_map (join [COMMA])
      (mapM (fun x => match x with JNull => Some [] | _ => toString x end)
            items)
  | JObj fields =>
    match lookup (js "toString") fields with
    | Some _ => None
    | None => Some (js "[object Object]")
    end
  end.

(** [items.join(sep)]: [null] elements print as the empty text. *)
Definition arrayJoin (sep : jsstring) (items : list json) : option jsstring :=
  option_map (join sep)
    (mapM (fun x => match x with JNull => Some [] | _ => toString x end) items).

End Json.

(* ===================================================================== *)
(** * Process state, effects and the handler monad *)
(* ===================================================================== *)

Module Proc.
Import JS Json.

(** A pane as listed by [wezterm cli list --format json]. *)
Record Pane : Type := mkPane {
  pane_id : Z;
  title : jsstring
}.

(** The answer of the chat API to one call ([data] in [telegramApi]). *)
Record ApiResult : Type := mkApiResult {
  ok : bool;
  description : option jsstring
}.

Inductive ApiCall : Type :=
| SendMessage (chat_id : json) (text : jsstring) (parse_mode : option jsstring)
| SendChatAction (chat_id : json) (action : jsstring)
| SetMyCommands (commands : list (jsstring * jsstring))
| AnswerCallbackQuery (callback_query_id : jsstring) (text : option jsstring)
    (show_alert : bool).

Inductive StateFile : Type := CHAT_ID_FILE | PANE_ID_FILE | PENDING_FILE.

Inductive Body : Type :=
| Text (s : jsstring)
| Stringify (v : json).   (* [JSON.stringify(v)] *)

(** Outward effects, in the order the program performs them. *)
Inductive Event : Type :=
| Api (call : ApiCall)                       (* POST to the chat API *)
| Exec (cmd : jsstring)                      (* [execSync(cmd)] *)
| WriteFile (f : StateFile) (content : jsstring)
| Unlink (f : StateFile)
| SetInterval (chat : Z)                     (* typing tick every 5 s *)
| ClearInterval
| Respond (status : nat) (body : Body).      (* [res.writeHead; res.end] *)

Record State : Type := mkState {
  (* module-level variables *)
  isMuted : bool;
  selectedPaneId : option jsstring;
  typingInterval : option Z;
  (* state files: content, [None] when the file does not exist *)
  chatIdFile : option jsstring;
  paneIdFile : option jsstring;
  pendingFile : option jsstring;
  (* [process.env.WEZTERM_PANE_ID] *)
  envPaneId : option jsstring;
  (* the outside world *)
  listings : list (list Pane);        (* answers to the pane listing *)
  execResults : list (option jsstring); (* [Some msg]: the command fails *)
  apiResults : list ApiResult;
  now : Z;                            (* [Date.now()] *)
  (* effects so far *)
  trace : list Event
}.

Definition set_isMuted (v : bool) (st : State) : State :=
  mkState v (selectedPaneId st) (typingInterval st) (chatIdFile st)
          (paneIdFile st) (pendingFile st) (envPaneId st) (listings st)
          (execResults st) (apiResults st) (now st) (trace st).

Definition set_selectedPaneId (v : option jsstring) (st : State) : State :=
  mkState (isMuted st) v (typingInterval st) (chatIdFile st)
          (paneIdFile st) (pendingFile st) (envPaneId st) (listings st)
          (execResults st) (apiResults st) (now st) (trace st).

Definition set_typingInterval (v : option Z) (st : State) : State :=
  mkState (isMuted st) (selectedPaneId st) v (chatIdFile st)
          (paneIdFile st) (pendingFile st) (envPaneId st) (listings st)
          (execResults st) (apiResults st) (now st) (trace st).

Definition set_chatIdFile (v : option jsstring) (st : State) : State :=
  mkState (isMuted st) (selectedPaneId st) (typingInterval st) v
          (paneIdFile st) (pendingFile st) (envPaneId st) (listings st)
          (execResults st) (apiResults st) (now st) (trace st).

Definition set_paneIdFile (v : option jsstring) (st : State) : State :=
  mkState (isMuted st) (selectedPaneId st) (typingInterval st) (chatIdFile st)
          v (pendingFile st) (envPaneId st) (listings st)
          (execResults st) (apiResults st) (now st) (trace st).

Definition set_pendingFile (v : option jsstring) (st : State) : State :=
  mkState (isMuted st) (selectedPaneId st) (typingInterval st) (chatIdFile st)
          (paneIdFile st) v (envPaneId st) (listings st)
          (execResults st) (apiResults st) (now st) (trace st).

Definition set_listings (v : list (list Pane)) (st : State) : State :=
  mkState (isMuted st) (selectedPaneId st) (typingInterval st) (chatIdFile st)
          (paneIdFile st) (pendingFile st) (envPaneId st) v
          (execResults st) (apiResults st) (now st) (trace st).

Definition set_execResults (v : list (option jsstring)) (st : State) : State :=
  mkState (isMuted st) (selectedPaneId st) (typingInterval st) (chatIdFile st)
          (paneIdFile st) (pendingFile st) (envPaneId st) (listings st)
          v (apiResults st) (now st) (trace st).

Definition set_apiResults (v : list ApiResult) (st : State) : State :=
  mkState (isMuted st) (selectedPaneId st) (typingInterval st) (chatIdFile st)
          (paneIdFile st) (pendingFile st) (envPaneId st) (listings st)
          (execResults st) v (now st) (trace st).

Definition set_trace (v : list Event) (st : State) : State :=
  mkState (isMuted st) (selectedPaneId st) (typingInterval st) (chatIdFile st)
          (paneIdFile st) (pendingFile st) (envPaneId st) (listings st)
          (execResults st) (apiResults st) (now st) v.

(** ** The monad: state, and exceptions carrying [error.message] *)

Inductive result (A : Type) : Type :=
| Ok (a : A)
| Throw (message : jsstring).
Arguments Ok {A} a.
Arguments Throw {A} message.

Definition M (A : Type) : Type := State -> result A * State.

Definition ret {A} (a : A) : M A := fun st => (Ok a, st).

Definition bind {A B} (m : M A) (k : A -> M B) : M B :=
  fun st =>
    match m st with
    | (Ok a, st') => k a st'
    | (Throw e, st') => (Throw e, st')
    end.

Definition throw {A} (message : jsstring) : M A := fun st => (Throw message, st).

(** [try { m } catch (error) { handler(error.message) }] *)
Definition tryCatch {A} (m : M A) (handler : jsstring -> M A) : M A :=
  fun st =>
    match m st with
    | (Ok a, st') => (Ok a, st')
    | (Throw e, st') => handler e st'
    end.

Definition gets {A} (f : State -> A) : M A := fun st => (Ok (f st), st).
Definition modify (f : State -> State) : M unit := fun st => (Ok tt, f st).
Definition emit (e : Event) : M unit :=
  modify (fun st => set_trace (trace st ++ [e]) st).

Declare Scope proc_scope.
Delimit Scope proc_scope with proc.
Notation "x <- m ;; k" := (bind m (fun x => k))
  (at level 61, m at next level, right associativity) : proc_scope.
Notation "m ;; k" := (bind m (fun _ => k))
  (at level 61, right associativity) : proc_scope.
Open Scope proc_scope.

(** What a run leaves behind. *)
Definition run {A} (m : M A) (st : State) : result A * State := m st.
Definition exec {A} (m : M A) (st : State) : State := snd (m st).
Definition value {A} (m : M A) (st : State) : result A := fst (m st).

(** The events a run adds to the trace. *)
Definition emitted {A} (m : M A) (st : State) : list Event :=
  skipn (length (trace st)) (trace (exec m st)).

End Proc.

(* ===================================================================== *)
(** * Functions shared, word for word, by the two bridges *)
(* ===================================================================== *)

Module Common.
Import JS Json Proc.

Definition MAX_MESSAGE_LENGTH : nat := 4000.

Definition nl : jsstring := [LF].
Definition quote : jsstring := [DQUOTE].

Definition BLOCKED_COMMANDS : list jsstring :=
  [js "/mcp"; js "/help"; js "/config"; js "/settings"; js "/model";
   js "/vim"; js "/terminal-setup"].

(** Next answer of the outside world; [default] once the queue is empty. *)
Definition pop {A} (queue : State -> list A)
    (set : list A -> State -> State) (default : A) : M A :=
  fun st =>
    match queue st with
    | [] => (Ok default, st)
    | x :: rest => (Ok x, set rest st)
    end.

(** [telegramApi]: never throws; a failed request yields [ok: false]. *)
Definition telegramApi (call : ApiCall) : M ApiResult :=
  emit (Api call) ;;
  pop apiResults set_apiResults (mkApiResult true None).

(** A numeric chat id as the JSON value sent to the chat API. *)
Definition chatJson (chatId : Z) : json := JNum (String_Z chatId).

(** [sendMessage(chatId, text)]: always called without options. *)
Definition sendMessage (chatId : Z) (text : jsstring) : M ApiResult :=
  telegramApi
    (SendMessage (chatJson chatId) (slice0 MAX_MESSAGE_LENGTH text)
                 (Some (js "HTML"))).

Definition stopTypingLoop : M unit :=
  t <- gets typingInterval ;;
  match t with
  | Some _ => emit ClearInterval ;; modify (set_typingInterval None)
  | None => ret tt
  end.

Definition startTypingLoop (chatId : Z) : M unit :=
  stopTypingLoop ;;
  telegramApi (SendChatAction (chatJson chatId) (js "typing")) ;;
  emit (SetInterval chatId) ;;
  modify (set_typingInterval (Some chatId)).

(** [getWeztermPanes]: a failed listing is the empty list. *)
Definition getWeztermPanes : M (list Pane) :=
  emit (Exec (js "wezterm cli list --format json")) ;;
  pop listings set_listings [].

(** [execSync(cmd)] for the send-text commands. *)
Definition execSync (cmd : jsstring) : M unit :=
  emit (Exec cmd) ;;
  r <- pop execResults set_execResults None ;;
  match r with
  | None => ret tt
  | Some message => throw message
  end.

Definition setFile (f : StateFile) (v : option jsstring) : State -> State :=
  match f with
  | CHAT_ID_FILE => set_chatIdFile v
  | PANE_ID_FILE => set_paneIdFile v
  | PENDING_FILE => set_pendingFile v
  end.

Definition getFile (f : StateFile) : State -> option jsstring :=
  match f with
  | CHAT_ID_FILE => chatIdFile
  | PANE_ID_FILE => paneIdFile
  | PENDING_FILE => pendingFile
  end.

(** [fs.writeFileSync(f, content, 'utf-8')] *)
Definition writeFile (f : StateFile) (content : jsstring) : M unit :=
  emit (WriteFile f content) ;; modify (setFile f (Some content)).

(** [if (fs.existsSync(f)) fs.unlinkSync(f)] *)
Definition unlinkIfExists (f : StateFile) : M unit :=
  c <- gets (getFile f) ;;
  match c with
  | Some _ => emit (Unlink f) ;; modify (setFile f None)
  | None => ret tt
  end.

Definition saveSelectedPaneId (paneId : jsstring) : M unit :=
  modify (set_selectedPaneId (Some paneId)) ;;
  writeFile PANE_ID_FILE paneId.

Definition clearSelectedPaneId : M unit :=
  modify (set_selectedPaneId None) ;;
  unlinkIfExists PANE_ID_FILE.

(** [panes.some(p => String(p.pane_id) === paneId)] *)
Definition listed (panes : list Pane) (paneId : jsstring) : bool :=
  existsb (fun p => jseqb (String_Z (pane_id p)) paneId) panes.

(** [panes.find(p => String(p.pane_id) === paneId)] *)
Definition findPane (panes : list Pane) (paneId : jsstring) : option Pane :=
  find (fun p => jseqb (String_Z (pane_id p)) paneId) panes.

Definition paneExists (paneId : jsstring) : M bool :=
  panes <- getWeztermPanes ;;
  ret (listed panes paneId).

(** The environment variable counts when it is set and not empty. *)
Definition envFallback : M (option jsstring) :=
  e <- gets envPaneId ;;
  match e with
  | Some (c :: r) => ret (Some (c :: r))
  | _ => ret None
  end.

Definition findClaudePaneId : M (option jsstring) :=
  sel <- gets selectedPaneId ;;
  match sel with
  | Some paneId =>
    present <- paneExists paneId ;;
    if present then ret (Some paneId)
    else clearSelectedPaneId ;; envFallback
  | None => envFallback
  end.

(** [!paneId] *)
Definition noPane (paneId : option jsstring) : bool :=
  match paneId with
  | Some (_ :: _) => false
  | _ => true
  end.

(** The text escaped for the command line: the global replacement of the
    double quote by two double quotes. *)
Definition escapeQuotes (text : jsstring) : jsstring :=
  replaceAllChar DQUOTE [DQUOTE; DQUOTE] text.

(** The command line that types [text] into the pane. *)
Definition sendTextCommand (paneId text : jsstring) : jsstring :=
  js "wezterm cli send-text --pane-id " ++ paneId ++ js " --no-paste "
    ++ quote ++ escapeQuotes text ++ quote.

(** The command lines that send one key, given as a PowerShell escape
    ([`r] carriage return, [`e] escape). *)
Definition sendKeyCommand (paneId key : jsstring) : jsstring :=
  js "powershell -NoProfile -Command " ++ quote
    ++ js "wezterm cli send-text --pane-id " ++ paneId ++ js " --no-paste "
    ++ quote ++ key ++ quote ++ quote.

(** The two injections of a dispatch: the text, then carriage return. *)
Definition sendTextThenReturn (paneId text : jsstring) : M bool :=
  execSync (sendTextCommand paneId text) ;;
  execSync (sendKeyCommand paneId (js "`r")) ;;
  ret true.

Definition weztermSendEscape : M bool :=
  paneId <- findClaudePaneId ;;
  match paneId with
  | Some (c :: r) =>
    tryCatch (execSync (sendKeyCommand (c :: r) (js "`e")) ;; ret true)
             (fun _ => ret false)
  | _ => ret false
  end.

Definition saveChatId (chatId : Z) : M unit :=
  writeFile CHAT_ID_FILE (String_Z chatId).

(** Start-up: the selection is read from the pane-id file, if there is
    one. *)
Definition loadSavedPaneId : M unit :=
  f <- gets paneIdFile ;;
  match f with
  | Some content => modify (set_selectedPaneId (Some (trim content)))
  | None => ret tt
  end.

Definition untitled : jsstring := js "(无标题)".

(** [pane.title || '(无标题)'] *)
Definition titleOf (p : Pane) : jsstring :=
  match title p with [] => untitled | t => t end.

(** [pane?.title || '(无标题)'] *)
Definition titleOfFound (p : option Pane) : jsstring :=
  match p with Some q => titleOf q | None => untitled end.

(** [String(currentPaneId)], where the id may be [null]. *)
Definition StringOpt (paneId : option jsstring) : jsstring :=
  match paneId with Some s => s | None => js "null" end.

(** The listing sent by [/panes]. *)
Definition panesMessage (panes : list Pane) (currentPaneId : option jsstring)
    : jsstring :=
  let line (pane : Pane) :=
    let isSelected := jseqb (String_Z (pane_id pane)) (StringOpt currentPaneId) in
    let marker := if isSelected then js " ✅" else [] in
    js "<b>" ++ String_Z (pane_id pane) ++ js "</b>" ++ marker ++ js " - "
      ++ titleOf pane ++ nl in
  js "<b>WezTerm 窗格列表:</b>" ++ nl ++ nl
    ++ flat_map line panes
    ++ nl ++ js "使用 /setpane &lt;id&gt; 选择窗格"
    ++ match currentPaneId with
       | Some cur => nl ++ nl ++ js "当前选择: <b>" ++ cur ++ js "</b>"
       | None => []
       end.

Definition setpaneUsage : jsstring :=
  js "⚠️ 请提供窗格 ID" ++ nl ++ nl ++ js "用法: /setpane &lt;id&gt;" ++ nl
    ++ js "例如: /setpane 3" ++ nl ++ nl ++ js "使用 /panes 查看可用窗格".

Definition paneNotFound (paneId : jsstring) : jsstring :=
  js "❌ 窗格 " ++ paneId ++ js " 不存在" ++ nl ++ nl
    ++ js "使用 /panes 查看可用窗格".

Definition paneSelected (paneId paneTitle : jsstring) : jsstring :=
  js "✅ 已选择窗格 <b>" ++ paneId ++ js "</b>" ++ nl ++ js "标题: " ++ paneTitle
    ++ nl ++ nl ++ js "现在可以发送消息了！".

(** The [/setpane] case of [handleCommand], the same in both bridges. *)
Definition setpane (chatId : Z) (args : jsstring) : M unit :=
  match trim args with
  | [] => sendMessage chatId setpaneUsage ;; ret tt
  | paneId =>
    panes <- getWeztermPanes ;;
    if negb (listed panes paneId) then
      sendMessage chatId (paneNotFound paneId) ;; ret tt
    else
      saveSelectedPaneId paneId ;;
      sendMessage chatId
        (paneSelected paneId (titleOfFound (findPane panes paneId))) ;;
      ret tt
  end.

Definition noPaneGuidance : jsstring :=
  js "❌ 未选择窗格" ++ nl ++ nl ++ js "请先执行以下步骤:" ++ nl
    ++ js "1. /panes - 查看窗格列表" ++ nl
    ++ js "2. /setpane &lt;id&gt; - 选择 Claude Code 所在的窗格".

Definition blockedText : jsstring :=
  js "⚠️ 此命令需要交互式输入，不支持通过 Telegram 使用。".

Definition blockedCommand (command : jsstring) : jsstring :=
  js "⚠️ 命令 " ++ command ++ js " 需要交互式输入，不支持通过 Telegram 使用。".

Definition unknownCommand (command : jsstring) : jsstring :=
  js "未知命令: " ++ command.

(** [`❌ 错误: ${error.message}`] *)
Definition errorReply (message : jsstring) : jsstring :=
  js "❌ 错误: " ++ message.

Definition errNoPaneSelected : jsstring := js "未选择窗格，请先使用 /setpane 选择".

(** [BLOCKED_COMMANDS.some(cmd => s.startsWith(cmd))] *)
Definition isBlocked (s : jsstring) : bool :=
  existsb (fun cmd => startsWith s cmd) BLOCKED_COMMANDS.

(** The default case of [handleCommand]. *)
Definition otherCommand (chatId : Z) (command : jsstring) : M unit :=
  (if isBlocked command
   then sendMessage chatId (blockedCommand command)
   else sendMessage chatId (unknownCommand command)) ;;
  ret tt.

(** An inbound update of the chat platform, as far as the handlers read
    it. *)
Record Message : Type := mkMessage {
  msg_chat_id : Z;                 (* [message.chat.id] *)
  msg_text : option jsstring       (* [message.text], absent for media *)
}.

Record CallbackQuery : Type := mkCallbackQuery {
  cb_chat_id : Z;                  (* [callback_query.message.chat.id] *)
  cb_data : jsstring;
  cb_id : jsstring
}.

Record Update : Type := mkUpdate {
  message : option Message;
  callback_query : option CallbackQuery
}.

(** The body of a webhook request: an update envelope, or a body on which
    [JSON.parse] or the reading of the envelope throws. *)
Inductive WebhookBody : Type :=
| Malformed (error : jsstring)
| Envelope (update : Update).

Section Host.

(** [String.prototype.toLowerCase] *)
Variable toLowerCase : jsstring -> jsstring.

(** [const [command, ...args] = text.split(' ')], with [command]
    lower-cased and [args] joined again. *)
Definition splitCommand (text : jsstring) : jsstring * jsstring :=
  match split SPACE text with
  | command :: args => (toLowerCase command, join [SPACE] args)
  | [] => ([], [])
  end.

End Host.

End Common.

(* ===================================================================== *)
(** * The first bridge ([src/bridge.js]) *)
(* ===================================================================== *)

Module Bridge.
Import JS Json Proc Common.

Definition setPending : M unit :=
  t <- gets now ;;
  writeFile PENDING_FILE (String_Z t).

Definition clearPending : M unit := unlinkIfExists PENDING_FILE.

Definition weztermSendText (text : jsstring) : M bool :=
  paneId <- findClaudePaneId ;;
  match paneId with
  | Some (c :: r) => sendTextThenReturn (c :: r) text
  | _ => throw errNoPaneSelected
  end.

Definition botCommands : list (jsstring * jsstring) :=
  [(js "panes", js "列出所有 WezTerm 窗格");
   (js "setpane", js "设置活动窗格 (例如: /setpane 3)");
   (js "status", js "检查当前状态");
   (js "stop", js "中断 Claude（发送 Escape）");
   (js "clear", js "清除对话上下文");
   (js "resume", js "恢复之前的会话");
   (js "refresh", js "刷新机器人命令");
   (js "help", js "显示帮助信息")].

Definition setupBotCommands : M unit :=
  telegramApi (SetMyCommands botCommands) ;; ret tt.

Definition helpText : jsstring :=
  join nl
    [js "<b>Claude Code Telegram 桥接器</b>"; [];
     js "<b>窗格管理:</b>";
     js "/panes - 列出所有 WezTerm 窗格";
     js "/setpane &lt;id&gt; - 设置活动窗格"; [];
     js "<b>会话控制:</b>";
     js "/status - 检查会话状态";
     js "/stop - 中断 Claude（Escape）";
     js "/clear - 清除对话";
     js "/resume - 恢复之前的会话"; [];
     js "<b>使用方法:</b>";
     js "直接发送消息即可与 Claude Code 对话！"; [];
     js "<b>注意:</b> 请先用 /panes 查看并用 /setpane 选择正确的窗格。"].

Definition statusReady (paneId paneTitle : jsstring) : jsstring :=
  js "✅ 已就绪" ++ nl ++ nl ++ js "窗格 ID: <b>" ++ paneId ++ js "</b>" ++ nl
    ++ js "标题: " ++ paneTitle.

Definition statusNoPane : jsstring :=
  js "❌ 未选择窗格" ++ nl ++ nl ++ js "请使用 /panes 查看窗格列表" ++ nl
    ++ js "然后使用 /setpane &lt;id&gt; 选择窗格".

(** The forwarding cases [/clear] and [/resume]. *)
Definition forward (chatId : Z) (literal done : jsstring) : M unit :=
  paneId <- findClaudePaneId ;;
  match paneId with
  | Some _ => weztermSendText literal ;; sendMessage chatId done ;; ret tt
  | None => sendMessage chatId (js "❌ 未选择窗格") ;; ret tt
  end.

Definition handleCommand (chatId : Z) (command args : jsstring) : M unit :=
  saveChatId chatId ;;
  if jseqb command (js "/start") || jseqb command (js "/help") then
    sendMessage chatId helpText ;; ret tt
  else if jseqb command (js "/panes") then
    panes <- getWeztermPanes ;;
    match panes with
    | [] =>
      sendMessage chatId
        (js "❌ 没有找到 WezTerm 窗格" ++ nl ++ nl ++ js "请确保 WezTerm 正在运行。") ;;
      ret tt
    | _ =>
      currentPaneId <- findClaudePaneId ;;
      sendMessage chatId (panesMessage panes currentPaneId) ;; ret tt
    end
  else if jseqb command (js "/setpane") then setpane chatId args
  else if jseqb command (js "/status") then
    panes <- getWeztermPanes ;;
    currentPaneId <- findClaudePaneId ;;
    match currentPaneId with
    | Some cur =>
      sendMessage chatId (statusReady cur (titleOfFound (findPane panes cur))) ;;
      ret tt
    | None => sendMessage chatId statusNoPane ;; ret tt
    end
  else if jseqb command (js "/refresh") then
    setupBotCommands ;;
    sendMessage chatId
      (js "✅ 已刷新机器人命令" ++ nl ++ nl
         ++ js "请退出聊天并重新进入，或重启 Telegram 查看新命令。") ;;
    ret tt
  else if jseqb command (js "/stop") then
    sent <- weztermSendEscape ;;
    (if sent then sendMessage chatId (js "⏹ 已发送中断信号")
     else sendMessage chatId (js "❌ 发送中断失败")) ;;
    stopTypingLoop ;;
    clearPending
  else if jseqb command (js "/clear") then
    forward chatId (js "/clear") (js "🗑 对话已清除")
  else if jseqb command (js "/resume") then
    forward chatId (js "/resume") (js "▶️ 正在恢复之前的会话...")
  else otherCommand chatId command.

Section Host.

(** [String.prototype.toLowerCase] *)
Variable toLowerCase : jsstring -> jsstring.

Definition handleMessage (chatId : Z) (text : jsstring) : M unit :=
  saveChatId chatId ;;
  paneId <- findClaudePaneId ;;
  match paneId with
  | None => sendMessage chatId noPaneGuidance ;; ret tt
  | Some _ =>
    if isBlocked (toLowerCase text) then
      sendMessage chatId blockedText ;; ret tt
    else
      tryCatch
        (setPending ;;
         startTypingLoop chatId ;;
         weztermSendText text ;;
         ret tt)
        (fun message =>
           stopTypingLoop ;;
           clearPending ;;
           sendMessage chatId (errorReply message) ;;
           ret tt)
  end.

(** The part of the webhook handler that reads one update. *)
Definition handleUpdate (update : Update) : M unit :=
  match message update with
  | Some m =>
    let chatId := msg_chat_id m in
    let text := match msg_text m with Some t => t | None => [] end in
    if startsWith text [SLASH] then
      let (command, args) := splitCommand toLowerCase text in
      handleCommand chatId command args
    else
      match trim text with
      | [] => ret tt
      | _ => handleMessage chatId text
      end
  | None => ret tt
  end ;;
  match callback_query update with
  | Some q =>
    telegramApi (AnswerCallbackQuery (cb_id q) None false) ;;
    if startsWith (cb_data q) (js "resume:") then
      let sessionId := replaceString (js "resume:") [] (cb_data q) in
      weztermSendText (js "/resume " ++ sessionId) ;;
      sendMessage (cb_chat_id q)
        (js "▶️ Resuming session " ++ sessionId ++ js "...") ;;
      ret tt
    else ret tt
  | None => ret tt
  end.

Definition handleWebhook (method : jsstring) (body : WebhookBody) : M unit :=
  if negb (jseqb method (js "POST")) then
    emit (Respond 405 (Text (js "Method Not Allowed")))
  else
    tryCatch
      (match body with
       | Malformed error => throw error
       | Envelope update => handleUpdate update
       end ;;
       emit (Respond 200 (Text (js "OK"))))
      (fun _ => emit (Respond 500 (Text (js "Internal Server Error")))).

End Host.

End Bridge.

(* ===================================================================== *)
(** * The bridge server (allow-list, mute flag, [/hook] endpoint) *)
(* ===================================================================== *)

Module Server.
Import JS Json Proc Common.

Definition errNotRunning : jsstring :=
  js "WezTerm 未运行或无法连接，请重新启动 WezTerm".

Definition errPaneGone (paneId : jsstring) : jsstring :=
  js "窗格 " ++ paneId
    ++ js " 已不存在（WezTerm 可能已重启），请使用 /panes 查看并重新选择".

(** [weztermSendText], with the fresh validation before sending. *)
Definition weztermSendText (text : jsstring) : M bool :=
  panes <- getWeztermPanes ;;
  match panes with
  | [] => clearSelectedPaneId ;; throw errNotRunning
  | _ =>
    paneId <- findClaudePaneId ;;
    match paneId with
    | Some (c :: r) =>
      if negb (listed panes (c :: r)) then
        clearSelectedPaneId ;; throw (errPaneGone (c :: r))
      else sendTextThenReturn (c :: r) text
    | _ => throw errNoPaneSelected
    end
  end.

Definition getChatId : M (option jsstring) :=
  c <- gets chatIdFile ;;
  ret (option_map trim c).

Definition botCommands : list (jsstring * jsstring) :=
  [(js "panes", js "列出所有 WezTerm 窗格");
   (js "setpane", js "设置活动窗格 (例如: /setpane 3)");
   (js "status", js "检查当前状态");
   (js "stop", js "中断 Claude（发送 Escape）");
   (js "clear", js "清除对话上下文");
   (js "resume", js "恢复之前的会话");
   (js "mute", js "静音 - 不接收 Claude 回复");
   (js "unmute", js "取消静音 - 接收 Claude 回复");
   (js "refresh", js "刷新机器人命令");
   (js "help", js "显示帮助信息")].

Definition setupBotCommands : M unit :=
  telegramApi (SetMyCommands botCommands) ;; ret tt.

Definition helpText : jsstring :=
  join nl
    [js "<b>Claude Code Telegram 桥接器</b>"; [];
     js "<b>窗格管理:</b>";
     js "/panes - 列出所有 WezTerm 窗格";
     js "/setpane &lt;id&gt; - 设置活动窗格"; [];
     js "<b>会话控制:</b>";
     js "/status - 检查会话状态";
     js "/stop - 中断 Claude（Escape）";
     js "/clear - 清除对话";
     js "/resume - 恢复之前的会话"; [];
     js "<b>通知控制:</b>";
     js "/mute - 静音（不接收 Claude 回复）";
     js "/unmute - 取消静音"; [];
     js "<b>使用方法:</b>";
     js "直接发送消息即可与 Claude Code 对话！"; [];
     js "<b>注意:</b> 请先用 /panes 查看并用 /setpane 选择正确的窗格。"].

Definition muteStatus (muted : bool) : jsstring :=
  if muted then js "🔇 已静音" else js "🔔 通知开启".

Definition weztermStatus (panes : list Pane) : jsstring :=
  match panes with
  | [] => js "❌ WezTerm 未连接"
  | _ => js "✅ WezTerm 已连接 (" ++ String_nat (length panes) ++ js " 个窗格)"
  end.

Definition statusReady (panes : list Pane) (muted : bool)
    (paneId paneTitle : jsstring) : jsstring :=
  js "✅ 已就绪" ++ nl ++ nl ++ weztermStatus panes ++ nl
    ++ js "窗格 ID: <b>" ++ paneId ++ js "</b>" ++ nl
    ++ js "标题: " ++ paneTitle ++ nl ++ js "通知: " ++ muteStatus muted.

Definition statusNoPane (panes : list Pane) (muted : bool) : jsstring :=
  js "❌ 未选择窗格" ++ nl ++ nl ++ weztermStatus panes ++ nl
    ++ js "通知: " ++ muteStatus muted ++ nl ++ nl
    ++ js "请使用 /panes 查看窗格列表" ++ nl
    ++ js "然后使用 /setpane &lt;id&gt; 选择窗格".

Definition mutedReply : jsstring :=
  js "🔇 已静音" ++ nl ++ nl ++ js "Claude 的回复将不会发送到 Telegram。" ++ nl
    ++ js "使用 /unmute 取消静音。".

Definition unmutedReply : jsstring :=
  js "🔔 已取消静音" ++ nl ++ nl ++ js "Claude 的回复将会发送到 Telegram。".

(** The forwarding cases [/clear] and [/resume]. *)
Definition forward (chatId : Z) (literal done : jsstring) : M unit :=
  paneId <- findClaudePaneId ;;
  match paneId with
  | Some _ => weztermSendText literal ;; sendMessage chatId done ;; ret tt
  | None => sendMessage chatId (js "❌ 未选择窗格") ;; ret tt
  end.

Definition handleCommand (chatId : Z) (command args : jsstring) : M unit :=
  saveChatId chatId ;;
  if jseqb command (js "/start") || jseqb command (js "/help") then
    sendMessage chatId helpText ;; ret tt
  else if jseqb command (js "/panes") then
    panes <- getWeztermPanes ;;
    match panes with
    | [] =>
      sendMessage chatId
        (js "❌ 没有找到 WezTerm 窗格" ++ nl ++ nl ++ js "请确保 WezTerm 正在运行。") ;;
      ret tt
    | _ =>
      currentPaneId <- findClaudePaneId ;;
      sendMessage chatId (panesMessage panes currentPaneId) ;; ret tt
    end
  else if jseqb command (js "/setpane") then setpane chatId args
  else if jseqb command (js "/status") then
    panes <- getWeztermPanes ;;
    currentPaneId <- findClaudePaneId ;;
    muted <- gets isMuted ;;
    match currentPaneId with
    | Some cur =>
      sendMessage chatId
        (statusReady panes muted cur (titleOfFound (findPane panes cur))) ;;
      ret tt
    | None => sendMessage chatId (statusNoPane panes muted) ;; ret tt
    end
  else if jseqb command (js "/mute") then
    modify (set_isMuted true) ;;
    sendMessage chatId mutedReply ;; ret tt
  else if jseqb command (js "/unmute") then
    modify (set_isMuted false) ;;
    sendMessage chatId unmutedReply ;; ret tt
  else if jseqb command (js "/refresh") then
    setupBotCommands ;;
    sendMessage chatId
      (js "✅ 已刷新机器人命令" ++ nl ++ nl
         ++ js "请退出聊天并重新进入，或重启 Telegram 查看新命令。") ;;
    ret tt
  else if jseqb command (js "/stop") then
    sent <- weztermSendEscape ;;
    (if sent then sendMessage chatId (js "⏹ 已发送中断信号")
     else sendMessage chatId (js "❌ 发送中断失败")) ;;
    stopTypingLoop
  else if jseqb command (js "/clear") then
    forward chatId (js "/clear") (js "🗑 对话已清除")
  else if jseqb command (js "/resume") then
    forward chatId (js "/resume") (js "▶️ 正在恢复之前的会话...")
  else otherCommand chatId command.

Section Host.

(** [String.prototype.toLowerCase] *)
Variable toLowerCase : jsstring -> jsstring.

Definition handleMessage (chatId : Z) (text : jsstring) : M unit :=
  saveChatId chatId ;;
  paneId <- findClaudePaneId ;;
  match paneId with
  | None => sendMessage chatId noPaneGuidance ;; ret tt
  | Some _ =>
    if isBlocked (toLowerCase text) then
      sendMessage chatId blockedText ;; ret tt
    else
      tryCatch
        (startTypingLoop chatId ;;
         weztermSendText text ;;
         ret tt)
        (fun message =>
           stopTypingLoop ;;
           sendMessage chatId (errorReply message) ;;
           ret tt)
  end.

(** ** The hook endpoint *)

(** [sendMessageWithFallback(chatId, text)], the chat id being the text
    read from the chat-id file. *)
Definition sendMessageWithFallback (chatId text : jsstring) : M ApiResult :=
  result <- telegramApi
              (SendMessage (JStr chatId) (slice0 MAX_MESSAGE_LENGTH text)
                           (Some (js "HTML"))) ;;
  if negb (ok result) then
    telegramApi (SendMessage (JStr chatId) (slice0 MAX_MESSAGE_LENGTH text) None)
  else ret result.

(** The body of a hook request: what [JSON.parse] makes of it. *)
Inductive HookBody : Type :=
| Unparseable (error : jsstring)
| Parsed (data : json).

Definition okBody (extra : list (jsstring * json)) : Body :=
  Stringify (JObj ((js "ok", JBool true) :: extra)).

Definition errorBody (error : option jsstring) : Body :=
  Stringify (JObj ((js "ok", JBool false)
                   :: match error with
                      | Some e => [(js "error", JStr e)]
                      | None => []
                      end)).

(** [v || fallback], printed by the template literal; [None] where the
    printing throws. *)
Definition orDefault (v : option json) (fallback : jsstring) : option jsstring :=
  match v with
  | Some x => if truthy x then toString x else Some fallback
  | None => Some fallback
  end.

(** The header of a completion; [None] where the template literal
    throws. *)
Definition htmlHeader (cwd sessionId : option json) : option jsstring :=
  match orDefault cwd (js "未知目录"), orDefault sessionId (js "未知会话") with
  | Some cwdDisplay, Some sessionDisplay =>
    Some (js "<code>📁 " ++ cwdDisplay ++ js "</code>" ++ nl
            ++ js "<code>🔖 " ++ sessionDisplay ++ js "</code>" ++ nl ++ nl)
  | _, _ => None
  end.

(** The header as the handler builds it: a value that cannot be printed
    makes the template literal throw. *)
Definition buildHeader (cwd sessionId : option json) : M jsstring :=
  match htmlHeader cwd sessionId with
  | Some header => ret header
  | None => throw (js "Cannot convert object to primitive value")
  end.

(** [markdownToTelegramHtml(message)] on a value that need not be a
    string: a value without [replace] method makes the first
    [result.replace] throw. *)
Definition convertMessage (message : json) : M jsstring :=
  match message with
  | JStr s => ret (ServerMarkup.markdownToTelegramHtml s)
  | _ => throw (js "result.replace is not a function")
  end.

Definition handleHookRequest (body : HookBody) : M unit :=
  tryCatch
    (match body with
     | Unparseable error => throw error
     | Parsed JNull =>
       throw (js "Cannot destructure property 'message' of 'data' as it is null.")
     | Parsed data =>
       let message := prop data (js "message") in
       let cwd := prop data (js "cwd") in
       let sessionId := prop data (js "sessionId") in
       stopTypingLoop ;;
       muted <- gets isMuted ;;
       if muted then
         emit (Respond 200 (okBody [(js "muted", JBool true)]))
       else
         chatId <- getChatId ;;
         match chatId with
         | Some (c :: r) =>
           match message with
           | Some m =>
             if truthy m then
               header <- buildHeader cwd sessionId ;;
               html <- convertMessage m ;;
               result <- sendMessageWithFallback (c :: r) (header ++ html) ;;
               if ok result then emit (Respond 200 (okBody []))
               else emit (Respond 500 (errorBody (description result)))
             else emit (Respond 200 (okBody [(js "empty", JBool true)]))
           | None => emit (Respond 200 (okBody [(js "empty", JBool true)]))
           end
         | _ => emit (Respond 400 (errorBody (Some (js "No chat ID"))))
         end
     end)
    (fun error => emit (Respond 500 (errorBody (Some error)))).

(** ** The chat webhook *)

Section Webhook.

(** [ALLOWED_CHAT_IDS], fixed at start-up from the environment. *)
Variable ALLOWED_CHAT_IDS : list jsstring.

Definition isAuthorized (chatId : Z) : bool :=
  match ALLOWED_CHAT_IDS with
  | [] => false
  | _ => existsb (jseqb (String_Z chatId)) ALLOWED_CHAT_IDS
  end.

Definition unauthorizedNotice (chatId : Z) : jsstring :=
  js "⛔ 未授权" ++ nl ++ nl ++ js "您的 Chat ID: <code>" ++ String_Z chatId
    ++ js "</code>" ++ nl ++ nl
    ++ js "请联系管理员将您的 Chat ID 添加到白名单。".

Definition respondOK : M unit := emit (Respond 200 (Text (js "OK"))).

(** The callback-query part of the handler and the final answer. *)
Definition handleCallbackQuery (update : Update) : M unit :=
  match callback_query update with
  | Some q =>
    if negb (isAuthorized (cb_chat_id q)) then
      telegramApi (AnswerCallbackQuery (cb_id q) (Some (js "未授权")) true) ;;
      respondOK
    else
      telegramApi (AnswerCallbackQuery (cb_id q) None false) ;;
      (if startsWith (cb_data q) (js "resume:") then
         let sessionId := replaceString (js "resume:") [] (cb_data q) in
         weztermSendText (js "/resume " ++ sessionId) ;;
         sendMessage (cb_chat_id q)
           (js "▶️ Resuming session " ++ sessionId ++ js "...") ;;
         ret tt
       else ret tt) ;;
      respondOK
  | None => respondOK
  end.

Definition handleUpdate (update : Update) : M unit :=
  match message update with
  | Some m =>
    let chatId := msg_chat_id m in
    let text := match msg_text m with Some t => t | None => [] end in
    if negb (isAuthorized chatId) then
      sendMessage chatId (unauthorizedNotice chatId) ;;
      respondOK
    else
      (if startsWith text [SLASH] then
         let (command, args) := splitCommand toLowerCase text in
         handleCommand chatId command args
       else
         match trim text with
         | [] => ret tt
         | _ => handleMessage chatId text
         end) ;;
      handleCallbackQuery update
  | None => handleCallbackQuery update
  end.

Definition handleTelegramWebhook (body : WebhookBody) : M unit :=
  tryCatch
    (match body with
     | Malformed error => throw error
     | Envelope update => handleUpdate update
     end)
    (fun _ => emit (Respond 500 (Text (js "Internal Server Error")))).

(** A request as the router reads it.  [pathname] is the path of
    [new URL(req.url, base)], [None] for a request target on which the
    constructor throws (such as [//]); the body is given as each of the
    two handlers would read it. *)
Record Request : Type := mkRequest {
  method : jsstring;
  pathname : option jsstring;
  hookBody : HookBody;
  webhookBody : WebhookBody
}.

(** [handleRequest].  The URL is built first, outside every [try]: when
    the constructor throws, the handler is left before anything is written
    to the response. *)
Definition handleRequest (req : Request) : M unit :=
  match pathname req with
  | None => throw (js "Invalid URL")
  | Some path =>
    if jseqb path (js "/hook") && jseqb (method req) (js "POST") then
      handleHookRequest (hookBody req)
    else if jseqb (method req) (js "POST") then
      handleTelegramWebhook (webhookBody req)
    else if jseqb path (js "/health") && jseqb (method req) (js "GET") then
      muted <- gets isMuted ;;
      emit (Respond 200 (okBody [(js "muted", JBool muted)]))
    else emit (Respond 404 (Text (js "Not Found")))
  end.

End Webhook.

End Host.

End Server.

(* ===================================================================== *)
(** * The Completion Extractor ([extractLastAssistantMessage]) *)
(* ===================================================================== *)

Module Extractor.
Import JS Json.

(** What the body of the loop does with one parsed entry. *)
Inductive Outcome : Type :=
| Found (text : jsstring)    (* [return textParts.join('\n')] *)
| Nothing                    (* falls through to the next iteration *)
| Caught.                    (* a [TypeError] lands in [catch]: [continue] *)

(** [for (const block of content) if (block.type === 'text' && block.text)
    textParts.push(block.text)]; [None] when a block is [null], whose
    property cannot be read and throws. *)
Fixpoint collectText (content : list json) : option (list json) :=
  match content with
  | [] => Some []
  | JNull :: _ => None
  | block :: rest =>
    match collectText rest with
    | None => None
    | Some parts =>
      match prop block (js "type"), prop block (js "text") with
      | Some (JStr t), Some text =>
        if jseqb t (js "text") && truthy text then Some (text :: parts)
        else Some parts
      | _, _ => Some parts
      end
    end
  end.

(** [textParts.join('\n')]; [None] where a part cannot be printed. *)
Definition joinParts (parts : list json) : option jsstring :=
  arrayJoin [LF] parts.

Definition isAssistant (entry : json) : bool :=
  match prop entry (js "type") with
  | Some (JStr t) => jseqb t (js "assistant")
  | _ => false
  end.

(** The text parts of [entry.message.content]. *)
Definition textParts (message : json) : option (list json) :=
  match prop message (js "content") with
  | Some (JArr content) => collectText content
  | Some (JStr s) => Some [JStr s]
  | _ => Some []
  end.

Definition entryText (entry : json) : Outcome :=
  match entry with
  | JNull => Caught
  | _ =>
    if isAssistant entry && truthyU (prop entry (js "message")) then
      match prop entry (js "message") with
      | Some message =>
        match textParts message with
        | None => Caught
        | Some [] => Nothing
        | Some parts =>
          match joinParts parts with
          | Some text => Found text
          | None => Caught
          end
        end
      | None => Nothing
      end
    else Nothing
  end.

Section Extract.

(** [JSON.parse], [None] where it throws. *)
Variable JSON_parse : jsstring -> option json.

(** One iteration of the loop on a line. *)
Definition lineText (line : jsstring) : option jsstring :=
  match JSON_parse line with
  | None => None
  | Some entry =>
    match entryText entry with
    | Found text => Some text
    | _ => None
    end
  end.

(** [for (let i = n - 1; i >= 0; i--)] over [lines]. *)
Fixpoint scanFrom (lines : list jsstring) (n : nat) : option jsstring :=
  match n with
  | O => None
  | S i =>
    match lineText (nth i lines []) with
    | Some text => Some text
    | None => scanFrom lines i
    end
  end.

Definition transcriptLines (content : jsstring) : list jsstring :=
  split LF (trim content).

(** [extractLastAssistantMessage]; the argument is the content of the
    transcript file, [None] when the file does not exist; the result is
    [None] for [null]. *)
Definition extractLastAssistantMessage (file : option jsstring)
    : option jsstring :=
  match file with
  | None => None
  | Some content =>
    let lines := transcriptLines content in
    scanFrom lines (length lines)
  end.

End Extract.

(** ** The extractor as the specification words it *)

(** The text of a record: the content itself when it is a string, the
    newline-joined texts of its blocks of type text when it is a sequence
    of blocks. *)
Definition spec_recordText (entry : json) : jsstring :=
  match prop entry (js "message") with
  | Some message =>
    match prop message (js "content") with
    | Some (JStr s) => s
    | Some (JArr blocks) =>
      join [LF]
        (flat_map
           (fun block =>
              match prop block (js "type"), prop block (js "text") with
              | Some (JStr t), Some (JStr text) =>
                if jseqb t (js "text") then [text] else []
              | _, _ => []
              end)
           blocks)
    | _ => []
    end
  | None => []
  end.

(** Scan from the end and return the text of the first record whose
    declared role is assistant; no message when there is none; lines that
    do not parse are skipped. *)
Fixpoint spec_scan (parse : jsstring -> option json) (reversed : list jsstring)
    : option jsstring :=
  match reversed with
  | [] => None
  | line :: earlier =>
    match parse line with
    | Some entry =>
      if isAssistant entry then Some (spec_recordText entry)
      else spec_scan parse earlier
    | None => spec_scan parse earlier
    end
  end.

Definition spec_extract (parse : jsstring -> option json) (content : jsstring)
    : option jsstring :=
  spec_scan parse (rev (transcriptLines content)).

(** ** Concrete transcripts, for running the extractor *)

(** JSON text of a value whose strings need no escaping. *)
Fixpoint render (v : json) : jsstring :=
  match v with
  | JNull => js "null"
  | JBool true => js "true"
  | JBool false => js "false"
  | JNum repr => repr
  | JStr s => [DQUOTE] ++ s ++ [DQUOTE]
  | JArr items => js "[" ++ join [COMMA] (map render items) ++ js "]"
  | JObj fields =>
    js "{"
      ++ join [COMMA]
           (map (fun kv => [DQUOTE] ++ fst kv ++ [DQUOTE] ++ js ":" ++ render (snd kv))
                fields)
      ++ js "}"
  end.

(** A parser that knows the given values by their text and rejects every
    other line. *)
Definition parseOnly (known : list json) (line : jsstring) : option json :=
  find (fun v => jseqb (render v) line) known.

Definition record (type : jsstring) (content : json) : json :=
  JObj [(js "type", JStr type); (js "message", JObj [(js "content", content)])].

Definition block (type : jsstring) (fields : list (jsstring * json)) : json :=
  JObj ((js "type", JStr type) :: fields).

End Extractor.

(* ===================================================================== *)
(** * Vocabulary of the statements *)
(* ===================================================================== *)

Module Vocabulary.
Import JS Json Proc Common.

(** The characters [escapeHtml] rewrites. *)
Definition isSpecial (c : char) : bool :=
  ((c =? AMP) || (c =? LT) || (c =? GT))%N.

(** The entity reference of a character, or the character itself. *)
Definition escapeChar (c : char) : jsstring :=
  if (c =? AMP)%N then js "&amp;"
  else if (c =? LT)%N then js "&lt;"
  else if (c =? GT)%N then js "&gt;"
  else [c].

(** The characters that start a code span or an emphasis. *)
Definition isMarkdownChar (c : char) : bool :=
  ((c =? BACKTICK) || (c =? STAR) || (c =? UNDERSCORE) || (c =? TILDE))%N.

(** A text without code spans and emphasis delimiters. *)
Definition plainText (s : jsstring) : Prop :=
  Forall (fun c => isMarkdownChar c = false) s.

(** Number of occurrences of a character. *)
Definition occurrences (c : char) (s : jsstring) : nat :=
  length (filter (fun x => (x =? c)%N) s).

(** The quoting step as the specification words it: every double quote
    becomes two, every other character passes through. *)
Fixpoint spec_doubleQuotes (payload : jsstring) : jsstring :=
  match payload with
  | [] => []
  | c :: rest =>
    if (c =? DQUOTE)%N then DQUOTE :: DQUOTE :: spec_doubleQuotes rest
    else c :: spec_doubleQuotes rest
  end.

(** The variables and files of the process, without the outside world and
    the trace. *)
Definition sameSession (a b : State) : Prop :=
  isMuted a = isMuted b /\ selectedPaneId a = selectedPaneId b
  /\ typingInterval a = typingInterval b /\ chatIdFile a = chatIdFile b
  /\ paneIdFile a = paneIdFile b /\ pendingFile a = pendingFile b
  /\ envPaneId a = envPaneId b.

(** The pane listing the next call of [getWeztermPanes] returns. *)
Definition nextListing (st : State) : list Pane := hd [] (listings st).

Definition isSendMessage (e : Event) : bool :=
  match e with
  | Api (SendMessage _ _ _) => true
  | _ => false
  end.

End Vocabulary.

(* ===================================================================== *)
(** * Sample states and inputs *)
(* ===================================================================== *)

Module Samples.
Import JS Json Proc Common.

(** A fresh process: nothing selected, no state file, a silent world. *)
Definition idle : State :=
  mkState false None None None None None None [] [] [] 1700000000000 [].

Definition pane3 : Pane := mkPane 3 (js "shell").

(** Pane 3 is selected and persisted, and the multiplexer keeps listing
    it. *)
Definition pane3Selected : State :=
  mkState false (Some (js "3")) None None (Some (js "3")) None None
          [[pane3]; [pane3]; [pane3]; [pane3]] [] [] 1700000000000 [].

(** Pane 3 is selected, but the multiplexer lists only pane 4. *)
Definition pane3Gone : State :=
  mkState false (Some (js "3")) None None (Some (js "3")) None None
          [[mkPane 4 (js "vim")]] [] [] 1700000000000 [].

(** As [pane3Selected], with the text command failing. *)
Definition pane3Failing : State :=
  mkState false (Some (js "3")) None None (Some (js "3")) None None
          [[pane3]; [pane3]; [pane3]; [pane3]]
          [Some (js "Command failed")] [] 1700000000000 [].

(** Muted, with chat 111 active and its typing timer running. *)
Definition mutedTyping : State :=
  mkState true (Some (js "3")) (Some 111%Z) (Some (js "111")) (Some (js "3"))
          None None [] [] [] 1700000000000 [].

(** A payload with double quotes and other characters the shell
    reads. *)
Definition quotedPayload : jsstring :=
  js "say " ++ [DQUOTE] ++ js "hi" ++ [DQUOTE] ++ js " `id` $HOME".

Definition textFrom (chatId : Z) (text : jsstring) : Update :=
  mkUpdate (Some (mkMessage chatId (Some text))) None.

Definition callbackFrom (chatId : Z) (data : jsstring) : Update :=
  mkUpdate None (Some (mkCallbackQuery chatId data (js "q1"))).

(** The body the hook script posts. *)
Definition completion (message : jsstring) : json :=
  JObj [(js "message", JStr message); (js "cwd", JStr (js "/tmp"));
        (js "sessionId", JStr (js "abc"))].

Definition hookPost (data : json) : Server.Request :=
  Server.mkRequest (js "POST") (Some (js "/hook")) (Server.Parsed data)
                   (Malformed (js "not an update")).

End Samples.

(* ===================================================================== *)
(** * The phases of [handleMessage] *)
(* ===================================================================== *)

Module Phases.
Import JS Json Proc Common.

(** The first two statements of [handleMessage] in both bridges: the chat
    id is saved and the pane is looked up. *)
Definition paneCheck (chatId : Z) : M (option jsstring) :=
  saveChatId chatId ;; findClaudePaneId.

(** What [stopTypingLoop] emits in a state. *)
Definition clearEvents (st : State) : list Event :=
  match typingInterval st with
  | Some _ => [ClearInterval]
  | None => []
  end.

(** What [startTypingLoop] emits after stopping the previous loop. *)
Definition typingEvents (chatId : Z) : list Event :=
  [Api (SendChatAction (chatJson chatId) (js "typing")); SetInterval chatId].

(** The reply of [handleMessage] to a failed dispatch. *)
Definition errorEvent (chatId : Z) (message : jsstring) : Event :=
  Api (SendMessage (chatJson chatId)
         (slice0 MAX_MESSAGE_LENGTH (errorReply message))
         (Some (js "HTML"))).

(** An event that puts something into the terminal: a shell command
    other than the pane listing. *)
Definition isDispatch (e : Event) : bool :=
  match e with
  | Exec cmd => negb (jseqb cmd (js "wezterm cli list --format json"))
  | _ => false
  end.

(** An event that touches the pending marker. *)
Definition touchesPending (e : Event) : bool :=
  match e with
  | WriteFile PENDING_FILE _ => true
  | Unlink PENDING_FILE => true
  | _ => false
  end.

(** What an operation that does not dispatch leaves untouched. *)
Definition quiet (s s' : State) : Prop :=
  exists evs,
    trace s' = trace s ++ evs
    /\ existsb isDispatch evs = false
    /\ existsb touchesPending evs = false
    /\ typingInterval s' = typingInterval s
    /\ pendingFile s' = pendingFile s
    /\ now s' = now s.

(** What a dispatch leaves untouched. *)
Definition dispatching (s s' : State) : Prop :=
  exists evs,
    trace s' = trace s ++ evs
    /\ existsb touchesPending evs = false
    /\ typingInterval s' = typingInterval s
    /\ pendingFile s' = pendingFile s.

End Phases.

(* ===================================================================== *)
(** * Sample transcripts *)
(* ===================================================================== *)

Module Transcripts.
Import JS Json Extractor.

(** Content blocks given by their type and text. *)
Definition blocksOf (l : list (jsstring * jsstring)) : list json :=
  map (fun b => block (fst b) [(js "text", JStr (snd b))]) l.

(** [v === null] *)
Definition isNull (v : json) : bool :=
  match v with
  | JNull => true
  | _ => false
  end.

(** The texts a sequence of blocks holds: the [text] of every block of
    type text whose text is truthy, in order. *)
Definition blockTexts (blocks : list json) : list json :=
  flat_map
    (fun block =>
       match prop block (js "type"), prop block (js "text") with
       | Some (JStr t), Some text =>
         if jseqb t (js "text") && truthy text then [text] else []
       | _, _ => []
       end)
    blocks.

(** A turn that ends with a tool call: the assistant first answers
    [done], then a record with a single tool-use block follows. *)
Definition answer : json := record (js "assistant") (JStr (js "done")).

Definition toolCall : json :=
  record (js "assistant")
         (JArr [block (js "tool_use") [(js "name", JStr (js "Bash"))]]).

Definition toolCallTranscript : jsstring := render answer ++ [LF] ++ render toolCall.

(** An assistant record whose content is the empty string. *)
Definition emptyAnswer : json := record (js "assistant") (JStr []).

(** An assistant record with a text block followed by [null]. *)
Definition nullBlock : json :=
  record (js "assistant")
         (JArr [block (js "text") [(js "text", JStr (js "late"))]; JNull]).

(** An assistant record whose text is an object with a field
    [toString]. *)
Definition unprintable : json :=
  record (js "assistant")
         (JArr [block (js "text")
                  [(js "text", JObj [(js "toString", JStr (js "x"))])]]).

(** A record as the transcripts have them, with further fields at every
    level; the second text is a number. *)
Definition fullRecord : json :=
  JObj [(js "uuid", JStr (js "u1"));
        (js "type", JStr (js "assistant"));
        (js "message",
         JObj [(js "role", JStr (js "assistant"));
               (js "content",
                JArr [JObj [(js "type", JStr (js "text"));
                            (js "text", JStr (js "one"));
                            (js "citations", JNull)];
                      JObj [(js "type", JStr (js "tool_use"));
                            (js "text", JStr (js "skipped"))];
                      JObj [(js "text", JNum (js "7"));
                            (js "type", JStr (js "text"))]]);
               (js "stop_reason", JNull)]);
        (js "timestamp", JStr (js "t"))].

End Transcripts.

(* ===================================================================== *)
(** * Relations kept by a run *)
(* ===================================================================== *)

Module Frames.
Import JS Json Proc Common.

(** Every run of [m] relates the state it starts from to the state it
    leaves, whether it returns or throws. *)
Definition keeps {A : Type} (R : State -> State -> Prop) (m : M A) : Prop :=
  forall s, R s (snd (m s)).

(** The trace grows, and only by events that satisfy [P]. *)
Definition emitsOnly (P : Event -> Prop) (s s' : State) : Prop :=
  exists evs, trace s' = trace s ++ evs /\ Forall P evs.

Definition isRespond (e : Event) : bool :=
  match e with
  | Respond _ _ => true
  | _ => false
  end.

(** A message to the chat API within the length limit. *)
Definition withinLimit (e : Event) : Prop :=
  match e with
  | Api (SendMessage _ text _) => length text <= MAX_MESSAGE_LENGTH
  | _ => True
  end.

(** The trace grew by events without an HTTP response, followed by one
    response. *)
Definition answered (s s' : State) : Prop :=
  exists evs status body,
    trace s' = trace s ++ evs ++ [Respond status body]
    /\ Forall (fun e => isRespond e = false) evs.

(** A run that either ends with its one HTTP response or throws before
    any response. *)
Definition answersOrThrows (m : M unit) : Prop :=
  forall s,
    match fst (m s) with
    | Ok _ => answered s (snd (m s))
    | Throw _ => emitsOnly (fun e => isRespond e = false) s (snd (m s))
    end.

(** Intervals created and not yet cleared, as the trace records them. *)
Fixpoint liveIntervals (evs : list Event) : Z :=
  match evs with
  | [] => 0
  | SetInterval _ :: rest => liveIntervals rest + 1
  | ClearInterval :: rest => liveIntervals rest - 1
  | _ :: rest => liveIntervals rest
  end.

(** The variable [typingInterval] holds a timer exactly when one interval
    is live, and no interval is live otherwise. *)
Definition timerConsistent (st : State) : Prop :=
  liveIntervals (trace st)
  = match typingInterval st with Some _ => 1 | None => 0 end%Z.

(** The selection in memory is the one in the pane-id file. *)
Definition selectionMirrored (st : State) : Prop :=
  selectedPaneId st = paneIdFile st.

(** Invariants as relations between the states before and after. *)
Definition keepsTimer (s s' : State) : Prop :=
  timerConsistent s -> timerConsistent s'.

Definition keepsMirror (s s' : State) : Prop :=
  selectionMirrored s -> selectionMirrored s'.

Definition sameMute (s s' : State) : Prop := isMuted s' = isMuted s.

Definition sameChatFile (s s' : State) : Prop := chatIdFile s' = chatIdFile s.

(** What is used of [toLowerCase] beyond its type: a result starts with a
    slash only when the subject does.  The built-in maps a text code
    point by code point, and no code point other than the slash is mapped
    to a text that starts with one. *)
Definition keepsSlash (toLowerCase : jsstring -> jsstring) : Prop :=
  forall s, startsWith (toLowerCase s) [SLASH] = true ->
            startsWith s [SLASH] = true.

(** A run that never throws. *)
Definition returns {A : Type} (m : M A) : Prop :=
  forall s, exists a, fst (m s) = Ok a.

(** The two shell commands that type [text] and the return key into the
    pane [paneId]. *)
Definition typesInto (paneId text : jsstring) (e : Event) : Prop :=
  e = Exec (sendTextCommand paneId text)
  \/ e = Exec (sendKeyCommand paneId (js "`r")).

(** The answer of the chat API to the call after the next [n] calls. *)
Definition apiAnswer (n : nat) (st : State) : ApiResult :=
  nth n (apiResults st) (mkApiResult true None).

(** The outcome of the shell command after the next [n] commands. *)
Definition execAnswer (n : nat) (st : State) : option jsstring :=
  nth n (execResults st) None.

(** What the hook endpoint may do: call the chat API, stop the typing
    timer and answer the request. *)
Definition isHookEvent (e : Event) : bool :=
  match e with
  | Api _ => true
  | ClearInterval => true
  | Respond _ _ => true
  | _ => false
  end.

(** A run that, when it throws, has sent no message to the chat. *)
Definition failsSilently {A : Type} (m : M A) : Prop :=
  forall s,
    match fst (m s) with
    | Ok _ => True
    | Throw _ =>
      emitsOnly (fun e => Vocabulary.isSendMessage e = false) s (snd (m s))
    end.

(** A run that only notifies: its events are those of the hook endpoint,
    and the selection, the state files and the answers of the terminal
    still to come are what they were. *)
Definition notifiesOnly (s s' : State) : Prop :=
  emitsOnly (fun e => isHookEvent e = true) s s'
  /\ selectedPaneId s' = selectedPaneId s
  /\ paneIdFile s' = paneIdFile s
  /\ chatIdFile s' = chatIdFile s
  /\ pendingFile s' = pendingFile s
  /\ listings s' = listings s
  /\ execResults s' = execResults s.

End Frames.

(* ===================================================================== *)
(** * Start-up: configuration and restored state *)
(* ===================================================================== *)

Module Startup.
Import JS Json Proc Common.

Definition EQUALS : char := 61%N.     (* = *)
Definition HASH : char := 35%N.       (* # *)

(** Truthiness of a string. *)
Definition nonEmpty (s : jsstring) : bool :=
  match s with
  | [] => false
  | _ => true
  end.

(** [ALLOWED_CHAT_IDS]: the variable split at commas, each part trimmed,
    the empty parts dropped; the empty list when the variable is unset or
    empty. *)
Definition parseAllowedChatIds (variable : option jsstring) : list jsstring :=
  match variable with
  | Some (c :: r) => filter nonEmpty (map trim (split COMMA (c :: r)))
  | _ => []
  end.

(** The variables of the process, the most recent assignment first. *)
Definition Env : Type := list (jsstring * jsstring).

Section Environment.

(** Whether two names denote the same variable of [process.env] (the
    names are compared exactly on POSIX and without regard to case on
    Windows). *)
Variable sameKey : jsstring -> jsstring -> bool.

(** [process.env[key]] *)
Definition getenv (env : Env) (key : jsstring) : option jsstring :=
  match find (fun kv => sameKey (fst kv) key) env with
  | Some kv => Some (snd kv)
  | None => None
  end.

(** [!process.env[key]] *)
Definition unset (env : Env) (key : jsstring) : bool :=
  match getenv env key with
  | Some (_ :: _) => false
  | _ => true
  end.

(** The body of the loop over the lines of the [.env] file. *)
Definition loadLine (env : Env) (line : jsstring) : Env :=
  let trimmed := trim line in
  if nonEmpty trimmed && negb (startsWith trimmed [HASH]) then
    match split EQUALS trimmed with
    | key :: valueParts =>
      let value := join [EQUALS] valueParts in
      if nonEmpty key && nonEmpty value && unset env key
      then (key, value) :: env
      else env
    | [] => env
    end
  else env.

(** [for (const line of envContent.split('\n')) ...] *)
Definition loadEnv (envContent : jsstring) (env : Env) : Env :=
  fold_left loadLine (split LF envContent) env.

End Environment.

(** The variables of a fresh process with the state files it finds: the
    mute flag off, no typing timer, and the selection read back from the
    pane-id file. *)
Definition boot (st : State) : State :=
  exec loadSavedPaneId
       (set_typingInterval None (set_selectedPaneId None (set_isMuted false st))).

End Startup.

(* ===================================================================== *)
(** * The hook that reads the pending marker ([hooks/send-to-telegram.js]) *)
(* ===================================================================== *)

Module PendingHook.
Import JS Json Proc Common.

Definition PENDING_TIMEOUT_MS : Z := 10 * 60 * 1000.

(** The value of the longest prefix of decimal digits, after [acc]. *)
Fixpoint digitsValue (acc : Z) (s : jsstring) : Z :=
  match s with
  | c :: r =>
    if isDigit c then digitsValue (10 * acc + Z.of_N (c - 48)) r else acc
  | [] => acc
  end.

(** [parseInt(s, 10)]: leading white space is skipped, a sign is read,
    then the longest prefix of digits; [None] is [NaN], the result when
    no digit follows.  The value is exact for the integers a double
    holds exactly, which covers the time stamps read here. *)
Definition parseInt (s : jsstring) : option Z :=
  let unsigned (r : jsstring) : option Z :=
    match r with
    | d :: _ => if isDigit d then Some (digitsValue 0 r) else None
    | [] => None
    end in
  match trimStart s with
  | c :: r =>
    if (c =? 45)%N then option_map Z.opp (unsigned r)
    else if (c =? 43)%N then unsigned r
    else unsigned (c :: r)
  | [] => None
  end.

(** [isPending()], given the content of the pending file and
    [Date.now()]; a comparison with [NaN] is false. *)
Definition isPending (pendingFile : option jsstring) (now : Z) : bool :=
  match pendingFile with
  | None => false
  | Some content =>
    match parseInt content with
    | Some timestamp => (now - timestamp <? PENDING_TIMEOUT_MS)%Z
    | None => false
    end
  end.

End PendingHook.

(* ===================================================================== *)
(** * The hook script that posts to the bridge *)
(* ===================================================================== *)

Module HookScript.
Import JS Json.

(** How the script ends: [process.exit(code)], or the POST of a body to
    the hook endpoint, after which the script runs to its end. *)
Inductive Outcome : Type :=
| Exit (code : nat)
| Post (body : json).

(** [transcriptPath.replace(/^~/, os.homedir())]: the home directory is
    read as a replacement template. *)
Definition expandPath (homedir transcriptPath : jsstring) : jsstring :=
  match transcriptPath with
  | c :: rest =>
    if (c =? TILDE)%N
    then getSubstitution [TILDE] [] rest [] homedir ++ rest
    else transcriptPath
  | [] => transcriptPath
  end.

Section Script.

(** [JSON.parse], [None] where it throws. *)
Variable JSON_parse : jsstring -> option json.

(** The content of the file at a path, [None] when there is no file. *)
Variable files : jsstring -> option jsstring.

(** [path.basename(p, '.jsonl')] and [os.homedir()]. *)
Variable basename : jsstring -> jsstring.
Variable homedir : jsstring.

(** [sendToBridge]: the body that is posted. *)
Definition bridgeBody (message : jsstring) (cwd : json) (sessionId : jsstring)
    : json :=
  JObj [(js "message", JStr message); (js "cwd", cwd);
        (js "sessionId", JStr sessionId)].

(** [hookInput.cwd || '未知目录'] *)
Definition cwdOf (hookInput : json) : json :=
  match prop hookInput (js "cwd") with
  | Some v => if truthy v then v else JStr (js "未知目录")
  | None => JStr (js "未知目录")
  end.

(** [hookInput.hook_event_name !== 'Stop'] *)
Definition notStop (hookInput : json) : bool :=
  match prop hookInput (js "hook_event_name") with
  | Some (JStr name) => negb (jseqb name (js "Stop"))
  | _ => true
  end.

(** [main], on the text read from the standard input.  An error thrown
    on the way (a property of [null], a method of a value that is no
    string) ends in the handler of [main().catch], which exits with 1. *)
Definition main (inputData : jsstring) : Outcome :=
  match JSON_parse inputData with
  | None => Exit 1
  | Some JNull => Exit 1
  | Some hookInput =>
    if notStop hookInput then Exit 0
    else
      match prop hookInput (js "transcript_path") with
      | Some (JStr transcriptPath) =>
        match transcriptPath with
        | [] => Exit 1
        | _ =>
          let expandedPath := expandPath homedir transcriptPath in
          let cwd := cwdOf hookInput in
          let sessionId := basename transcriptPath in
          match Extractor.extractLastAssistantMessage JSON_parse
                  (files expandedPath) with
          | Some (c :: r) => Post (bridgeBody (c :: r) cwd sessionId)
          | _ => Exit 0
          end
        end
      | Some _ => Exit 1
      | None => Exit 1
      end
  end.

End Script.

End HookScript.

(* ===================================================================== *)
(** * Sample requests *)
(* ===================================================================== *)

Module Requests.
Import JS Json Proc Common Samples.

(** A free text of chat 111, posted to the webhook of the bridge server. *)
Definition hello : Server.Request :=
  Server.mkRequest (js "POST") (Some (js "/")) (Server.Unparseable (js "not JSON"))
                   (Envelope (textFrom 111 (js "hi"))).

End Requests.

(** Literals and printed numbers stay folded during simplification. *)
Arguments JS.js : simpl never.
Arguments JS.slice0 : simpl never.
Arguments JS.String_Z : simpl never.
Arguments JS.String_nat : simpl never.

(* ===================================================================== *)
(** * Facts about strings and replacement *)
(* ===================================================================== *)

Module StringFacts.
Import JS Markup Vocabulary.

Lemma eqb_false_of_neq (a b : char) : a <> b -> (a =? b)%N = false.
Proof. intros H. now apply N.eqb_neq. Qed.

Lemma replaceAllChar_app c r a b :
  replaceAllChar c r (a ++ b) = replaceAllChar c r a ++ replaceAllChar c r b.
Proof. unfold replaceAllChar. apply flat_map_app. Qed.

Lemma escapeHtml_app a b : escapeHtml (a ++ b) = escapeHtml a ++ escapeHtml b.
Proof. unfold escapeHtml. now rewrite !replaceAllChar_app. Qed.

Lemma escapeHtml_one c : escapeHtml [c] = escapeChar c.
Proof.
  unfold escapeChar.
  destruct (N.eqb_spec c AMP) as [->|Hamp]; [reflexivity|].
  destruct (N.eqb_spec c LT) as [->|Hlt]; [reflexivity|].
  destruct (N.eqb_spec c GT) as [->|Hgt]; [reflexivity|].
  unfold escapeHtml, replaceAllChar. simpl.
  rewrite (eqb_false_of_neq Hamp). simpl.
  rewrite (eqb_false_of_neq Hlt). simpl.
  now rewrite (eqb_false_of_neq Hgt).
Qed.

(** [escapeHtml] in one pass. *)
Lemma escapeHtml_flat_map s : escapeHtml s = flat_map escapeChar s.
Proof.
  induction s as [|c s IH]; [reflexivity|].
  change (c :: s) with ([c] ++ s).
  rewrite escapeHtml_app, escapeHtml_one, IH. reflexivity.
Qed.

Lemma escapeChar_length c : 1 <= length (escapeChar c).
Proof.
  unfold escapeChar.
  destruct (c =? AMP)%N; [vm_compute; lia|].
  destruct (c =? LT)%N; [vm_compute; lia|].
  destruct (c =? GT)%N; [vm_compute; lia|simpl; lia].
Qed.

Lemma escapeHtml_length_ge s : length s <= length (escapeHtml s).
Proof.
  rewrite escapeHtml_flat_map.
  induction s as [|c s IH]; simpl; [lia|].
  rewrite length_app. pose proof (escapeChar_length c). lia.
Qed.

Lemma escapeHtml_length_gt s :
  In AMP s -> length s < length (escapeHtml s).
Proof.
  rewrite escapeHtml_flat_map.
  induction s as [|c s IH]; simpl; [tauto|].
  intros [->|Hin]; rewrite length_app.
  - pose proof (escapeHtml_length_ge s) as Hge.
    rewrite escapeHtml_flat_map in Hge.
    change (length (escapeChar AMP)) with 5. lia.
  - pose proof (escapeChar_length c). specialize (IH Hin). lia.
Qed.

Lemma escapeHtml_has_amp s :
  (exists c, In c s /\ isSpecial c = true) -> In AMP (escapeHtml s).
Proof.
  rewrite escapeHtml_flat_map. intros (c & Hin & Hc).
  apply in_flat_map. exists c. split; [exact Hin|].
  unfold isSpecial in Hc. unfold escapeChar.
  destruct (c =? AMP)%N; [now left|].
  destruct (c =? LT)%N; [now left|].
  destruct (c =? GT)%N; [now left|discriminate].
Qed.

(** Escaping a text that has a special character changes it, whatever
    was escaped before. *)
Lemma escapeHtml_twice_differs s :
  (exists c, In c s /\ isSpecial c = true) ->
  escapeHtml (escapeHtml s) <> escapeHtml s.
Proof.
  intros H Heq. apply escapeHtml_has_amp in H.
  apply escapeHtml_length_gt in H. rewrite Heq in H. lia.
Qed.

Lemma escapeHtml_Forall (P : char -> Prop) s :
  P AMP -> P 97%N -> P 109%N -> P 112%N -> P 59%N ->
  P 108%N -> P 116%N -> P 103%N ->
  Forall P s -> Forall P (escapeHtml s).
Proof.
  intros Pamp Pa Pm Pp Psemi Pl Pt Pg Hs.
  rewrite escapeHtml_flat_map.
  induction Hs as [|c s Hc Hs IH]; simpl; [constructor|].
  apply Forall_app. split; [|exact IH].
  unfold escapeChar.
  destruct (c =? AMP)%N; [repeat constructor; assumption|].
  destruct (c =? LT)%N; [repeat constructor; assumption|].
  destruct (c =? GT)%N; repeat constructor; assumption.
Qed.

(** The output of [escapeHtml] has no raw angle bracket. *)
Lemma escapeHtml_no_angle s :
  Forall (fun c => c <> LT /\ c <> GT) (escapeHtml s).
Proof.
  rewrite escapeHtml_flat_map.
  induction s as [|c s IH]; simpl; [constructor|].
  apply Forall_app. split; [|exact IH].
  unfold escapeChar.
  destruct (N.eqb_spec c AMP); [repeat constructor; discriminate|].
  destruct (N.eqb_spec c LT); [repeat constructor; discriminate|].
  destruct (N.eqb_spec c GT); [repeat constructor; discriminate|].
  repeat constructor; assumption.
Qed.

(** A global replacement whose pattern matches nowhere returns its
    subject. *)
Lemma replaceRegex_no_match (A : Type) (m : matcher)
    (f : A -> jsstring -> jsstring -> jsstring -> list jsstring -> jsstring * A)
    (P : char -> Prop) :
  (forall c s, P c -> m (c :: s) = None) ->
  forall s, Forall P s ->
  forall before a, replaceRegex m f before s 0 a = (s, a).
Proof.
  intros Hm s Hs. induction Hs as [|c s Hc Hs IH]; intros before a.
  - reflexivity.
  - simpl. rewrite (Hm c s Hc), IH. reflexivity.
Qed.

Lemma replaceTemplate_no_match (m : matcher) (P : char -> Prop) template :
  (forall c s, P c -> m (c :: s) = None) ->
  forall s, Forall P s -> replaceTemplate m template s = s.
Proof.
  intros Hm s Hs. unfold replaceTemplate.
  rewrite replaceRegex_no_match with (P := P); auto.
Qed.

Lemma matchFence_first c s : c <> BACKTICK -> matchFence (c :: s) = None.
Proof.
  intros H. unfold matchFence, FENCE.
  change (js "```") with [BACKTICK; BACKTICK; BACKTICK].
  simpl startsWith. now rewrite (eqb_false_of_neq H).
Qed.

Lemma matchInline_first c s : c <> BACKTICK -> matchInline (c :: s) = None.
Proof. intros H. unfold matchInline. now rewrite (eqb_false_of_neq H). Qed.

Lemma matchPair_first d delim c s :
  c <> d -> matchPair (d :: delim) (c :: s) = None.
Proof.
  intros H. unfold matchPair. simpl startsWith.
  now rewrite (eqb_false_of_neq H).
Qed.

End StringFacts.

(* ===================================================================== *)
(** * The Markup Converter: properties *)
(* ===================================================================== *)

Module MarkupFacts.
Import JS Markup Vocabulary StringFacts.

Lemma markdownChar_split c :
  isMarkdownChar c = false ->
  c <> BACKTICK /\ c <> STAR /\ c <> UNDERSCORE /\ c <> TILDE.
Proof.
  unfold isMarkdownChar. intros H.
  repeat (apply orb_false_iff in H; destruct H as [H ?]).
  repeat split; now apply N.eqb_neq.
Qed.

Lemma plainText_app a b : plainText a -> plainText b -> plainText (a ++ b).
Proof. intros Ha Hb. apply Forall_app. now split. Qed.

Lemma plainText_escapeHtml s : plainText s -> plainText (escapeHtml s).
Proof. intros H. apply escapeHtml_Forall; auto. Qed.

Lemma emphasis_plain s : plainText s -> emphasis s = s.
Proof.
  intros H. unfold emphasis.
  change (js "**") with [STAR; STAR]. change (js "*") with [STAR].
  change (js "__") with [UNDERSCORE; UNDERSCORE].
  change (js "~~") with [TILDE; TILDE].
  assert (Hs : Forall (fun c => c <> STAR) s)
    by (eapply Forall_impl; [|exact H]; intros c Hc; now apply markdownChar_split in Hc).
  assert (Hu : Forall (fun c => c <> UNDERSCORE) s)
    by (eapply Forall_impl; [|exact H]; intros c Hc; now apply markdownChar_split in Hc).
  assert (Ht : Forall (fun c => c <> TILDE) s)
    by (eapply Forall_impl; [|exact H]; intros c Hc; now apply markdownChar_split in Hc).
  rewrite (@replaceTemplate_no_match _ (fun c => c <> STAR) _
             (fun c s => @matchPair_first STAR [STAR] c s) s Hs).
  rewrite (@replaceTemplate_no_match _ (fun c => c <> STAR) _
             (fun c s => @matchPair_first STAR [] c s) s Hs).
  rewrite (@replaceTemplate_no_match _ (fun c => c <> UNDERSCORE) _
             (fun c s => @matchPair_first UNDERSCORE [UNDERSCORE] c s) s Hu).
  apply (@replaceTemplate_no_match _ (fun c => c <> TILDE) _
             (fun c s => @matchPair_first TILDE [TILDE] c s) s Ht).
Qed.

(** On a text without code and emphasis delimiters the converter is
    [escapeHtml], whatever the placeholders. *)
Lemma convert_plain pb pi kb ki text :
  plainText text -> convert pb pi kb ki text = escapeHtml text.
Proof.
  intros H. unfold convert, extractCodeBlocks, extractInlineCodes.
  assert (Hb : Forall (fun c => c <> BACKTICK) text)
    by (eapply Forall_impl; [|exact H]; intros c Hc; now apply markdownChar_split in Hc).
  rewrite replaceRegex_no_match with (P := fun c => c <> BACKTICK);
    [|exact matchFence_first|exact Hb].
  rewrite replaceRegex_no_match with (P := fun c => c <> BACKTICK);
    [|exact matchInline_first|exact Hb].
  cbn [restore]. apply emphasis_plain, plainText_escapeHtml, H.
Qed.

(** C2 (amended): the converter is not idempotent on entity references.
    On every text without code spans and emphasis delimiters, both
    converters return [escapeHtml] of the text; an entity reference
    [&lt;] in the input comes out as [&amp;lt;]; and converting the
    output again changes it as soon as the text has one of [&], [<],
    [>]. *)
Theorem converter_escapes_entities_again :
  forall text : jsstring,
    plainText text ->
    ServerMarkup.markdownToTelegramHtml text = escapeHtml text
    /\ HookMarkup.markdownToTelegramHtml text = escapeHtml text
    /\ (forall rest, plainText rest ->
        ServerMarkup.markdownToTelegramHtml (text ++ js "&lt;" ++ rest)
        = ServerMarkup.markdownToTelegramHtml text ++ js "&amp;lt;"
            ++ ServerMarkup.markdownToTelegramHtml rest)
    /\ ((exists c, In c text /\ isSpecial c = true) ->
        ServerMarkup.markdownToTelegramHtml
          (ServerMarkup.markdownToTelegramHtml text)
        <> ServerMarkup.markdownToTelegramHtml text).
Proof.
  intros text H.
  unfold ServerMarkup.markdownToTelegramHtml, HookMarkup.markdownToTelegramHtml.
  split; [|split; [|split]].
  - now apply convert_plain.
  - now apply convert_plain.
  - intros rest Hrest.
    assert (Hent : plainText (js "&lt;")) by (repeat constructor).
    rewrite !convert_plain; auto using plainText_app.
    rewrite !escapeHtml_app. reflexivity.
  - intros Hsp.
    rewrite (convert_plain _ _ _ _ H).
    rewrite (convert_plain _ _ _ _ (plainText_escapeHtml H)).
    now apply escapeHtml_twice_differs.
Qed.

Lemma converter_escapes_entities_again_witness :
  plainText (js "a < b")
  /\ ServerMarkup.markdownToTelegramHtml
       (ServerMarkup.markdownToTelegramHtml (js "a < b"))
     <> ServerMarkup.markdownToTelegramHtml (js "a < b").
Proof.
  assert (H : plainText (js "a < b")) by (repeat constructor).
  split; [exact H|].
  apply (converter_escapes_entities_again H).
  exists LT. split; [vm_compute; tauto|reflexivity].
Defined.

(** C2 (as stated) fails: the input [&lt;] is returned as [&amp;lt;] by
    both converters, and converting the output of [<] again changes it. *)
Lemma entity_is_escaped_again :
  ServerMarkup.markdownToTelegramHtml (js "&lt;") = js "&amp;lt;"
  /\ HookMarkup.markdownToTelegramHtml (js "&lt;") = js "&amp;lt;"
  /\ ServerMarkup.markdownToTelegramHtml (js "&lt;") <> js "&lt;"
  /\ ServerMarkup.markdownToTelegramHtml
       (ServerMarkup.markdownToTelegramHtml (js "<"))
     <> ServerMarkup.markdownToTelegramHtml (js "<").
Proof.
  repeat split; try (vm_compute; reflexivity);
    intros H; vm_compute in H; discriminate H.
Qed.

(** C6: a text the user typed is taken for a placeholder.  The message
    [<<<CODEBLOCK0>>>], a space and a fenced block with the code [x]:
    the typed text is replaced by the block, and the placeholder of the
    block stays in the output.  And the restored fragment is not the
    protected one when the code has a dollar sign followed by a dollar
    sign: the inline code [a $$ b] comes back as [a $ b]. *)
Theorem placeholder_collides_with_user_text :
  ServerMarkup.markdownToTelegramHtml
    (js "<<<CODEBLOCK0>>> " ++ FENCE ++ [LF] ++ js "x" ++ [LF] ++ FENCE)
  = js "<pre><code>x</code></pre> &lt;&lt;&lt;CODEBLOCK0&gt;&gt;&gt;"
  /\ ServerMarkup.markdownToTelegramHtml (js "`a $$ b`")
     = js "<code>a $ b</code>".
Proof. split; vm_compute; reflexivity. Qed.

(** C7: a fenced block with a markup-special character is not rendered
    with exactly that character escaped.  The block with the code [$<]
    (the first prerequisite in a Makefile) should come out as
    [<pre><code>$&lt;</code></pre>]; the restoring [replace] reads [$&] in
    the escaped code as a reference to the matched placeholder. *)
Theorem fenced_code_with_dollar_is_mangled :
  ServerMarkup.markdownToTelegramHtml
    (FENCE ++ [LF] ++ js "$<" ++ [LF] ++ FENCE)
  = js "<pre><code>&lt;&lt;&lt;CODEBLOCK0&gt;&gt;&gt;lt;</code></pre>"
  /\ ServerMarkup.markdownToTelegramHtml
       (FENCE ++ [LF] ++ js "$<" ++ [LF] ++ FENCE)
     <> js "<pre><code>$&lt;</code></pre>".
Proof.
  split; [vm_compute; reflexivity|].
  intros H; vm_compute in H; discriminate H.
Qed.

(** Outside code the converter leaves no raw angle bracket of the input:
    what reaches the emphasis step has none. *)
Lemma escaped_text_has_no_angle_bracket (s : jsstring) :
  Forall (fun c => c <> LT /\ c <> GT) (escapeHtml s).
Proof. apply escapeHtml_no_angle. Qed.

(** A fenced block whose code has no dollar sign, here with all three
    special characters and emphasis delimiters, is rendered escaped and
    without emphasis. *)
Example fenced_code_is_protected :
  ServerMarkup.markdownToTelegramHtml
    (js "see " ++ FENCE ++ js "js" ++ [LF] ++ js "if (a<b && c>d) **x**;"
       ++ [LF] ++ FENCE)
  = js "see <pre><code>if (a&lt;b &amp;&amp; c&gt;d) **x**;</code></pre>".
Proof. vm_compute. reflexivity. Qed.

End MarkupFacts.

(* ===================================================================== *)
(** * Printed numbers *)
(* ===================================================================== *)

Module NumberFacts.
Import JS.

Lemma uint_digits_are_digits u : Forall (fun c => isDigit c = true) (uint_digits u).
Proof. induction u; cbn [uint_digits]; constructor; auto. Qed.

Lemma digit_not_space c : isDigit c = true -> isWhiteSpace c = false.
Proof.
  unfold isDigit, isWhiteSpace. intros H.
  apply andb_true_iff in H. destruct H as [H1 H2].
  apply N.leb_le in H1. apply N.leb_le in H2.
  repeat match goal with
  | |- context [(?a <=? ?b)%N] =>
    destruct (N.leb_spec a b); try lia
  | |- context [(?a =? ?b)%N] =>
    destruct (N.eqb_spec a b); try lia
  end; reflexivity.
Qed.

Lemma uint_digits_nonempty p : uint_digits (Pos.to_uint p) <> [].
Proof.
  pose proof (DecimalPos.Unsigned.to_uint_nonnil p) as H.
  destruct (Pos.to_uint p); [congruence|discriminate..].
Qed.

Lemma String_Z_nonempty z : String_Z z <> [].
Proof.
  destruct z; unfold String_Z; [discriminate|apply uint_digits_nonempty|discriminate].
Qed.

Lemma String_Z_no_space z : Forall (fun c => isWhiteSpace c = false) (String_Z z).
Proof.
  assert (H : forall u, Forall (fun c => isWhiteSpace c = false) (uint_digits u)).
  { intros u. eapply Forall_impl; [|apply uint_digits_are_digits].
    intros c. apply digit_not_space. }
  destruct z; unfold String_Z; [repeat constructor|apply H|].
  constructor; [reflexivity|apply H].
Qed.

Lemma trimStart_no_space s :
  Forall (fun c => isWhiteSpace c = false) s -> trimStart s = s.
Proof. intros H. destruct H as [|c s Hc Hs]; [reflexivity|]. cbn. now rewrite Hc. Qed.

(** [trim] leaves a text without white space as it is. *)
Lemma trim_no_space s : Forall (fun c => isWhiteSpace c = false) s -> trim s = s.
Proof.
  intros H. unfold trim, trimEnd. rewrite (trimStart_no_space H).
  rewrite trimStart_no_space; [apply rev_involutive|].
  apply Forall_rev. exact H.
Qed.

Lemma trim_String_Z z : trim (String_Z z) = String_Z z.
Proof. apply trim_no_space, String_Z_no_space. Qed.

End NumberFacts.

(* ===================================================================== *)
(** * The Pane Registry and the Terminal Dispatcher: properties *)
(* ===================================================================== *)

Module ProcFacts.
Import JS Json Proc Common Vocabulary.

Lemma skipn_length_app (A : Type) (l r : list A) : skipn (length l) (l ++ r) = r.
Proof. induction l as [|x l IH]; [reflexivity|exact IH]. Qed.

(** The events of a run, from the trace it leaves. *)
Lemma emitted_of_trace (A : Type) (m : M A) st evs :
  trace (exec m st) = trace st ++ evs -> emitted m st = evs.
Proof. unfold emitted. intros ->. apply skipn_length_app. Qed.

(** Unfolding of the monad and of the primitive operations. *)
Ltac unfold_proc :=
  cbv beta delta
    [value exec run stopTypingLoop startTypingLoop sendMessage telegramApi
     getWeztermPanes execSync saveSelectedPaneId clearSelectedPaneId
     paneExists envFallback saveChatId writeFile unlinkIfExists pop emit
     modify gets tryCatch throw bind ret] in *.

(** Case analysis on whatever a [match] of the goal inspects. *)
Ltac break_match :=
  match goal with
  | |- context [match ?x with _ => _ end] =>
    lazymatch x with
    | context [match _ with _ => _ end] => fail
    | _ => destruct x eqn:?
    end
  end.

(** C4: a selected pane that the fresh listing no longer has is
    forgotten.  When a pane id is selected (the variable is read from the
    pane-id file at start-up and written together with it), the next pane
    listing does not contain it and no pane id is set in the environment,
    [findClaudePaneId] returns [null], and afterwards neither the variable
    nor the pane-id file holds a selection. *)
Theorem findClaudePaneId_clears_stale_selection :
  forall (st : State) (paneId : jsstring),
    selectedPaneId st = Some paneId ->
    listed (nextListing st) paneId = false ->
    envPaneId st = None ->
    value findClaudePaneId st = Ok None
    /\ selectedPaneId (exec findClaudePaneId st) = None
    /\ paneIdFile (exec findClaudePaneId st) = None.
Proof.
  intros st paneId Hsel Habsent Henv.
  destruct st as [mu sel ti cf pf pe env ls ex ap nw tr].
  unfold nextListing in Habsent. cbn in Hsel, Henv. subst sel env.
  unfold findClaudePaneId. unfold_proc.
  destruct ls as [|l ls]; cbn [hd listings] in Habsent; cbn;
    [|rewrite Habsent]; destruct pf; cbn; auto.
Qed.

(** The same for a process that starts with a persisted selection. *)
Lemma persisted_stale_selection_is_cleared st content :
  paneIdFile st = Some content ->
  listed (nextListing st) (trim content) = false ->
  envPaneId st = None ->
  value findClaudePaneId (exec loadSavedPaneId st) = Ok None
  /\ selectedPaneId (exec findClaudePaneId (exec loadSavedPaneId st)) = None
  /\ paneIdFile (exec findClaudePaneId (exec loadSavedPaneId st)) = None.
Proof.
  intros Hfile Habsent Henv.
  destruct st as [mu sel ti cf pf pe env ls ex ap nw tr].
  unfold nextListing in Habsent. cbn in Hfile, Henv. subst pf env.
  unfold findClaudePaneId, loadSavedPaneId. unfold_proc.
  destruct ls as [|l ls]; cbn [hd listings] in Habsent; cbn;
    [|rewrite Habsent]; cbn; auto.
Qed.

End ProcFacts.

Module SetpaneFacts.
Import JS Json Proc Common Vocabulary ProcFacts.

Lemma Server_setpane_case chatId args :
  Server.handleCommand chatId (js "/setpane") args
  = (saveChatId chatId ;; setpane chatId args).
Proof. reflexivity. Qed.




(** [/setpane] with an id of the listing selects and persists it. *)
Lemma setpane_known_id_is_persisted st chatId args :
  trim args <> [] ->
  listed (nextListing st) (trim args) = true ->
  selectedPaneId (exec (Server.handleCommand chatId (js "/setpane") args) st)
  = Some (trim args)
  /\ paneIdFile (exec (Server.handleCommand chatId (js "/setpane") args) st)
     = Some (trim args).
Proof.
  intros Hne Hpresent. rewrite Server_setpane_case.
  destruct st as [mu sel ti cf pf pe env ls ex ap nw tr].
  unfold nextListing in Hpresent. unfold setpane. unfold_proc.
  destruct (trim args) as [|c paneId] eqn:Hargs; [congruence|].
  destruct ls as [|l ls]; cbn [hd listings] in Hpresent; cbn;
    [discriminate|rewrite Hpresent; cbn]; destruct ap; cbn; auto.
Qed.

End SetpaneFacts.

(* ===================================================================== *)
(** * The Terminal Dispatcher: quoting *)
(* ===================================================================== *)

Module DispatchFacts.
Import JS Json Proc Common Vocabulary ProcFacts.

Lemma escapeQuotes_spec text : escapeQuotes text = spec_doubleQuotes text.
Proof.
  unfold escapeQuotes, replaceAllChar.
  induction text as [|c text IH]; [reflexivity|].
  cbn [flat_map spec_doubleQuotes]. rewrite IH.
  destruct (c =? DQUOTE)%N; reflexivity.
Qed.

Lemma escapeQuotes_others text :
  filter (fun x => negb (x =? DQUOTE)%N) (escapeQuotes text)
  = filter (fun x => negb (x =? DQUOTE)%N) text.
Proof.
  rewrite escapeQuotes_spec.
  induction text as [|c text IH]; [reflexivity|].
  cbn [spec_doubleQuotes filter].
  destruct (c =? DQUOTE)%N eqn:Hc; cbn [filter negb].
  - change (DQUOTE =? DQUOTE)%N with true. cbn. exact IH.
  - rewrite Hc. cbn. now rewrite IH.
Qed.

Lemma escapeQuotes_quotes text :
  occurrences DQUOTE (escapeQuotes text) = 2 * occurrences DQUOTE text.
Proof.
  rewrite escapeQuotes_spec. unfold occurrences.
  induction text as [|c text IH]; [reflexivity|].
  cbn [spec_doubleQuotes filter].
  destruct (c =? DQUOTE)%N eqn:Hc; cbn [filter].
  - change (DQUOTE =? DQUOTE)%N with true. cbn [length]. lia.
  - rewrite Hc. exact IH.
Qed.

Lemma escapeQuotes_other_count c text :
  c <> DQUOTE ->
  occurrences c (escapeQuotes text) = occurrences c text.
Proof.
  intros Hc. rewrite escapeQuotes_spec. unfold occurrences.
  induction text as [|x text IH]; [reflexivity|].
  cbn [spec_doubleQuotes filter].
  destruct (N.eqb_spec x DQUOTE) as [->|Hx]; cbn [filter].
  - destruct (N.eqb_spec DQUOTE c) as [E|_]; [congruence|exact IH].
  - destruct (x =? c)%N; cbn [length]; now rewrite IH.
Qed.

(** The text command is the first thing a dispatch runs. *)
Lemma sendTextThenReturn_runs_command paneId text st :
  exists rest,
    trace (exec (sendTextThenReturn paneId text) st)
    = trace st ++ Exec (sendTextCommand paneId text) :: rest.
Proof.
  destruct st as [mu sel ti cf pf pe env ls ex ap nw tr].
  unfold sendTextThenReturn. unfold_proc. cbn.
  destruct ex as [|[e|] ex]; cbn.
  - eexists. rewrite <- app_assoc. reflexivity.
  - eexists. reflexivity.
  - destruct ex as [|[e|] ex]; cbn; eexists; rewrite <- app_assoc; reflexivity.
Qed.

Lemma spec_doubleQuotes_others text :
  filter (fun x => negb (x =? DQUOTE)%N) (spec_doubleQuotes text)
  = filter (fun x => negb (x =? DQUOTE)%N) text.
Proof. rewrite <- escapeQuotes_spec. apply escapeQuotes_others. Qed.

(** A pane id that a listing has is not the empty text. *)
Lemma listed_pane_is_named panes paneId :
  listed panes paneId = true -> exists c r, paneId = c :: r.
Proof.
  intros H. destruct paneId as [|c r]; [|now exists c, r].
  unfold listed in H. apply existsb_exists in H.
  destruct H as (p & _ & Hp).
  pose proof (NumberFacts.String_Z_nonempty (pane_id p)) as Hne.
  destruct (String_Z (pane_id p)); [congruence|discriminate Hp].
Qed.

(** C10: the quoting step of the dispatcher only doubles double quotes.
    Whenever the selected pane is in the pane listings a dispatch
    fetches, the dispatcher of either bridge lists the panes (twice in
    the bridge server, once in the first bridge) and then hands the shell
    the command line [wezterm cli send-text --pane-id], the pane id,
    [--no-paste] and, between two double quotes, the payload with every
    double quote written twice.  Every other character of the payload is
    in that command line unchanged, in order and in number (backticks,
    dollar signs, backslashes and newlines included). *)
Theorem quoting_only_doubles_double_quotes :
  forall (st : State) (text paneId : jsstring) (panes1 panes2 : list Pane)
         (later : list (list Pane)),
    selectedPaneId st = Some paneId ->
    listings st = panes1 :: panes2 :: later ->
    listed panes1 paneId = true ->
    listed panes2 paneId = true ->
    let listing := Exec (js "wezterm cli list --format json") in
    let command :=
      Exec (js "wezterm cli send-text --pane-id " ++ paneId
              ++ js " --no-paste "
              ++ [DQUOTE] ++ spec_doubleQuotes text ++ [DQUOTE]) in
    (exists rest,
        emitted (Server.weztermSendText text) st
        = listing :: listing :: command :: rest)
    /\ (exists rest,
           emitted (Bridge.weztermSendText text) st
           = listing :: command :: rest)
    /\ filter (fun x => negb (x =? DQUOTE)%N) (spec_doubleQuotes text)
       = filter (fun x => negb (x =? DQUOTE)%N) text
    /\ occurrences DQUOTE (spec_doubleQuotes text)
       = 2 * occurrences DQUOTE text
    /\ (forall c, c <> DQUOTE ->
        occurrences c (spec_doubleQuotes text) = occurrences c text).
Proof.
  intros st text paneId panes1 panes2 later Hsel Hls H1 H2 listing command.
  subst listing command.
  split; [|split; [|split; [|split]]].
  - destruct (listed_pane_is_named _ _ H1) as (c & r & ->).
    destruct st as [mu sel ti cf pf pe env ls ex ap nw tr].
    cbn in Hsel, Hls. subst sel ls.
    destruct panes1 as [|p1 ps1]; [discriminate H1|].
    unfold Server.weztermSendText, findClaudePaneId, sendTextThenReturn,
      sendTextCommand, quote.
    rewrite escapeQuotes_spec.
    destruct ex as [|[e1|] [|[e2|] ex]];
      eexists; apply emitted_of_trace; unfold_proc;
      cbn [fst snd trace listings selectedPaneId set_trace set_listings
           isMuted typingInterval chatIdFile paneIdFile pendingFile
           envPaneId execResults apiResults now set_execResults];
      rewrite H2; cbn [negb]; rewrite H1;
      cbn [negb fst snd trace listings selectedPaneId set_trace set_listings
           isMuted typingInterval chatIdFile paneIdFile pendingFile
           envPaneId execResults apiResults now set_execResults];
      rewrite <- !app_assoc; reflexivity.
  - destruct (listed_pane_is_named _ _ H1) as (c & r & ->).
    destruct st as [mu sel ti cf pf pe env ls ex ap nw tr].
    cbn in Hsel, Hls. subst sel ls.
    unfold Bridge.weztermSendText, findClaudePaneId, sendTextThenReturn,
      sendTextCommand, quote.
    rewrite escapeQuotes_spec.
    destruct ex as [|[e1|] [|[e2|] ex]];
      eexists; apply emitted_of_trace; unfold_proc;
      cbn [fst snd trace listings selectedPaneId set_trace set_listings
           isMuted typingInterval chatIdFile paneIdFile pendingFile
           envPaneId execResults apiResults now set_execResults];
      rewrite H1;
      cbn [negb fst snd trace listings selectedPaneId set_trace set_listings
           isMuted typingInterval chatIdFile paneIdFile pendingFile
           envPaneId execResults apiResults now set_execResults];
      rewrite <- !app_assoc; reflexivity.
  - apply spec_doubleQuotes_others.
  - rewrite <- escapeQuotes_spec. apply escapeQuotes_quotes.
  - intros c Hc. rewrite <- escapeQuotes_spec.
    now apply escapeQuotes_other_count.
Qed.

(** A payload with shell-significant characters reaches the command line
    as it is. *)
Example shell_characters_pass_through :
  sendTextCommand (js "3") (js "echo `id` $HOME \ | x")
  = js "wezterm cli send-text --pane-id 3 --no-paste " ++ [DQUOTE]
      ++ js "echo `id` $HOME \ | x" ++ [DQUOTE].
Proof. vm_compute. reflexivity. Qed.

(** In the first bridge a dispatch with a resolved pane runs the text
    command for that pane. *)
Lemma Bridge_weztermSendText_runs_command st text paneId :
  value findClaudePaneId st = Ok (Some paneId) -> paneId <> [] ->
  exists rest,
    trace (exec (Bridge.weztermSendText text) st)
    = trace (exec findClaudePaneId st)
        ++ Exec (sendTextCommand paneId text) :: rest.
Proof.
  intros Hfind Hne. unfold Bridge.weztermSendText.
  unfold value, exec, bind in *.
  destruct (findClaudePaneId st) as [r st1]. cbn in *. subst r.
  destruct paneId as [|c p]; [congruence|].
  apply sendTextThenReturn_runs_command.
Qed.

(** In the bridge server a dispatch runs the text command once the fresh
    listing is not empty and holds the resolved pane. *)
Lemma Server_weztermSendText_runs_command st text paneId :
  nextListing st <> [] ->
  value findClaudePaneId (exec getWeztermPanes st) = Ok (Some paneId) ->
  paneId <> [] ->
  listed (nextListing st) paneId = true ->
  exists rest,
    trace (exec (Server.weztermSendText text) st)
    = trace (exec findClaudePaneId (exec getWeztermPanes st))
        ++ Exec (sendTextCommand paneId text) :: rest.
Proof.
  intros Hne Hfind Hid Hlisted. unfold Server.weztermSendText.
  unfold nextListing in *.
  assert (Hpanes : getWeztermPanes st
                   = (Ok (hd [] (listings st)), exec getWeztermPanes st)).
  { destruct st as [mu sel ti cf pf pe env ls ex ap nw tr].
    unfold_proc. cbn. destruct ls; reflexivity. }
  unfold value, exec, bind in *. rewrite Hpanes. cbn [snd fst] in *.
  destruct (hd [] (listings st)) as [|p0 ps] eqn:Hl; [congruence|].
  destruct (findClaudePaneId (snd (getWeztermPanes st))) as [r st1].
  cbn in Hfind. subst r.
  destruct paneId as [|c p]; [congruence|].
  rewrite Hlisted. cbn [negb].
  apply sendTextThenReturn_runs_command.
Qed.

End DispatchFacts.

(* ===================================================================== *)
(** * Authorization *)
(* ===================================================================== *)

Module AuthorizationFacts.
Import JS Json Proc Common Vocabulary ProcFacts.

Lemma jseqb_eq a b : jseqb a b = true <-> a = b.
Proof.
  revert b. induction a as [|x a IH]; intros [|y b]; cbn;
    try (split; [discriminate|congruence]); [tauto|].
  rewrite andb_true_iff, N.eqb_eq, IH. split.
  - intros [-> ->]. reflexivity.
  - intros H. injection H. auto.
Qed.

(** The allow-list test is membership of the printed chat id; the empty
    list has no member. *)
Lemma isAuthorized_iff allowed chatId :
  Server.isAuthorized allowed chatId = true <-> In (String_Z chatId) allowed.
Proof.
  unfold Server.isAuthorized. destruct allowed as [|a l]; [cbn; intuition discriminate|].
  rewrite existsb_exists. split.
  - intros (x & Hin & Heq). apply jseqb_eq in Heq. now subst.
  - intros Hin. exists (String_Z chatId). split; [exact Hin|now apply jseqb_eq].
Qed.

Lemma isAuthorized_false allowed chatId :
  ~ In (String_Z chatId) allowed -> Server.isAuthorized allowed chatId = false.
Proof.
  intros H. destruct (Server.isAuthorized allowed chatId) eqn:E; [|reflexivity].
  now apply isAuthorized_iff in E.
Qed.

Lemma isAuthorized_empty chatId : Server.isAuthorized [] chatId = false.
Proof. reflexivity. Qed.

(** A chat id of at most 64 characters leaves the notice well below the
    message limit. *)
Lemma notice_not_truncated chatId :
  length (String_Z chatId) <= 64 ->
  slice0 MAX_MESSAGE_LENGTH (Server.unauthorizedNotice chatId)
  = Server.unauthorizedNotice chatId.
Proof.
  intros H. unfold slice0. apply firstn_all2.
  unfold Server.unauthorizedNotice. rewrite !length_app.
  change (length (js "⛔ 未授权")) with 5.
  change (length (js "您的 Chat ID: <code>")) with 18.
  change (length (js "</code>")) with 7.
  change (length (js "请联系管理员将您的 Chat ID 添加到白名单。")) with 25.
  change (length nl) with 1. unfold MAX_MESSAGE_LENGTH. lia.
Qed.

(** C1 (amended): an event of a chat outside the allow-list changes
    nothing.  For a message of such a chat (every chat when the list is
    empty) the handler sends the notice with the chat id of the sender and
    answers 200; for a callback query of such a chat it answers the query
    with the fixed alert, which does not name the chat id, and answers
    200.  In both cases these two events are all it does: the mute flag,
    the selection, the typing timer and the three state files are what
    they were, and no command is run. *)
Theorem unauthorized_event_changes_nothing :
  forall (toLowerCase : jsstring -> jsstring) (allowed : list jsstring)
         (st : State) (u : Update),
    (forall m,
        message u = Some m ->
        ~ In (String_Z (msg_chat_id m)) allowed ->
        sameSession
          (exec (Server.handleTelegramWebhook toLowerCase allowed (Envelope u))
                st) st
        /\ emitted (Server.handleTelegramWebhook toLowerCase allowed
                      (Envelope u)) st
           = [Api (SendMessage (chatJson (msg_chat_id m))
                     (slice0 MAX_MESSAGE_LENGTH
                        (Server.unauthorizedNotice (msg_chat_id m)))
                     (Some (js "HTML")));
              Respond 200 (Text (js "OK"))]
        /\ (length (String_Z (msg_chat_id m)) <= 64 ->
            slice0 MAX_MESSAGE_LENGTH (Server.unauthorizedNotice (msg_chat_id m))
            = js "⛔ 未授权" ++ nl ++ nl ++ js "您的 Chat ID: <code>"
                ++ String_Z (msg_chat_id m) ++ js "</code>" ++ nl ++ nl
                ++ js "请联系管理员将您的 Chat ID 添加到白名单。"))
    /\ (forall q,
           message u = None ->
           callback_query u = Some q ->
           ~ In (String_Z (cb_chat_id q)) allowed ->
           sameSession
             (exec (Server.handleTelegramWebhook toLowerCase allowed
                      (Envelope u)) st) st
           /\ emitted (Server.handleTelegramWebhook toLowerCase allowed
                         (Envelope u)) st
              = [Api (AnswerCallbackQuery (cb_id q) (Some (js "未授权")) true);
                 Respond 200 (Text (js "OK"))]).
Proof.
  intros toLowerCase allowed st u. split.
  - intros m Hm Hout. apply isAuthorized_false in Hout.
    split; [|split].
    + unfold Server.handleTelegramWebhook, Server.handleUpdate.
      rewrite Hm, Hout. cbn [negb].
      destruct st as [mu sel ti cf pf pe env ls ex ap nw tr].
      unfold Server.respondOK. unfold_proc.
      destruct ap; cbn; repeat split.
    + apply emitted_of_trace.
      unfold Server.handleTelegramWebhook, Server.handleUpdate.
      rewrite Hm, Hout. cbn [negb].
      destruct st as [mu sel ti cf pf pe env ls ex ap nw tr].
      unfold Server.respondOK. unfold_proc.
      destruct ap; cbn; now rewrite <- app_assoc.
    + intros Hlen. now apply notice_not_truncated.
  - intros q Hm Hq Hout. apply isAuthorized_false in Hout.
    split.
    + unfold Server.handleTelegramWebhook, Server.handleUpdate,
        Server.handleCallbackQuery.
      rewrite Hm, Hq, Hout. cbn [negb].
      destruct st as [mu sel ti cf pf pe env ls ex ap nw tr].
      unfold Server.respondOK. unfold_proc.
      destruct ap; cbn; repeat split.
    + apply emitted_of_trace.
      unfold Server.handleTelegramWebhook, Server.handleUpdate,
        Server.handleCallbackQuery.
      rewrite Hm, Hq, Hout. cbn [negb].
      destruct st as [mu sel ti cf pf pe env ls ex ap nw tr].
      unfold Server.respondOK. unfold_proc.
      destruct ap; cbn; now rewrite <- app_assoc.
Qed.

End AuthorizationFacts.

Module AuthorizationExamples.
Import JS Json Proc Common Vocabulary Phases ProcFacts Samples AuthorizationFacts.

Lemma unauthorized_event_changes_nothing_witness :
  message (textFrom 5 (js "hello")) = Some (mkMessage 5 (Some (js "hello")))
  /\ ~ In (String_Z 5) [js "111"]
  /\ emitted (Server.handleTelegramWebhook lowerASCII [js "111"]
                (Envelope (textFrom 5 (js "hello")))) pane3Selected
     = [Api (SendMessage (chatJson 5)
               (slice0 MAX_MESSAGE_LENGTH (Server.unauthorizedNotice 5))
               (Some (js "HTML")));
        Respond 200 (Text (js "OK"))].
Proof.
  assert (Hout : ~ In (String_Z 5) [js "111"])
    by (vm_compute; intros [H|[]]; discriminate H).
  split; [reflexivity|]. split; [exact Hout|].
  apply (proj1 (unauthorized_event_changes_nothing lowerASCII [js "111"]
                  pane3Selected
                  (textFrom 5 (js "hello")))
           (mkMessage 5 (Some (js "hello"))) eq_refl Hout).
Defined.

(** C1 (as stated) fails on callback queries: the query of a chat outside
    the allow-list is answered with the alert alone; no message is sent,
    and the alert does not contain the chat id. *)
Lemma callback_rejection_does_not_name_the_chat :
  emitted (Server.handleTelegramWebhook lowerASCII [js "111"]
             (Envelope (callbackFrom 5 (js "resume:abc")))) idle
  = [Api (AnswerCallbackQuery (js "q1") (Some (js "未授权")) true);
     Respond 200 (Text (js "OK"))]
  /\ existsb isSendMessage
       (emitted (Server.handleTelegramWebhook lowerASCII [js "111"]
                   (Envelope (callbackFrom 5 (js "resume:abc")))) idle)
     = false
  /\ includes (js "未授权") (String_Z 5) = false.
Proof. repeat split; vm_compute; reflexivity. Qed.

End AuthorizationExamples.

(* ===================================================================== *)
(** * The hook endpoint *)
(* ===================================================================== *)

Module HookFacts.
Import JS Json Proc Common Vocabulary Phases ProcFacts Samples.

(** C9 (amended): a muted completion callback is accepted and not
    delivered.  For every POST to [/hook] whose body parses to a JSON
    value other than [null], while the mute flag is set, the server stops
    the typing timer and answers 200 with [ok: true, muted: true]; it
    calls no method of the chat API, and the mute flag, the selection and
    the state files are what they were. *)
Theorem muted_hook_is_accepted_not_delivered :
  forall (toLowerCase : jsstring -> jsstring) (allowed : list jsstring)
         (st : State) (req : Server.Request) (data : json),
    Server.pathname req = Some (js "/hook") ->
    Server.method req = js "POST" ->
    Server.hookBody req = Server.Parsed data ->
    data <> JNull ->
    isMuted st = true ->
    emitted (Server.handleRequest toLowerCase allowed req) st
    = clearEvents st
        ++ [Respond 200
              (Stringify (JObj [(js "ok", JBool true); (js "muted", JBool true)]))]
    /\ apiResults (exec (Server.handleRequest toLowerCase allowed req) st)
       = apiResults st
    /\ isMuted (exec (Server.handleRequest toLowerCase allowed req) st) = true
    /\ typingInterval (exec (Server.handleRequest toLowerCase allowed req) st)
       = None
    /\ selectedPaneId (exec (Server.handleRequest toLowerCase allowed req) st)
       = selectedPaneId st
    /\ chatIdFile (exec (Server.handleRequest toLowerCase allowed req) st)
       = chatIdFile st
    /\ paneIdFile (exec (Server.handleRequest toLowerCase allowed req) st)
       = paneIdFile st
    /\ pendingFile (exec (Server.handleRequest toLowerCase allowed req) st)
       = pendingFile st.
Proof.
  intros toLowerCase allowed st req data Hpath Hmeth Hbody Hnull Hmuted.
  unfold Server.handleRequest. rewrite Hpath, Hmeth, Hbody.
  change (jseqb (js "/hook") (js "/hook") && jseqb (js "POST") (js "POST"))
    with true. cbv iota.
  destruct st as [mu sel ti cf pf pe env ls ex ap nw tr].
  cbn in Hmuted. subst mu.
  split; [apply emitted_of_trace|];
    unfold Server.handleHookRequest, Server.okBody, clearEvents; unfold_proc;
    destruct data; try congruence; destruct ti; cbn;
    rewrite <- ?app_assoc; repeat split; reflexivity.
Qed.

Lemma muted_hook_is_accepted_not_delivered_witness :
  completion (js "**done**") <> JNull
  /\ isMuted mutedTyping = true
  /\ emitted (Server.handleRequest lowerASCII [js "111"]
                (hookPost (completion (js "**done**")))) mutedTyping
     = [ClearInterval;
        Respond 200
          (Stringify (JObj [(js "ok", JBool true); (js "muted", JBool true)]))].
Proof.
  assert (Hn : completion (js "**done**") <> JNull) by discriminate.
  split; [exact Hn|]. split; [reflexivity|].
  apply (muted_hook_is_accepted_not_delivered lowerASCII [js "111"] mutedTyping
           (hookPost (completion (js "**done**")))
           eq_refl eq_refl eq_refl Hn eq_refl).
Defined.

(** C9 (as stated) fails on the body [null]: it parses, and the handler
    answers 500 with an error, muted or not. *)
Lemma muted_hook_null_body_is_an_error :
  isMuted mutedTyping = true
  /\ emitted (Server.handleRequest lowerASCII [js "111"] (hookPost JNull)) mutedTyping
     = [Respond 500
          (Stringify
             (JObj [(js "ok", JBool false);
                    (js "error",
                     JStr (js "Cannot destructure property 'message' of 'data' as it is null."))]))].
Proof. split; vm_compute; reflexivity. Qed.

(** Scenario D of the specification: mute off, chat 111 active. *)
Example hook_delivers_when_not_muted :
  emitted (Server.handleRequest lowerASCII [js "111"]
             (hookPost (completion (js "**done**"))))
          (set_isMuted false mutedTyping)
  = [ClearInterval;
     Api (SendMessage (JStr (js "111"))
            (js "<code>📁 /tmp</code>" ++ nl ++ js "<code>🔖 abc</code>" ++ nl ++ nl
               ++ js "<b>done</b>")
            (Some (js "HTML")));
     Respond 200 (Stringify (JObj [(js "ok", JBool true)]))].
Proof. vm_compute. reflexivity. Qed.

End HookFacts.

(* ===================================================================== *)
(** * Free text: pending marker, typing timer, dispatch *)
(* ===================================================================== *)

Module MessageFacts.
Import JS Json Proc Common Vocabulary Phases ProcFacts.

Ltac close_trace :=
  first [ reflexivity
        | rewrite <- !app_assoc; reflexivity
        | symmetry; apply app_nil_r ].

Ltac close_effects :=
  eexists; split; [close_trace|repeat split; reflexivity].

Ltac crunch :=
  repeat (cbn; try break_match).

Lemma findClaudePaneId_quiet s : quiet s (exec findClaudePaneId s).
Proof.
  destruct s as [mu sel ti cf pf pe env ls ex ap nw tr].
  unfold quiet, findClaudePaneId. unfold_proc.
  crunch; close_effects.
Qed.

Lemma paneCheck_quiet chatId s : quiet s (exec (paneCheck chatId) s).
Proof.
  destruct s as [mu sel ti cf pf pe env ls ex ap nw tr].
  unfold quiet, paneCheck, findClaudePaneId. unfold_proc.
  crunch; close_effects.
Qed.

Lemma Server_weztermSendText_dispatching text s :
  dispatching s (exec (Server.weztermSendText text) s).
Proof.
  destruct s as [mu sel ti cf pf pe env ls ex ap nw tr].
  unfold dispatching, Server.weztermSendText, findClaudePaneId,
    sendTextThenReturn. unfold_proc.
  crunch; close_effects.
Qed.

Lemma Bridge_weztermSendText_dispatching text s :
  dispatching s (exec (Bridge.weztermSendText text) s).
Proof.
  destruct s as [mu sel ti cf pf pe env ls ex ap nw tr].
  unfold dispatching, Bridge.weztermSendText, findClaudePaneId,
    sendTextThenReturn. unfold_proc.
  crunch; close_effects.
Qed.

Lemma startTypingLoop_run chatId s :
  exists s2,
    startTypingLoop chatId s = (Ok tt, s2)
    /\ typingInterval s2 = Some chatId
    /\ trace s2 = trace s ++ clearEvents s ++ typingEvents chatId
    /\ pendingFile s2 = pendingFile s
    /\ now s2 = now s.
Proof.
  destruct s as [mu sel ti cf pf pe env ls ex ap nw tr].
  unfold clearEvents, typingEvents. unfold_proc.
  destruct ti, ap; cbn; eexists; (split; [reflexivity|]);
    repeat split; rewrite <- ?app_assoc; reflexivity.
Qed.

Lemma setPending_run s :
  Bridge.setPending s
  = (Ok tt,
     set_pendingFile (Some (String_Z (now s)))
       (set_trace (trace s ++ [WriteFile PENDING_FILE (String_Z (now s))]) s)).
Proof. reflexivity. Qed.

Lemma Server_failure_reply chatId e c s :
  typingInterval s = Some c ->
  exists fin,
    (stopTypingLoop ;; sendMessage chatId (errorReply e) ;; ret tt) s = (Ok tt, fin)
    /\ typingInterval fin = None
    /\ trace fin = trace s ++ [ClearInterval; errorEvent chatId e]
    /\ pendingFile fin = pendingFile s.
Proof.
  destruct s as [mu sel ti cf pf pe env ls ex ap nw tr].
  cbn. intros ->. unfold errorEvent. unfold_proc.
  destruct ap; cbn; eexists; (split; [reflexivity|]);
    repeat split; rewrite <- ?app_assoc; reflexivity.
Qed.

Lemma Bridge_failure_reply chatId e c p s :
  typingInterval s = Some c ->
  pendingFile s = Some p ->
  exists fin,
    (stopTypingLoop ;; Bridge.clearPending ;;
     sendMessage chatId (errorReply e) ;; ret tt) s = (Ok tt, fin)
    /\ typingInterval fin = None
    /\ pendingFile fin = None
    /\ trace fin
       = trace s ++ [ClearInterval; Unlink PENDING_FILE; errorEvent chatId e].
Proof.
  destruct s as [mu sel ti cf pf pe env ls ex ap nw tr].
  cbn. intros -> ->. unfold errorEvent, Bridge.clearPending. unfold_proc.
  destruct ap; cbn; eexists; (split; [reflexivity|]);
    repeat split; rewrite <- ?app_assoc; reflexivity.
Qed.

(** [handleMessage] once the pane check has resolved a pane and the text
    is not on the denylist. *)
Lemma Server_handleMessage_resolved toLowerCase st chatId text paneId :
  value (paneCheck chatId) st = Ok (Some paneId) ->
  isBlocked (toLowerCase text) = false ->
  Server.handleMessage toLowerCase chatId text st
  = tryCatch (startTypingLoop chatId ;; Server.weztermSendText text ;; ret tt)
      (fun message =>
         stopTypingLoop ;; sendMessage chatId (errorReply message) ;; ret tt)
      (exec (paneCheck chatId) st).
Proof.
  intros Hcheck Hblocked.
  unfold Server.handleMessage, paneCheck, value, exec, bind in *.
  rewrite Hblocked.
  destruct (saveChatId chatId st) as [[u|e0] s0]; [|discriminate].
  destruct (findClaudePaneId s0) as [[p|e1] s1]; [|discriminate].
  cbn in Hcheck. injection Hcheck as ->. reflexivity.
Qed.

Lemma Bridge_handleMessage_resolved toLowerCase st chatId text paneId :
  value (paneCheck chatId) st = Ok (Some paneId) ->
  isBlocked (toLowerCase text) = false ->
  Bridge.handleMessage toLowerCase chatId text st
  = tryCatch
      (Bridge.setPending ;; startTypingLoop chatId ;;
       Bridge.weztermSendText text ;; ret tt)
      (fun message =>
         stopTypingLoop ;; Bridge.clearPending ;;
         sendMessage chatId (errorReply message) ;; ret tt)
      (exec (paneCheck chatId) st).
Proof.
  intros Hcheck Hblocked.
  unfold Bridge.handleMessage, paneCheck, value, exec, bind in *.
  rewrite Hblocked.
  destruct (saveChatId chatId st) as [[u|e0] s0]; [|discriminate].
  destruct (findClaudePaneId s0) as [[p|e1] s1]; [|discriminate].
  cbn in Hcheck. injection Hcheck as ->. reflexivity.
Qed.

(** An authorized free text reaches [handleMessage]. *)
Lemma Server_free_text_is_handled toLowerCase allowed u chatId text :
  message u = Some (mkMessage chatId (Some text)) ->
  Server.isAuthorized allowed chatId = true ->
  startsWith text [SLASH] = false ->
  trim text <> [] ->
  Server.handleUpdate toLowerCase allowed u
  = (Server.handleMessage toLowerCase chatId text ;;
     Server.handleCallbackQuery allowed u).
Proof.
  intros Hm Hauth Hslash Htrim. unfold Server.handleUpdate.
  rewrite Hm. cbn [msg_chat_id msg_text]. rewrite Hauth, Hslash. cbn [negb].
  destruct (trim text); [congruence|reflexivity].
Qed.

Lemma existsb_clearEvents (f : Event -> bool) s :
  f ClearInterval = false -> existsb f (clearEvents s) = false.
Proof. intros H. unfold clearEvents. destruct (typingInterval s); cbn; now rewrite ?H. Qed.


Lemma Server_free_text toLowerCase st chatId text paneId :
  value (paneCheck chatId) st = Ok (Some paneId) ->
  isBlocked (toLowerCase text) = false ->
  let checked := exec (paneCheck chatId) st in
  let started := exec (startTypingLoop chatId) checked in
  let sent := exec (Server.weztermSendText text) started in
  let final := exec (Server.handleMessage toLowerCase chatId text) st in
  typingInterval started = Some chatId
  /\ trace started
     = trace checked ++ clearEvents checked ++ typingEvents chatId
  /\ existsb isDispatch (skipn (length (trace st)) (trace started)) = false
  /\ (exists evs, trace sent = trace started ++ evs)
  /\ match value (Server.weztermSendText text) started with
     | Ok _ => final = sent /\ typingInterval final = Some chatId
     | Throw e =>
       typingInterval final = None
       /\ trace final = trace sent ++ [ClearInterval; errorEvent chatId e]
     end
  /\ pendingFile final = pendingFile st
  /\ existsb touchesPending
       (emitted (Server.handleMessage toLowerCase chatId text) st)
     = false.
Proof.
  intros Hcheck Hblocked checked started sent final.
  destruct (paneCheck_quiet chatId st)
    as (evs1 & Htr1 & Hd1 & Hp1 & Hti1 & Hpe1 & Hnow1).
  fold checked in Htr1, Hti1, Hpe1, Hnow1.
  destruct (startTypingLoop_run chatId checked)
    as (s2 & Hrun2 & Hti2 & Htr2 & Hpe2 & Hnow2).
  assert (Hstarted : started = s2)
    by (unfold started, exec; now rewrite Hrun2).
  destruct (Server_weztermSendText_dispatching text started)
    as (evs3 & Htr3 & Hp3 & Hti3 & Hpe3).
  fold sent in Htr3, Hti3, Hpe3.
  assert (Hfinal : run (Server.handleMessage toLowerCase chatId text) st
                   = match value (Server.weztermSendText text) started with
                     | Ok _ => (Ok tt, sent)
                     | Throw e =>
                       (stopTypingLoop ;;
                        sendMessage chatId (errorReply e) ;; ret tt) sent
                     end).
  { unfold run. rewrite Server_handleMessage_resolved with (paneId := paneId) by assumption.
    fold checked. unfold tryCatch, bind at 1. rewrite Hrun2.
    unfold bind at 1. unfold sent, value, exec. rewrite Hstarted.
    destruct (Server.weztermSendText text s2) as [[b|e] s3]; reflexivity. }
  rewrite Hstarted in *.
  assert (Hpre : existsb isDispatch (skipn (length (trace st)) (trace s2)) = false).
  { rewrite Htr2, Htr1, <- app_assoc, skipn_length_app, !existsb_app, Hd1.
    rewrite existsb_clearEvents by reflexivity. reflexivity. }
  split; [exact Hti2|]. split; [exact Htr2|]. split; [exact Hpre|].
  split; [now exists evs3|].
  unfold final, emitted, exec. unfold run in Hfinal. rewrite Hfinal.
  destruct (value (Server.weztermSendText text) s2) as [b|e].
  - cbn [snd]. split; [split; [reflexivity|congruence]|].
    split; [congruence|].
    rewrite Htr3, Htr2, Htr1, <- !app_assoc, skipn_length_app, !existsb_app.
    rewrite Hp1, Hp3, existsb_clearEvents by reflexivity. reflexivity.
  - assert (Hti : typingInterval sent = Some chatId) by congruence.
    destruct Server_failure_reply with (chatId := chatId) (e := e) (c := chatId) (s := sent)
      as (fin & Hfin & Htif & Htrf & Hpef); [exact Hti|].
    rewrite Hfin. cbn [snd]. split; [split; assumption|].
    split; [congruence|].
    rewrite Htrf, Htr3, Htr2, Htr1, <- !app_assoc, skipn_length_app,
      !existsb_app.
    rewrite Hp1, Hp3, existsb_clearEvents by reflexivity. reflexivity.
Qed.


Lemma Bridge_free_text toLowerCase st chatId text paneId :
  value (paneCheck chatId) st = Ok (Some paneId) ->
  isBlocked (toLowerCase text) = false ->
  let checked := exec (paneCheck chatId) st in
  let started := exec (Bridge.setPending ;; startTypingLoop chatId) checked in
  let sent := exec (Bridge.weztermSendText text) started in
  let final := exec (Bridge.handleMessage toLowerCase chatId text) st in
  pendingFile started = Some (String_Z (now st))
  /\ typingInterval started = Some chatId
  /\ trace started
     = trace checked
         ++ WriteFile PENDING_FILE (String_Z (now st))
         :: clearEvents checked ++ typingEvents chatId
  /\ existsb isDispatch (skipn (length (trace st)) (trace started)) = false
  /\ (exists evs, trace sent = trace started ++ evs)
  /\ match value (Bridge.weztermSendText text) started with
     | Ok _ =>
       final = sent
       /\ typingInterval final = Some chatId
       /\ pendingFile final = Some (String_Z (now st))
     | Throw e =>
       typingInterval final = None
       /\ pendingFile final = None
       /\ trace final
          = trace sent ++ [ClearInterval; Unlink PENDING_FILE; errorEvent chatId e]
     end.
Proof.
  intros Hcheck Hblocked checked started sent final.
  destruct (paneCheck_quiet chatId st)
    as (evs1 & Htr1 & Hd1 & Hp1 & Hti1 & Hpe1 & Hnow1).
  fold checked in Htr1, Hti1, Hpe1, Hnow1.
  set (marked := set_pendingFile (Some (String_Z (now checked)))
                   (set_trace (trace checked
                                 ++ [WriteFile PENDING_FILE (String_Z (now checked))])
                              checked)).
  destruct (startTypingLoop_run chatId marked)
    as (s2 & Hrun2 & Hti2 & Htr2 & Hpe2 & Hnow2).
  assert (Hstarted : started = s2).
  { unfold started, exec, bind. rewrite setPending_run. fold marked.
    now rewrite Hrun2. }
  assert (Hclear : clearEvents marked = clearEvents checked)
    by (unfold clearEvents, marked; destruct checked; reflexivity).
  assert (Htrm : trace marked
                 = trace checked ++ [WriteFile PENDING_FILE (String_Z (now st))])
    by (unfold marked; rewrite Hnow1; destruct checked; reflexivity).
  assert (Hpem : pendingFile marked = Some (String_Z (now st)))
    by (unfold marked; rewrite Hnow1; destruct checked; reflexivity).
  rewrite Hclear, Htrm in Htr2. rewrite Hpem in Hpe2.
  destruct (Bridge_weztermSendText_dispatching text started)
    as (evs3 & Htr3 & Hp3 & Hti3 & Hpe3).
  fold sent in Htr3, Hti3, Hpe3.
  assert (Hfinal : run (Bridge.handleMessage toLowerCase chatId text) st
                   = match value (Bridge.weztermSendText text) started with
                     | Ok _ => (Ok tt, sent)
                     | Throw e =>
                       (stopTypingLoop ;; Bridge.clearPending ;;
                        sendMessage chatId (errorReply e) ;; ret tt) sent
                     end).
  { unfold run. rewrite Bridge_handleMessage_resolved with (paneId := paneId) by assumption.
    fold checked. unfold tryCatch, bind at 1. rewrite setPending_run.
    fold marked. unfold bind at 1. rewrite Hrun2.
    unfold bind at 1. unfold sent, value, exec. rewrite Hstarted.
    destruct (Bridge.weztermSendText text s2) as [[b|e] s3]; reflexivity. }
  rewrite Hstarted in *.
  split; [exact Hpe2|]. split; [exact Hti2|].
  split; [rewrite Htr2, <- app_assoc; reflexivity|].
  split.
  { rewrite Htr2, Htr1, <- !app_assoc, skipn_length_app, !existsb_app, Hd1.
    rewrite existsb_clearEvents by reflexivity. reflexivity. }
  split; [now exists evs3|].
  unfold final, exec. unfold run in Hfinal. rewrite Hfinal.
  destruct (value (Bridge.weztermSendText text) s2) as [b|e].
  - cbn [snd]. repeat split; congruence.
  - assert (Hti : typingInterval sent = Some chatId) by congruence.
    assert (Hpe : pendingFile sent = Some (String_Z (now st))) by congruence.
    destruct Bridge_failure_reply
      with (chatId := chatId) (e := e) (c := chatId)
           (p := String_Z (now st)) (s := sent)
      as (fin & Hfin & Htif & Hpef & Htrf); [exact Hti|exact Hpe|].
    rewrite Hfin. cbn [snd]. repeat split; assumption.
Qed.

End MessageFacts.

Module MessageClaims.
Import JS Json Proc Common Vocabulary Phases ProcFacts Samples MessageFacts.

(** C5 (amended): free text sent while a pane is resolved and the text is
    not on the denylist.  Both bridges start the typing timer before any
    command reaches the terminal; when the dispatch throws they stop the
    timer and send the error message, introduced by the fixed error
    prefix and cut at the message limit, to the chat.  The pending marker
    exists in the first bridge only: there it is written before the timer
    is started and removed when the dispatch throws; the bridge server,
    the one with the allow-list, neither writes nor removes it. *)
Theorem free_text_timer_then_dispatch :
  forall (toLowerCase : jsstring -> jsstring) (st : State) (chatId : Z)
         (text paneId : jsstring),
    value (paneCheck chatId) st = Ok (Some paneId) ->
    isBlocked (toLowerCase text) = false ->
    (let checked := exec (paneCheck chatId) st in
     let started := exec (startTypingLoop chatId) checked in
     let sent := exec (Server.weztermSendText text) started in
     let final := exec (Server.handleMessage toLowerCase chatId text) st in
     typingInterval started = Some chatId
     /\ trace started
        = trace checked ++ clearEvents checked ++ typingEvents chatId
     /\ existsb isDispatch (skipn (length (trace st)) (trace started)) = false
     /\ (exists evs, trace sent = trace started ++ evs)
     /\ match value (Server.weztermSendText text) started with
        | Ok _ => final = sent /\ typingInterval final = Some chatId
        | Throw e =>
          typingInterval final = None
          /\ trace final = trace sent ++ [ClearInterval; errorEvent chatId e]
        end
     /\ pendingFile final = pendingFile st
     /\ existsb touchesPending
          (emitted (Server.handleMessage toLowerCase chatId text) st)
        = false)
    /\
    (let checked := exec (paneCheck chatId) st in
     let started := exec (Bridge.setPending ;; startTypingLoop chatId) checked in
     let sent := exec (Bridge.weztermSendText text) started in
     let final := exec (Bridge.handleMessage toLowerCase chatId text) st in
     pendingFile started = Some (String_Z (now st))
     /\ typingInterval started = Some chatId
     /\ trace started
        = trace checked
            ++ WriteFile PENDING_FILE (String_Z (now st))
            :: clearEvents checked ++ typingEvents chatId
     /\ existsb isDispatch (skipn (length (trace st)) (trace started)) = false
     /\ (exists evs, trace sent = trace started ++ evs)
     /\ match value (Bridge.weztermSendText text) started with
        | Ok _ =>
          final = sent
          /\ typingInterval final = Some chatId
          /\ pendingFile final = Some (String_Z (now st))
        | Throw e =>
          typingInterval final = None
          /\ pendingFile final = None
          /\ trace final
             = trace sent
                 ++ [ClearInterval; Unlink PENDING_FILE; errorEvent chatId e]
        end).
Proof.
  intros toLowerCase st chatId text paneId Hcheck Hblocked. split.
  - exact (Server_free_text toLowerCase st chatId text Hcheck Hblocked).
  - exact (Bridge_free_text toLowerCase st chatId text Hcheck Hblocked).
Qed.

Lemma free_text_timer_then_dispatch_witness :
  value (paneCheck 111) pane3Failing = Ok (Some (js "3"))
  /\ isBlocked (lowerASCII (js "hello")) = false
  /\ typingInterval (exec (Server.handleMessage lowerASCII 111 (js "hello")) pane3Failing)
     = None
  /\ pendingFile (exec (Bridge.handleMessage lowerASCII 111 (js "hello")) pane3Failing)
     = None.
Proof.
  assert (Hc : value (paneCheck 111) pane3Failing = Ok (Some (js "3")))
    by (vm_compute; reflexivity).
  assert (Hb : isBlocked (lowerASCII (js "hello")) = false)
    by (vm_compute; reflexivity).
  split; [exact Hc|]. split; [exact Hb|].
  destruct (free_text_timer_then_dispatch lowerASCII pane3Failing 111
              (js "hello") Hc Hb)
    as [HS HB].
  cbv zeta in HS, HB.
  destruct HS as (_ & _ & _ & _ & HS & _).
  destruct HB as (_ & _ & _ & _ & _ & HB).
  split.
  - revert HS.
    change (value (Server.weztermSendText (js "hello"))
              (exec (startTypingLoop 111) (exec (paneCheck 111) pane3Failing)))
      with (@Throw bool (js "Command failed")).
    intros [H _]. exact H.
  - revert HB.
    change (value (Bridge.weztermSendText (js "hello"))
              (exec (Bridge.setPending ;; startTypingLoop 111)
                    (exec (paneCheck 111) pane3Failing)))
      with (@Throw bool (js "Command failed")).
    intros (_ & H & _). exact H.
Defined.

(** C5 (as stated) fails in the bridge server: chat 111 is on the
    allow-list, pane 3 is selected and listed, the text is not on the
    denylist, the text is typed into the pane, and no pending marker is
    written. *)
Lemma server_dispatch_marks_no_pending :
  Server.isAuthorized [js "111"] 111 = true
  /\ value (paneCheck 111) pane3Selected = Ok (Some (js "3"))
  /\ isBlocked (lowerASCII (js "hello")) = false
  /\ emitted (Server.handleTelegramWebhook lowerASCII [js "111"]
                (Envelope (textFrom 111 (js "hello")))) pane3Selected
     = [WriteFile CHAT_ID_FILE (js "111");
        Exec (js "wezterm cli list --format json");
        Api (SendChatAction (chatJson 111) (js "typing"));
        SetInterval 111;
        Exec (js "wezterm cli list --format json");
        Exec (js "wezterm cli list --format json");
        Exec (sendTextCommand (js "3") (js "hello"));
        Exec (sendKeyCommand (js "3") (js "`r"));
        Respond 200 (Text (js "OK"))]
  /\ pendingFile
       (exec (Server.handleTelegramWebhook lowerASCII [js "111"]
                (Envelope (textFrom 111 (js "hello")))) pane3Selected)
     = None.
Proof. repeat split; vm_compute; reflexivity. Qed.

(** The same message in the first bridge: the marker is written first. *)
Example bridge_dispatch_marks_pending :
  emitted (Bridge.handleWebhook lowerASCII (js "POST")
             (Envelope (textFrom 111 (js "hello")))) pane3Selected
  = [WriteFile CHAT_ID_FILE (js "111");
     Exec (js "wezterm cli list --format json");
     WriteFile PENDING_FILE (js "1700000000000");
     Api (SendChatAction (chatJson 111) (js "typing"));
     SetInterval 111;
     Exec (js "wezterm cli list --format json");
     Exec (sendTextCommand (js "3") (js "hello"));
     Exec (sendKeyCommand (js "3") (js "`r"));
     Respond 200 (Text (js "OK"))].
Proof. vm_compute. reflexivity. Qed.

(** A failing dispatch in the bridge server: timer stopped, error sent. *)
Example server_dispatch_failure :
  emitted (Server.handleMessage lowerASCII 111 (js "hello")) pane3Failing
  = [WriteFile CHAT_ID_FILE (js "111");
     Exec (js "wezterm cli list --format json");
     Api (SendChatAction (chatJson 111) (js "typing"));
     SetInterval 111;
     Exec (js "wezterm cli list --format json");
     Exec (js "wezterm cli list --format json");
     Exec (sendTextCommand (js "3") (js "hello"));
     ClearInterval;
     Api (SendMessage (chatJson 111) (js "❌ 错误: Command failed")
            (Some (js "HTML")))].
Proof. vm_compute. reflexivity. Qed.

End MessageClaims.

(* ===================================================================== *)
(** * The Completion Extractor: properties *)
(* ===================================================================== *)

Module ExtractorFacts.
Import JS Json Extractor Transcripts.

Section Scan.

Variable parse : jsstring -> option json.

Lemma scanFrom_some lines n text :
  scanFrom parse lines n = Some text
  <-> exists i,
        i < n
        /\ lineText parse (nth i lines []) = Some text
        /\ forall j, i < j < n -> lineText parse (nth j lines []) = None.
Proof.
  induction n as [|n IH]; cbn [scanFrom].
  - split; [discriminate|]. intros (i & Hi & _). lia.
  - destruct (lineText parse (nth n lines [])) as [t|] eqn:Hn.
    + split.
      * intros H. injection H as <-. exists n. split; [lia|].
        split; [exact Hn|]. intros j Hj. lia.
      * intros (i & Hi & Hfound & Hafter).
        destruct (Nat.eq_dec i n) as [->|Hne]; [congruence|].
        rewrite Hafter in Hn by lia. discriminate.
    + rewrite IH. split.
      * intros (i & Hi & Hfound & Hafter). exists i. split; [lia|].
        split; [exact Hfound|]. intros j Hj.
        destruct (Nat.eq_dec j n) as [->|Hne]; [exact Hn|]. apply Hafter. lia.
      * intros (i & Hi & Hfound & Hafter).
        destruct (Nat.eq_dec i n) as [->|Hne]; [congruence|].
        exists i. split; [lia|]. split; [exact Hfound|].
        intros j Hj. apply Hafter. lia.
Qed.

Lemma scanFrom_none lines n :
  scanFrom parse lines n = None
  <-> forall i, i < n -> lineText parse (nth i lines []) = None.
Proof.
  induction n as [|n IH]; cbn [scanFrom].
  - split; [intros _ i Hi; lia|reflexivity].
  - destruct (lineText parse (nth n lines [])) as [t|] eqn:Hn.
    + split; [discriminate|]. intros H. rewrite (H n) in Hn by lia.
      discriminate.
    + rewrite IH. split.
      * intros H i Hi. destruct (Nat.eq_dec i n) as [->|Hne]; [exact Hn|].
        apply H. lia.
      * intros H i Hi. apply H. lia.
Qed.

End Scan.

(** The loop over the blocks fails on a [null] block and collects the
    texts otherwise. *)
Lemma collectText_spec blocks :
  collectText blocks
  = if existsb isNull blocks then None else Some (blockTexts blocks).
Proof.
  induction blocks as [|block blocks IH]; [reflexivity|].
  destruct block; [reflexivity|..];
    cbn [collectText existsb isNull orb]; rewrite IH;
    (destruct (existsb isNull blocks); [reflexivity|]);
    unfold blockTexts; cbn [flat_map];
    match goal with
    | |- context [prop ?b (js "type")] =>
      destruct (prop b (js "type")) as [[| | |t| |]|]; try reflexivity;
      destruct (prop b (js "text")) as [text|]; try reflexivity;
      destruct (jseqb t (js "text") && truthy text); reflexivity
    end.
Qed.

Lemma mapM_strings texts :
  mapM (fun x => match x with JNull => Some [] | _ => toString x end)
       (map JStr texts)
  = Some texts.
Proof.
  induction texts as [|t texts IH]; [reflexivity|].
  cbn [map mapM]. cbn [map mapM] in IH. rewrite IH. reflexivity.
Qed.

(** Texts that are strings are joined as they are. *)
Lemma arrayJoin_strings sep texts :
  arrayJoin sep (map JStr texts) = Some (join sep texts).
Proof. unfold arrayJoin. now rewrite mapM_strings. Qed.

(** An object with a field [toString] cannot be printed. *)
Lemma arrayJoin_unprintable sep parts fields :
  In (JObj fields) parts ->
  lookup (js "toString") fields <> None ->
  arrayJoin sep parts = None.
Proof.
  intros Hin Hfield. unfold arrayJoin.
  assert (H : mapM (fun x => match x with JNull => Some [] | _ => toString x end)
                   parts = None).
  { induction parts as [|p parts IH]; [destruct Hin|].
    destruct Hin as [->|Hin].
    - cbn [mapM toString].
      destruct (lookup (js "toString") fields); [reflexivity|congruence].
    - cbn [mapM]. cbn [mapM] in IH. rewrite (IH Hin).
      now destruct (match p with JNull => Some [] | _ => toString p end). }
  now rewrite H.
Qed.

(** What the body of the loop returns, for every parsed entry. *)
Lemma entryText_found entry text :
  entryText entry = Found text
  <-> exists message,
        prop entry (js "type") = Some (JStr (js "assistant"))
        /\ prop entry (js "message") = Some message
        /\ truthy message = true
        /\ (prop message (js "content") = Some (JStr text)
            \/ exists blocks,
                 prop message (js "content") = Some (JArr blocks)
                 /\ existsb isNull blocks = false
                 /\ blockTexts blocks <> []
                 /\ arrayJoin [LF] (blockTexts blocks) = Some text).
Proof.
  split.
  - intros H.
    assert (Hentry : entryText entry
                     = if isAssistant entry && truthyU (prop entry (js "message"))
                       then match prop entry (js "message") with
                            | Some message =>
                              match textParts message with
                              | None => Caught
                              | Some [] => Nothing
                              | Some parts =>
                                match joinParts parts with
                                | Some text => Found text
                                | None => Caught
                                end
                              end
                            | None => Nothing
                            end
                       else Nothing)
      by (destruct entry; [discriminate H|reflexivity..]).
    rewrite Hentry in H. clear Hentry. unfold isAssistant in H.
    destruct (prop entry (js "type")) as [[| | |t| |]|] eqn:Ht;
      try discriminate H.
    destruct (jseqb t (js "assistant")) eqn:Hj; [|discriminate H].
    apply AuthorizationFacts.jseqb_eq in Hj. subst t.
    destruct (prop entry (js "message")) as [message|] eqn:Hm;
      [|discriminate H].
    cbn [truthyU andb] in H.
    destruct (truthy message) eqn:Htr; [|discriminate H].
    exists message. split; [reflexivity|]. split; [reflexivity|].
    split; [exact Htr|].
    unfold textParts in H.
    destruct (prop message (js "content")) as [[| | |s|blocks|]|] eqn:Hc;
      try discriminate H.
    + left. change (joinParts [JStr s]) with (Some s) in H. congruence.
    + right. exists blocks. rewrite collectText_spec in H.
      destruct (existsb isNull blocks); [discriminate H|].
      destruct (blockTexts blocks) as [|p ps] eqn:Hb; [discriminate H|].
      unfold joinParts in H.
      destruct (arrayJoin [LF] (p :: ps)) as [joined|] eqn:Hjoin;
        [|discriminate H].
      repeat split; congruence.
  - intros (message & Ht & Hm & Htr & Hcontent).
    destruct entry; try discriminate Ht.
    unfold entryText, isAssistant. rewrite Ht, Hm. cbn [truthyU].
    rewrite Htr, (proj2 (AuthorizationFacts.jseqb_eq _ _) eq_refl).
    cbn [andb]. unfold textParts.
    destruct Hcontent as [Hc|(blocks & Hc & Hnull & Hne & Hjoin)]; rewrite Hc.
    + reflexivity.
    + rewrite collectText_spec, Hnull.
      destruct (blockTexts blocks) as [|p ps]; [congruence|].
      unfold joinParts. now rewrite Hjoin.
Qed.

(** C3 (amended): the extractor returns the text of the line nearest the
    end that yields a text, and [null] when no line does or the file is
    missing.  A line yields a text exactly when it parses to a record of
    type assistant with a truthy message whose content is a string, which
    is then the text even when it is empty, or a sequence of blocks
    without a [null] element in which some block of type text has a
    truthy text and all such texts can be printed: the text is then these
    texts, in order, joined by newlines.  Every other line is passed over
    and the scan goes on to earlier lines.  Texts that are strings are
    joined as they are; an object with a field [toString] cannot be
    printed. *)
Theorem extractor_returns_last_line_with_text :
  forall (parse : jsstring -> option json) (content : jsstring),
    (forall text,
        extractLastAssistantMessage parse (Some content) = Some text
        <-> exists i,
              i < length (transcriptLines content)
              /\ lineText parse (nth i (transcriptLines content) []) = Some text
              /\ forall j, i < j < length (transcriptLines content) ->
                           lineText parse (nth j (transcriptLines content) [])
                           = None)
    /\ (extractLastAssistantMessage parse (Some content) = None
        <-> forall i, i < length (transcriptLines content) ->
                      lineText parse (nth i (transcriptLines content) []) = None)
    /\ extractLastAssistantMessage parse None = None
    /\ (forall line text,
           lineText parse line = Some text
           <-> exists entry message,
                 parse line = Some entry
                 /\ prop entry (js "type") = Some (JStr (js "assistant"))
                 /\ prop entry (js "message") = Some message
                 /\ truthy message = true
                 /\ (prop message (js "content") = Some (JStr text)
                     \/ exists blocks,
                          prop message (js "content") = Some (JArr blocks)
                          /\ existsb isNull blocks = false
                          /\ blockTexts blocks <> []
                          /\ arrayJoin [LF] (blockTexts blocks) = Some text))
    /\ (forall texts, arrayJoin [LF] (map JStr texts) = Some (join [LF] texts))
    /\ (forall parts fields,
           In (JObj fields) parts ->
           lookup (js "toString") fields <> None ->
           arrayJoin [LF] parts = None).
Proof.
  intros parse content. unfold extractLastAssistantMessage.
  split; [|split; [|split; [|split; [|split]]]].
  - intros text. apply scanFrom_some.
  - apply scanFrom_none.
  - reflexivity.
  - intros line text. unfold lineText.
    destruct (parse line) as [entry|].
    + split.
      * destruct (entryText entry) as [t| |] eqn:He; try discriminate.
        intros H. injection H as ->. apply entryText_found in He.
        destruct He as (message & He). exists entry, message.
        split; [reflexivity|exact He].
      * intros (entry' & message & Hp & He). injection Hp as <-.
        assert (Hfound : entryText entry = Found text)
          by (apply entryText_found; now exists message).
        now rewrite Hfound.
    + split; [discriminate|]. intros (entry & message & Hp & _).
      discriminate Hp.
  - apply arrayJoin_strings.
  - apply arrayJoin_unprintable.
Qed.

Lemma extractor_returns_last_line_with_text_witness :
  extractLastAssistantMessage (parseOnly [answer; toolCall])
    (Some toolCallTranscript) = Some (js "done")
  /\ exists i,
      i < length (transcriptLines toolCallTranscript)
      /\ lineText (parseOnly [answer; toolCall])
           (nth i (transcriptLines toolCallTranscript) []) = Some (js "done").
Proof.
  assert (H : extractLastAssistantMessage (parseOnly [answer; toolCall])
                (Some toolCallTranscript) = Some (js "done"))
    by (vm_compute; reflexivity).
  split; [exact H|].
  destruct (proj1 (proj1 (extractor_returns_last_line_with_text
                            (parseOnly [answer; toolCall]) toolCallTranscript)
                     (js "done")) H) as (i & Hi & Hline & _).
  exists i. split; assumption.
Defined.

(** C3 (as stated) fails when the assistant record nearest the end has no
    text: the transcript of an answer followed by a tool call.  The
    extractor returns the earlier answer; the record nearest the end whose
    role is assistant is the tool call, whose text blocks join to the
    empty text. *)
Lemma extractor_passes_over_record_without_text :
  extractLastAssistantMessage (parseOnly [answer; toolCall])
    (Some toolCallTranscript) = Some (js "done")
  /\ spec_extract (parseOnly [answer; toolCall]) toolCallTranscript = Some []
  /\ extractLastAssistantMessage (parseOnly [answer; toolCall])
       (Some toolCallTranscript)
     <> spec_extract (parseOnly [answer; toolCall]) toolCallTranscript.
Proof.
  split; [vm_compute; reflexivity|]. split; [vm_compute; reflexivity|].
  intros H; vm_compute in H; discriminate H.
Qed.

(** Blocks of several types: the texts are joined, the rest is dropped. *)
Example extractor_joins_text_blocks :
  let entry :=
    record (js "assistant")
           (JArr (blocksOf [(js "text", js "one"); (js "tool_use", js "x");
                            (js "text", js "two")])) in
  extractLastAssistantMessage (parseOnly [entry])
    (Some (js "not json" ++ [LF] ++ render entry ++ [LF]))
  = Some (js "one" ++ [LF] ++ js "two").
Proof. vm_compute. reflexivity. Qed.

(** A record whose content is the empty string ends the scan: the empty
    text is returned, not the earlier answer. *)
Example extractor_returns_an_empty_string_content :
  extractLastAssistantMessage (parseOnly [answer; emptyAnswer])
    (Some (render answer ++ [LF] ++ render emptyAnswer))
  = Some [].
Proof. vm_compute. reflexivity. Qed.

(** A record with a text block next to a [null] block is passed over,
    and so is one whose text is an object with a field [toString]. *)
Example extractor_passes_over_records_that_throw :
  extractLastAssistantMessage (parseOnly [answer; nullBlock; unprintable])
    (Some (render answer ++ [LF] ++ render nullBlock ++ [LF]
             ++ render unprintable))
  = Some (js "done").
Proof. vm_compute. reflexivity. Qed.

(** Further fields of a record, of its message and of its blocks do not
    matter. *)
Example extractor_reads_records_with_further_fields :
  extractLastAssistantMessage (parseOnly [fullRecord])
    (Some (render fullRecord))
  = Some (js "one" ++ [LF] ++ js "7").
Proof. vm_compute. reflexivity. Qed.

End ExtractorFacts.

(* ===================================================================== *)
(** * Runs on concrete states *)
(* ===================================================================== *)

Module Witnesses.
Import JS Json Proc Common Vocabulary Phases Samples.
Import ProcFacts SetpaneFacts DispatchFacts.

Lemma findClaudePaneId_clears_stale_selection_witness :
  selectedPaneId pane3Gone = Some (js "3")
  /\ listed (nextListing pane3Gone) (js "3") = false
  /\ envPaneId pane3Gone = None
  /\ value findClaudePaneId pane3Gone = Ok None
  /\ paneIdFile (exec findClaudePaneId pane3Gone) = None.
Proof.
  assert (Ha : listed (nextListing pane3Gone) (js "3") = false)
    by (vm_compute; reflexivity).
  destruct (findClaudePaneId_clears_stale_selection pane3Gone eq_refl Ha eq_refl)
    as (Hv & _ & Hf).
  repeat split; assumption || reflexivity.
Defined.


Lemma quoting_only_doubles_double_quotes_witness :
  exists rest,
    emitted (Server.weztermSendText quotedPayload) pane3Selected
    = Exec (js "wezterm cli list --format json")
      :: Exec (js "wezterm cli list --format json")
      :: Exec (js "wezterm cli send-text --pane-id " ++ js "3"
                 ++ js " --no-paste "
                 ++ [DQUOTE]
                 ++ (js "say " ++ [DQUOTE; DQUOTE] ++ js "hi"
                       ++ [DQUOTE; DQUOTE] ++ js " `id` $HOME")
                 ++ [DQUOTE])
      :: rest.
Proof.
  exact (proj1 (@quoting_only_doubles_double_quotes
                  pane3Selected quotedPayload (js "3") [pane3] [pane3]
                  [[pane3]; [pane3]] eq_refl eq_refl eq_refl eq_refl)).
Defined.

(** Scenarios A to C of the specification, on the bridge server. *)
Example scenario_panes :
  emitted (Server.handleTelegramWebhook lowerASCII [js "111"]
             (Envelope (textFrom 111 (js "/panes"))))
          (set_listings [[pane3]] idle)
  = [WriteFile CHAT_ID_FILE (js "111");
     Exec (js "wezterm cli list --format json");
     Api (SendMessage (chatJson 111)
            (js "<b>WezTerm 窗格列表:</b>" ++ nl ++ nl
               ++ js "<b>3</b> - shell" ++ nl ++ nl
               ++ js "使用 /setpane &lt;id&gt; 选择窗格")
            (Some (js "HTML")));
     Respond 200 (Text (js "OK"))].
Proof. vm_compute. reflexivity. Qed.

Example scenario_setpane :
  selectedPaneId
    (exec (Server.handleTelegramWebhook lowerASCII [js "111"]
             (Envelope (textFrom 111 (js "/setpane 3"))))
          (set_listings [[pane3]] idle))
  = Some (js "3")
  /\ paneIdFile
       (exec (Server.handleTelegramWebhook lowerASCII [js "111"]
                (Envelope (textFrom 111 (js "/setpane 3"))))
             (set_listings [[pane3]] idle))
     = Some (js "3").
Proof. split; vm_compute; reflexivity. Qed.

End Witnesses.

(* ===================================================================== *)
(** * Reasoning about what a run keeps *)
(* ===================================================================== *)

Module FrameFacts.
Import JS Json Proc Common Frames.

Section Keeps.

Variable R : State -> State -> Prop.
Hypothesis R_refl : forall s, R s s.
Hypothesis R_trans : forall a b c, R a b -> R b c -> R a c.

Lemma keeps_ret (A : Type) (a : A) : keeps R (ret a).
Proof. intros s. apply R_refl. Qed.

Lemma keeps_throw (A : Type) (e : jsstring) : keeps R (@throw A e).
Proof. intros s. apply R_refl. Qed.

Lemma keeps_gets (A : Type) (f : State -> A) : keeps R (gets f).
Proof. intros s. apply R_refl. Qed.

Lemma keeps_bind (A B : Type) (m : M A) (k : A -> M B) :
  keeps R m -> (forall a, keeps R (k a)) -> keeps R (bind m k).
Proof.
  intros Hm Hk s. unfold bind. specialize (Hm s).
  destruct (m s) as [[a|e] s1]; cbn [snd] in *; [|exact Hm].
  eapply R_trans; [exact Hm|apply Hk].
Qed.

Lemma keeps_tryCatch (A : Type) (m : M A) (h : jsstring -> M A) :
  keeps R m -> (forall e, keeps R (h e)) -> keeps R (tryCatch m h).
Proof.
  intros Hm Hh s. unfold tryCatch. specialize (Hm s).
  destruct (m s) as [[a|e] s1]; cbn [snd] in *; [exact Hm|].
  eapply R_trans; [exact Hm|apply Hh].
Qed.

Lemma keeps_modify (f : State -> State) :
  (forall s, R s (f s)) -> keeps R (modify f).
Proof. intros H s. apply H. Qed.

Lemma keeps_emit (e : Event) :
  (forall s, R s (set_trace (trace s ++ [e]) s)) -> keeps R (emit e).
Proof. intros H s. apply H. Qed.

Lemma keeps_pop (A : Type) (queue : State -> list A)
    (set : list A -> State -> State) (default : A) :
  (forall rest s, R s (set rest s)) -> keeps R (pop queue set default).
Proof.
  intros H s. unfold pop. destruct (queue s); cbn [snd]; [apply R_refl|apply H].
Qed.

End Keeps.

(** One step of the decomposition of a run along its structure;
    [leaf] closes the goals about single operations. *)
Ltac keeps_step Hrefl Htrans leaf :=
  idtac;
  lazymatch goal with
  | |- keeps _ (ret _) => apply (keeps_ret _ Hrefl)
  | |- keeps _ (throw _) => apply (keeps_throw _ Hrefl)
  | |- keeps _ (gets _) => apply (keeps_gets _ Hrefl)
  | |- keeps _ (bind _ _) => apply (keeps_bind Htrans); [|intro]
  | |- keeps _ (tryCatch _ _) => apply (keeps_tryCatch Htrans); [|intro]
  | |- keeps _ (match ?x with _ => _ end) => destruct x
  | |- keeps _ _ => leaf
  end.

Ltac keeps_all Hrefl Htrans leaf := repeat keeps_step Hrefl Htrans leaf.

(** The operations of the bridges, unfolded down to the monad. *)
Ltac unfold_handlers :=
  cbv beta zeta delta
    [Server.handleRequest Server.handleTelegramWebhook Server.handleUpdate
     Server.handleCallbackQuery Server.respondOK Server.handleHookRequest
     Server.convertMessage Server.buildHeader Server.sendMessageWithFallback
     Server.handleMessage Server.handleCommand Server.forward
     Server.weztermSendText Server.setupBotCommands Server.getChatId
     Bridge.handleWebhook Bridge.handleUpdate Bridge.handleMessage
     Bridge.handleCommand Bridge.forward Bridge.weztermSendText
     Bridge.setupBotCommands Bridge.setPending Bridge.clearPending
     setpane otherCommand weztermSendEscape sendTextThenReturn
     findClaudePaneId paneExists envFallback clearSelectedPaneId
     saveSelectedPaneId saveChatId loadSavedPaneId unlinkIfExists writeFile
     execSync getWeztermPanes startTypingLoop stopTypingLoop sendMessage
     telegramApi].

(** The same, with the typing loop kept as a unit. *)
Ltac unfold_handlers_but_timer :=
  cbv beta zeta delta
    [Server.handleRequest Server.handleTelegramWebhook Server.handleUpdate
     Server.handleCallbackQuery Server.respondOK Server.handleHookRequest
     Server.convertMessage Server.buildHeader Server.sendMessageWithFallback
     Server.handleMessage Server.handleCommand Server.forward
     Server.weztermSendText Server.setupBotCommands Server.getChatId
     Bridge.handleWebhook Bridge.handleUpdate Bridge.handleMessage
     Bridge.handleCommand Bridge.forward Bridge.weztermSendText
     Bridge.setupBotCommands Bridge.setPending Bridge.clearPending
     setpane otherCommand weztermSendEscape sendTextThenReturn
     findClaudePaneId paneExists envFallback clearSelectedPaneId
     saveSelectedPaneId saveChatId loadSavedPaneId unlinkIfExists writeFile
     execSync getWeztermPanes sendMessage telegramApi].

(** The same, with the two operations on the selection kept as units. *)
Ltac unfold_handlers_but_selection :=
  cbv beta zeta delta
    [Server.handleRequest Server.handleTelegramWebhook Server.handleUpdate
     Server.handleCallbackQuery Server.respondOK Server.handleHookRequest
     Server.convertMessage Server.buildHeader Server.sendMessageWithFallback
     Server.handleMessage Server.handleCommand Server.forward
     Server.weztermSendText Server.setupBotCommands Server.getChatId
     Bridge.handleWebhook Bridge.handleUpdate Bridge.handleMessage
     Bridge.handleCommand Bridge.forward Bridge.weztermSendText
     Bridge.setupBotCommands Bridge.setPending Bridge.clearPending
     setpane otherCommand weztermSendEscape sendTextThenReturn
     findClaudePaneId paneExists envFallback saveChatId unlinkIfExists
     writeFile execSync getWeztermPanes startTypingLoop stopTypingLoop
     sendMessage telegramApi].

Lemma emitsOnly_refl P s : emitsOnly P s s.
Proof. exists []. split; [symmetry; apply app_nil_r|constructor]. Qed.

Lemma emitsOnly_trans P a b c :
  emitsOnly P a b -> emitsOnly P b c -> emitsOnly P a c.
Proof.
  intros (e1 & H1 & F1) (e2 & H2 & F2). exists (e1 ++ e2). split.
  - now rewrite H2, H1, app_assoc.
  - apply Forall_app. now split.
Qed.

Lemma emitsOnly_same_trace P s s' : trace s' = trace s -> emitsOnly P s s'.
Proof. intros H. exists []. split; [now rewrite app_nil_r|constructor]. Qed.

Lemma emitsOnly_one (P : Event -> Prop) e s :
  P e -> emitsOnly P s (set_trace (trace s ++ [e]) s).
Proof.
  intros H. exists [e]. split; [destruct s; reflexivity|now constructor].
Qed.

(** Leaves of a run that only adds events: a setter leaves the trace as
    it is, an emitted event has to satisfy the predicate. *)
Ltac emits_leaf event_ok :=
  idtac;
  lazymatch goal with
  | |- keeps _ (modify _) =>
    apply keeps_modify; intros [? ? ? ? ? ? ? ? ? ? ? ?];
    apply emitsOnly_same_trace;
    solve [ reflexivity
          | repeat (match goal with
                    | |- context [match ?x with _ => _ end] => destruct x
                    end); reflexivity ]
  | |- keeps _ (pop _ _ _) =>
    apply keeps_pop; [apply emitsOnly_refl|];
    intros ? [? ? ? ? ? ? ? ? ? ? ? ?];
    apply emitsOnly_same_trace; reflexivity
  | |- keeps _ (emit _) =>
    apply keeps_emit; intros ?; apply emitsOnly_one; event_ok
  end.

(** Leaves of a run for a relation on the fields of the state. *)
Ltac field_leaf Hrefl unfolding :=
  idtac;
  lazymatch goal with
  | |- keeps _ (modify _) =>
    apply keeps_modify; intros [? ? ? ? ? ? ? ? ? ? ? ?]; unfolding;
    solve [ cbn; auto
          | repeat (match goal with
                    | |- context [match ?x with _ => _ end] => destruct x
                    end); cbn; auto ]
  | |- keeps _ (pop _ _ _) =>
    apply keeps_pop; [apply Hrefl|];
    intros ? [? ? ? ? ? ? ? ? ? ? ? ?]; unfolding; cbn; auto
  | |- keeps _ (emit _) =>
    apply keeps_emit; intros [? ? ? ? ? ? ? ? ? ? ? ?]; unfolding; cbn; auto
  end.

Lemma silentRefl s : emitsOnly (fun e => isRespond e = false) s s.
Proof. apply emitsOnly_refl. Qed.

Lemma silentTrans a b c :
  emitsOnly (fun e => isRespond e = false) a b ->
  emitsOnly (fun e => isRespond e = false) b c ->
  emitsOnly (fun e => isRespond e = false) a c.
Proof. apply emitsOnly_trans. Qed.

Ltac silent := keeps_all silentRefl silentTrans ltac:(emits_leaf ltac:(reflexivity)).

Lemma aot_respond status body : answersOrThrows (emit (Respond status body)).
Proof.
  intros s. cbn. exists [], status, body. split; [destruct s; reflexivity|constructor].
Qed.

Lemma aot_throw e : answersOrThrows (throw e).
Proof. intros s. cbn. apply emitsOnly_refl. Qed.

Lemma aot_bind (A : Type) (m : M A) (k : A -> M unit) :
  keeps (emitsOnly (fun e => isRespond e = false)) m ->
  (forall a, answersOrThrows (k a)) ->
  answersOrThrows (bind m k).
Proof.
  intros Hm Hk s. unfold bind. specialize (Hm s).
  destruct (m s) as [[a|e] s1]; cbn [fst snd] in *; [|exact Hm].
  specialize (Hk a s1). destruct (k a s1) as [[u|e] s2]; cbn [fst snd] in *.
  - destruct Hm as (e1 & H1 & F1). destruct Hk as (e2 & st & b & H2 & F2).
    exists (e1 ++ e2), st, b. split.
    + now rewrite H2, H1, <- !app_assoc.
    + apply Forall_app. now split.
  - eapply emitsOnly_trans; eassumption.
Qed.

(** A handler whose [catch] answers: one response in every run. *)
Lemma answered_tryCatch (m : M unit) status (body : jsstring -> Body) s :
  answersOrThrows m ->
  answered s (snd (tryCatch m (fun e => emit (Respond status (body e))) s)).
Proof.
  intros Hm. unfold tryCatch. specialize (Hm s).
  destruct (m s) as [[u|e] s1]; cbn [fst snd] in *; [exact Hm|].
  destruct Hm as (e1 & H1 & F1). exists e1, status, (body e). split; [|exact F1].
  cbn. rewrite H1. destruct s1; cbn. now rewrite <- app_assoc.
Qed.

Ltac aot :=
  repeat first
    [ apply aot_respond
    | apply aot_throw
    | apply aot_bind; [solve [silent]|intro]
    | match goal with
      | |- answersOrThrows (match ?x with _ => _ end) => destruct x
      end ].

End FrameFacts.

(* ===================================================================== *)
(** * Properties of the request handlers *)
(* ===================================================================== *)

Module HandlerFacts.
Import JS Json Proc Common Frames FrameFacts.

Lemma Server_handleUpdate_answers toLowerCase allowed update :
  answersOrThrows (Server.handleUpdate toLowerCase allowed update).
Proof. unfold_handlers. aot. Qed.

Lemma Server_hook_answers body s :
  answered s (exec (Server.handleHookRequest body) s).
Proof.
  unfold exec, Server.handleHookRequest.
  apply answered_tryCatch with (body := fun e => Server.errorBody (Some e)).
  unfold_handlers. aot.
Qed.

Lemma Server_webhook_answers toLowerCase allowed body s :
  answered s (exec (Server.handleTelegramWebhook toLowerCase allowed body) s).
Proof.
  unfold exec, Server.handleTelegramWebhook.
  apply answered_tryCatch
    with (body := fun _ => Text (js "Internal Server Error")).
  destruct body; [apply aot_throw|apply Server_handleUpdate_answers].
Qed.

Lemma Bridge_handleUpdate_answers toLowerCase update :
  answersOrThrows
    (Bridge.handleUpdate toLowerCase update ;;
     emit (Respond 200 (Text (js "OK")))).
Proof. unfold_handlers. aot. Qed.

Lemma Bridge_webhook_answers toLowerCase method body s :
  answered s (exec (Bridge.handleWebhook toLowerCase method body) s).
Proof.
  unfold exec, Bridge.handleWebhook.
  destruct (negb (jseqb method (js "POST"))).
  - exists [], 405, (Text (js "Method Not Allowed")).
    split; [destruct s; reflexivity|constructor].
  - apply answered_tryCatch
      with (body := fun _ => Text (js "Internal Server Error")).
    destruct body; [|apply Bridge_handleUpdate_answers].
    apply aot_bind; [|intro; apply aot_respond].
    apply (keeps_throw _ (@emitsOnly_refl _)).
Qed.

Lemma Server_request_answers toLowerCase allowed req path s :
  Server.pathname req = Some path ->
  answered s (exec (Server.handleRequest toLowerCase allowed req) s).
Proof.
  intros Hpath. unfold Server.handleRequest. rewrite Hpath.
  destruct (jseqb path (js "/hook") && jseqb (Server.method req) (js "POST"));
    [apply Server_hook_answers|].
  destruct (jseqb (Server.method req) (js "POST"));
    [apply Server_webhook_answers|].
  destruct (jseqb path (js "/health") && jseqb (Server.method req) (js "GET")).
  - exists [], 200, (Server.okBody [(js "muted", JBool (isMuted s))]).
    split; [destruct s; reflexivity|constructor].
  - exists [], 404, (Text (js "Not Found")).
    split; [destruct s; reflexivity|constructor].
Qed.

(** A request target the URL constructor rejects: the handler throws
    before it does anything. *)
Lemma Server_request_unanswered toLowerCase allowed req s :
  Server.pathname req = None ->
  Server.handleRequest toLowerCase allowed req s
  = (Throw (js "Invalid URL"), s).
Proof. intros Hpath. unfold Server.handleRequest. now rewrite Hpath. Qed.

(** X1: A request is answered exactly once, unless its target is
    rejected.  When the URL constructor accepts the request target, then
    whatever the route, the body and the outcome of the chat API and of
    the terminal, the events of the request end with one HTTP response and
    contain no other.  When the constructor throws, the handler of the
    bridge server is left before anything else happens: the request gets
    no response and causes no event.  The first bridge builds no URL and
    answers every request once. *)
Theorem request_is_answered_once_unless_its_target_is_rejected :
  forall (toLowerCase : jsstring -> jsstring) (allowed : list jsstring)
         (req : Server.Request) (method : jsstring) (body : WebhookBody)
         (st : State),
    match Server.pathname req with
    | Some _ =>
      exists evs status answer,
        emitted (Server.handleRequest toLowerCase allowed req) st
        = evs ++ [Respond status answer]
        /\ Forall (fun e => isRespond e = false) evs
    | None =>
      emitted (Server.handleRequest toLowerCase allowed req) st = []
      /\ exists error,
           value (Server.handleRequest toLowerCase allowed req) st
           = Throw error
    end
    /\ (exists evs status answer,
          emitted (Bridge.handleWebhook toLowerCase method body) st
          = evs ++ [Respond status answer]
          /\ Forall (fun e => isRespond e = false) evs).
Proof.
  intros toLowerCase allowed req method body st. split.
  - destruct (Server.pathname req) as [path|] eqn:Hpath.
    + destruct (Server_request_answers toLowerCase allowed req st Hpath)
        as (evs & status & answer & Htr & Hev).
      exists evs, status, answer. split; [|exact Hev].
      now apply ProcFacts.emitted_of_trace.
    + unfold emitted, value, exec.
      rewrite (Server_request_unanswered toLowerCase allowed req st Hpath).
      cbn [fst snd]. split; [apply skipn_all|].
      now exists (js "Invalid URL").
  - destruct (Bridge_webhook_answers toLowerCase method body st)
      as (evs & status & answer & Htr & Hev).
    exists evs, status, answer. split; [|exact Hev].
    now apply ProcFacts.emitted_of_trace.
Qed.

End HandlerFacts.

(* ===================================================================== *)
(** * Invariants of the handlers *)
(* ===================================================================== *)

Module SafetyFacts.
Import JS Json Proc Common Vocabulary Phases Frames FrameFacts HandlerFacts.

(** ** Message length *)

Ltac limit_ok :=
  first [ exact I | cbn; unfold slice0; apply firstn_le_length ].

Ltac within_limit :=
  keeps_all (@emitsOnly_refl withinLimit) (@emitsOnly_trans withinLimit)
            ltac:(emits_leaf ltac:(limit_ok)).

Lemma emitsOnly_emitted (A : Type) P (m : M A) st :
  emitsOnly P st (exec m st) -> Forall P (emitted m st).
Proof.
  intros (evs & Htr & Hev).
  now rewrite ProcFacts.emitted_of_trace with (evs := evs).
Qed.

(** X2: No handler sends the chat API a message text of more than 4000 code
    units. *)
Theorem no_message_exceeds_the_limit :
  forall (toLowerCase : jsstring -> jsstring) (allowed : list jsstring)
         (req : Server.Request) (method : jsstring) (body : WebhookBody)
         (st : State),
    Forall withinLimit
      (emitted (Server.handleRequest toLowerCase allowed req) st)
    /\ Forall withinLimit
         (emitted (Bridge.handleWebhook toLowerCase method body) st).
Proof.
  intros toLowerCase allowed req method body st. split; apply emitsOnly_emitted.
  - revert st.
    change (keeps (emitsOnly withinLimit)
              (Server.handleRequest toLowerCase allowed req)).
    unfold_handlers. within_limit.
  - revert st.
    change (keeps (emitsOnly withinLimit)
              (Bridge.handleWebhook toLowerCase method body)).
    unfold_handlers. within_limit.
Qed.

(** ** The typing timer *)

Lemma liveIntervals_app a b :
  liveIntervals (a ++ b) = (liveIntervals a + liveIntervals b)%Z.
Proof.
  induction a as [|e a IH]; [reflexivity|].
  destruct e; cbn [app liveIntervals]; rewrite IH; lia.
Qed.

Lemma keepsTimer_refl s : keepsTimer s s.
Proof. intros H. exact H. Qed.

Lemma keepsTimer_trans a b c : keepsTimer a b -> keepsTimer b c -> keepsTimer a c.
Proof. unfold keepsTimer. auto. Qed.

Lemma stopTypingLoop_keeps_timer : keeps keepsTimer stopTypingLoop.
Proof.
  intros [mu sel ti cf pf pe env ls ex ap nw tr].
  unfold keepsTimer, timerConsistent. ProcFacts.unfold_proc.
  destruct ti; cbn; [|auto]. rewrite liveIntervals_app. cbn. lia.
Qed.

Lemma startTypingLoop_keeps_timer chatId :
  keeps keepsTimer (startTypingLoop chatId).
Proof.
  intros [mu sel ti cf pf pe env ls ex ap nw tr].
  unfold keepsTimer, timerConsistent. ProcFacts.unfold_proc.
  destruct ti, ap; cbn; rewrite !liveIntervals_app; cbn; lia.
Qed.

Ltac timer_leaf :=
  idtac;
  lazymatch goal with
  | |- keeps _ stopTypingLoop => apply stopTypingLoop_keeps_timer
  | |- keeps _ (startTypingLoop _) => apply startTypingLoop_keeps_timer
  | |- keeps _ (modify _) =>
    apply keeps_modify; intros [? ? ? ? ? ? ? ? ? ? ? ?];
    unfold keepsTimer, timerConsistent;
    solve [ cbn; auto
          | repeat (match goal with
                    | |- context [match ?x with _ => _ end] => destruct x
                    end); cbn; auto ]
  | |- keeps _ (pop _ _ _) =>
    apply keeps_pop; [apply keepsTimer_refl|];
    intros ? [? ? ? ? ? ? ? ? ? ? ? ?];
    unfold keepsTimer, timerConsistent; cbn; auto
  | |- keeps _ (emit _) =>
    apply keeps_emit; intros [? ? ? ? ? ? ? ? ? ? ? ?];
    unfold keepsTimer, timerConsistent; cbn;
    rewrite liveIntervals_app; cbn; intros ->; lia
  end.

Ltac keeps_timer := keeps_all keepsTimer_refl keepsTimer_trans ltac:(timer_leaf).

(** X3: Typing intervals never pile up: when the number of intervals
    created and not cleared is one while the variable [typingInterval] is
    set and zero while it is not, every handler leaves it so.  At most
    one interval is live, and the variable holds it. *)
Theorem typing_intervals_never_accumulate :
  forall (toLowerCase : jsstring -> jsstring) (allowed : list jsstring)
         (req : Server.Request) (method : jsstring) (body : WebhookBody)
         (st : State),
    timerConsistent st ->
    timerConsistent (exec (Server.handleRequest toLowerCase allowed req) st)
    /\ timerConsistent (exec (Bridge.handleWebhook toLowerCase method body) st).
Proof.
  intros toLowerCase allowed req method body st H. split; revert st H.
  - change (keeps keepsTimer (Server.handleRequest toLowerCase allowed req)).
    unfold_handlers_but_timer. keeps_timer.
  - change (keeps keepsTimer (Bridge.handleWebhook toLowerCase method body)).
    unfold_handlers_but_timer. keeps_timer.
Qed.

(** ** The selection and its file *)

Lemma keepsMirror_refl s : keepsMirror s s.
Proof. intros H. exact H. Qed.

Lemma keepsMirror_trans a b c :
  keepsMirror a b -> keepsMirror b c -> keepsMirror a c.
Proof. unfold keepsMirror. auto. Qed.

Lemma saveSelectedPaneId_mirrors paneId :
  keeps keepsMirror (saveSelectedPaneId paneId).
Proof. intros [mu sel ti cf pf pe env ls ex ap nw tr] _. reflexivity. Qed.

Lemma clearSelectedPaneId_mirrors : keeps keepsMirror clearSelectedPaneId.
Proof.
  intros [mu sel ti cf pf pe env ls ex ap nw tr] _.
  unfold selectionMirrored. ProcFacts.unfold_proc. destruct pf; reflexivity.
Qed.

Ltac mirror_leaf :=
  idtac;
  lazymatch goal with
  | |- keeps _ (saveSelectedPaneId _) => apply saveSelectedPaneId_mirrors
  | |- keeps _ clearSelectedPaneId => apply clearSelectedPaneId_mirrors
  | |- _ =>
    field_leaf keepsMirror_refl ltac:(unfold keepsMirror, selectionMirrored)
  end.

(** X4: The selection in memory and the pane-id file never drift apart: a
    handler that starts with both equal ends with both equal. *)
Theorem selection_and_file_stay_equal :
  forall (toLowerCase : jsstring -> jsstring) (allowed : list jsstring)
         (req : Server.Request) (method : jsstring) (body : WebhookBody)
         (st : State),
    selectionMirrored st ->
    selectionMirrored (exec (Server.handleRequest toLowerCase allowed req) st)
    /\ selectionMirrored
         (exec (Bridge.handleWebhook toLowerCase method body) st).
Proof.
  intros toLowerCase allowed req method body st H. split; revert st H.
  - change (keeps keepsMirror (Server.handleRequest toLowerCase allowed req)).
    unfold_handlers_but_selection.
    keeps_all keepsMirror_refl keepsMirror_trans ltac:(mirror_leaf).
  - change (keeps keepsMirror (Bridge.handleWebhook toLowerCase method body)).
    unfold_handlers_but_selection.
    keeps_all keepsMirror_refl keepsMirror_trans ltac:(mirror_leaf).
Qed.

End SafetyFacts.

(* ===================================================================== *)
(** * The session state across handlers *)
(* ===================================================================== *)

Module SessionFacts.
Import JS Json Proc Common Vocabulary Phases Frames FrameFacts.

(** ** Runs that never throw *)

Lemma returns_ret (A : Type) (a : A) : returns (ret a).
Proof. intros s. now exists a. Qed.

Lemma returns_gets (A : Type) (f : State -> A) : returns (gets f).
Proof. intros s. now exists (f s). Qed.

Lemma returns_modify f : returns (modify f).
Proof. intros s. now exists tt. Qed.

Lemma returns_emit e : returns (emit e).
Proof. intros s. now exists tt. Qed.

Lemma returns_pop (A : Type) (queue : State -> list A) set (default : A) :
  returns (pop queue set default).
Proof. intros s. unfold pop. destruct (queue s); eexists; reflexivity. Qed.

Lemma returns_bind (A B : Type) (m : M A) (k : A -> M B) :
  returns m -> (forall a, returns (k a)) -> returns (bind m k).
Proof.
  intros Hm Hk s. unfold bind. destruct (Hm s) as [a Ha].
  destruct (m s) as [[a'|e] s1]; cbn in Ha; [|discriminate]. apply Hk.
Qed.

Lemma returns_tryCatch (A : Type) (m : M A) (h : jsstring -> M A) :
  (forall e, returns (h e)) -> returns (tryCatch m h).
Proof.
  intros Hh s. unfold tryCatch.
  destruct (m s) as [[a|e] s1]; [now exists a|apply Hh].
Qed.

Ltac returns_step :=
  idtac;
  lazymatch goal with
  | |- returns (ret _) => apply returns_ret
  | |- returns (gets _) => apply returns_gets
  | |- returns (modify _) => apply returns_modify
  | |- returns (emit _) => apply returns_emit
  | |- returns (pop _ _ _) => apply returns_pop
  | |- returns (bind _ _) => apply returns_bind; [|intro]
  | |- returns (tryCatch _ _) => apply returns_tryCatch; intro
  | |- returns (match ?x with _ => _ end) => destruct x
  end.

Ltac returns_all := repeat returns_step.

(** ** The mute flag *)

Lemma sameMute_refl s : sameMute s s.
Proof. reflexivity. Qed.

Lemma sameMute_trans a b c : sameMute a b -> sameMute b c -> sameMute a c.
Proof. unfold sameMute. congruence. Qed.

Ltac same_mute :=
  keeps_all sameMute_refl sameMute_trans
            ltac:(field_leaf sameMute_refl ltac:(unfold sameMute)).

(** X5: The mute flag is set by the command [/mute], reset by [/unmute] and
    changed by nothing else: no other command, no free text, no callback
    query and no hook request touches it. *)
Theorem mute_flag_follows_the_two_commands :
  forall (toLowerCase : jsstring -> jsstring) (allowed : list jsstring)
         (chatId : Z) (command args text : jsstring) (update : Update)
         (body : Server.HookBody) (st : State),
    isMuted (exec (Server.handleCommand chatId command args) st)
    = (if jseqb command (js "/mute") then true
       else if jseqb command (js "/unmute") then false
       else isMuted st)
    /\ isMuted (exec (Server.handleMessage toLowerCase chatId text) st)
       = isMuted st
    /\ isMuted (exec (Server.handleCallbackQuery allowed update) st) = isMuted st
    /\ isMuted (exec (Server.handleHookRequest body) st) = isMuted st.
Proof.
  intros toLowerCase allowed chatId command args text update body st.
  split; [|split; [|split]].
  - destruct (jseqb command (js "/mute")) eqn:Hmute;
      [|destruct (jseqb command (js "/unmute")) eqn:Hunmute].
    + apply AuthorizationFacts.jseqb_eq in Hmute. subst command.
      destruct st as [mu sel ti cf pf pe env ls ex ap nw tr].
      unfold Server.handleCommand.
      repeat match goal with
      | |- context [jseqb (js ?a) (js ?b)] =>
        let v := eval vm_compute in (jseqb (js a) (js b)) in
        change (jseqb (js a) (js b)) with v
      end.
      cbn [orb]. ProcFacts.unfold_proc. destruct ap; reflexivity.
    + apply AuthorizationFacts.jseqb_eq in Hunmute. subst command.
      destruct st as [mu sel ti cf pf pe env ls ex ap nw tr].
      unfold Server.handleCommand.
      repeat match goal with
      | |- context [jseqb (js ?a) (js ?b)] =>
        let v := eval vm_compute in (jseqb (js a) (js b)) in
        change (jseqb (js a) (js b)) with v
      end.
      cbn [orb]. ProcFacts.unfold_proc. destruct ap; reflexivity.
    + revert st.
      change (keeps sameMute (Server.handleCommand chatId command args)).
      unfold Server.handleCommand. rewrite Hmute, Hunmute.
      unfold_handlers. same_mute.
  - revert st.
    change (keeps sameMute (Server.handleMessage toLowerCase chatId text)).
    unfold_handlers. same_mute.
  - revert st.
    change (keeps sameMute (Server.handleCallbackQuery allowed update)).
    unfold_handlers. same_mute.
  - revert st. change (keeps sameMute (Server.handleHookRequest body)).
    unfold_handlers. same_mute.
Qed.

(** ** The chat-id file *)

Lemma sameChatFile_refl s : sameChatFile s s.
Proof. reflexivity. Qed.

Lemma sameChatFile_trans a b c :
  sameChatFile a b -> sameChatFile b c -> sameChatFile a c.
Proof. unfold sameChatFile. congruence. Qed.

Ltac same_chat_file :=
  keeps_all sameChatFile_refl sameChatFile_trans
            ltac:(field_leaf sameChatFile_refl ltac:(unfold sameChatFile)).

Lemma saved_then_kept (m : M unit) chatId st :
  keeps sameChatFile m ->
  chatIdFile (exec (saveChatId chatId ;; m) st) = Some (String_Z chatId).
Proof.
  intros H. unfold exec, bind. cbn.
  rewrite (H (set_chatIdFile (Some (String_Z chatId))
                (set_trace (trace st ++ [WriteFile CHAT_ID_FILE (String_Z chatId)]) st))).
  reflexivity.
Qed.

Lemma getChatId_reads st chatId :
  chatIdFile st = Some (String_Z chatId) ->
  value Server.getChatId st = Ok (Some (String_Z chatId)).
Proof.
  intros H. unfold value, Server.getChatId, bind, gets, ret. cbn.
  rewrite H. cbn [option_map fst]. now rewrite NumberFacts.trim_String_Z.
Qed.

(** X6: Whatever a command or a free text does afterwards, and whether it
    returns or throws, the chat it came from is the one the hook endpoint
    reads back: [getChatId] returns the decimal text of the chat id that
    [saveChatId] wrote, unchanged by the trimming. *)
Theorem hook_reads_back_the_last_chat :
  forall (toLowerCase : jsstring -> jsstring) (chatId : Z)
         (command args text : jsstring) (st : State),
    value Server.getChatId (exec (Server.handleCommand chatId command args) st)
    = Ok (Some (String_Z chatId))
    /\ value Server.getChatId
         (exec (Server.handleMessage toLowerCase chatId text) st)
       = Ok (Some (String_Z chatId))
    /\ chatIdFile (exec (Bridge.handleCommand chatId command args) st)
       = Some (String_Z chatId)
    /\ chatIdFile (exec (Bridge.handleMessage toLowerCase chatId text) st)
       = Some (String_Z chatId).
Proof.
  intros toLowerCase chatId command args text st.
  split; [|split; [|split]].
  - apply getChatId_reads.
    unfold Server.handleCommand. apply saved_then_kept.
    unfold_handlers. same_chat_file.
  - apply getChatId_reads.
    unfold Server.handleMessage. apply saved_then_kept.
    unfold_handlers. same_chat_file.
  - unfold Bridge.handleCommand. apply saved_then_kept.
    unfold_handlers. same_chat_file.
  - unfold Bridge.handleMessage. apply saved_then_kept.
    unfold_handlers. same_chat_file.
Qed.

End SessionFacts.

(* ===================================================================== *)
(** * The command [/stop] *)
(* ===================================================================== *)

Module StopFacts.
Import JS Json Proc Common Vocabulary Phases Frames FrameFacts SessionFacts.

(** The literal command names compared by [handleCommand]. *)
Ltac decide_commands :=
  repeat match goal with
  | |- context [jseqb (js ?a) (js ?b)] =>
    let v := eval vm_compute in (jseqb (js a) (js b)) in
    change (jseqb (js a) (js b)) with v
  end;
  cbn [orb].

(** X7: [/stop] never fails and always leaves the typing timer stopped: it
    returns whether or not a pane was found and whether or not the
    escape key could be sent, and afterwards no typing timer is set (in
    the first bridge the pending marker is removed as well). *)
Theorem stop_command_always_settles :
  forall (chatId : Z) (args : jsstring) (st : State),
    value (Server.handleCommand chatId (js "/stop") args) st = Ok tt
    /\ typingInterval (exec (Server.handleCommand chatId (js "/stop") args) st)
       = None
    /\ value (Bridge.handleCommand chatId (js "/stop") args) st = Ok tt
    /\ typingInterval (exec (Bridge.handleCommand chatId (js "/stop") args) st)
       = None
    /\ pendingFile (exec (Bridge.handleCommand chatId (js "/stop") args) st)
       = None.
Proof.
  intros chatId args st.
  destruct st as [mu sel ti cf pf pe env ls ex ap nw tr].
  unfold Server.handleCommand, Bridge.handleCommand. decide_commands.
  unfold weztermSendEscape, findClaudePaneId, Bridge.clearPending.
  ProcFacts.unfold_proc.
  repeat split; MessageFacts.crunch; reflexivity.
Qed.

End StopFacts.

(* ===================================================================== *)
(** * What reaches the terminal *)
(* ===================================================================== *)

Module TerminalFacts.
Import JS Json Proc Common Vocabulary Phases Frames FrameFacts SessionFacts.

Lemma noDispatch_refl s : emitsOnly (fun e => isDispatch e = false) s s.
Proof. apply emitsOnly_refl. Qed.

Lemma noDispatch_trans a b c :
  emitsOnly (fun e => isDispatch e = false) a b ->
  emitsOnly (fun e => isDispatch e = false) b c ->
  emitsOnly (fun e => isDispatch e = false) a c.
Proof. apply emitsOnly_trans. Qed.

Ltac no_dispatch :=
  keeps_all noDispatch_refl noDispatch_trans
            ltac:(emits_leaf ltac:(reflexivity)).

(** X8: Of all the commands only [/stop], [/clear] and [/resume] put anything
    into the terminal: every other command runs no shell command except
    the pane listing. *)
Theorem other_commands_never_reach_the_terminal :
  forall (chatId : Z) (command args : jsstring) (st : State),
    jseqb command (js "/stop") = false ->
    jseqb command (js "/clear") = false ->
    jseqb command (js "/resume") = false ->
    Forall (fun e => isDispatch e = false)
           (emitted (Server.handleCommand chatId command args) st)
    /\ Forall (fun e => isDispatch e = false)
              (emitted (Bridge.handleCommand chatId command args) st).
Proof.
  intros chatId command args st Hstop Hclear Hresume.
  split; apply SafetyFacts.emitsOnly_emitted; revert st.
  - change (keeps (emitsOnly (fun e => isDispatch e = false))
                  (Server.handleCommand chatId command args)).
    unfold Server.handleCommand. rewrite Hstop, Hclear, Hresume.
    unfold_handlers. no_dispatch.
  - change (keeps (emitsOnly (fun e => isDispatch e = false))
                  (Bridge.handleCommand chatId command args)).
    unfold Bridge.handleCommand. rewrite Hstop, Hclear, Hresume.
    unfold_handlers. no_dispatch.
Qed.

End TerminalFacts.

(* ===================================================================== *)
(** * The pane a dispatch goes to *)
(* ===================================================================== *)

Module PaneFacts.
Import JS Json Proc Common Vocabulary Phases Frames FrameFacts SessionFacts.

Local Opaque listed.

Lemma Server_weztermSendText_targets text st :
  exists evs,
    trace (exec (Server.weztermSendText text) st) = trace st ++ evs
    /\ Forall (fun e => isDispatch e = true ->
                 exists paneId,
                   listed (nextListing st) paneId = true
                   /\ typesInto paneId text e) evs.
Proof.
  destruct st as [mu sel ti cf pf pe env ls ex ap nw tr].
  unfold nextListing, typesInto, Server.weztermSendText,
    findClaudePaneId, sendTextThenReturn.
  ProcFacts.unfold_proc. cbn [trace listings hd fst snd].
  MessageFacts.crunch.
  all: eexists; (split; [MessageFacts.close_trace|]).
  all: repeat constructor.
  all: intros Hd; try (vm_compute in Hd; discriminate Hd).
  all: eexists; (split; [apply negb_false_iff; eassumption|]).
  all: first [left; reflexivity|right; reflexivity].
Qed.

(** X9: The bridge server types only into a pane of the listing it has just
    fetched: every shell command of [weztermSendText] other than the
    pane listing is the text command or the return-key command for a pane
    that this listing contains. *)
Theorem Server_types_only_into_listed_panes :
  forall (text : jsstring) (st : State) (e : Event),
    In e (emitted (Server.weztermSendText text) st) ->
    isDispatch e = true ->
    exists paneId,
      listed (nextListing st) paneId = true /\ typesInto paneId text e.
Proof.
  intros text st e Hin Hd.
  destruct (Server_weztermSendText_targets text st) as (evs & Htr & Hall).
  rewrite ProcFacts.emitted_of_trace with (evs := evs) in Hin by exact Htr.
  rewrite Forall_forall in Hall. now apply Hall.
Qed.

(** X10: [findClaudePaneId] never throws, and the pane it returns is either the
    selected pane, found in the listing fetched for the check, or the
    non-empty pane id of the environment; in the first case the selection
    and its file are left as they were. *)
Theorem findClaudePaneId_returns_a_checked_pane :
  forall st : State,
    exists result,
      value findClaudePaneId st = Ok result
      /\ forall paneId, result = Some paneId ->
         (selectedPaneId st = Some paneId
          /\ listed (nextListing st) paneId = true
          /\ selectedPaneId (exec findClaudePaneId st) = Some paneId
          /\ paneIdFile (exec findClaudePaneId st) = paneIdFile st)
         \/ (envPaneId st = Some paneId /\ paneId <> []
             /\ selectedPaneId (exec findClaudePaneId st) = None).
Proof.
  intros st. destruct st as [mu sel ti cf pf pe env ls ex ap nw tr].
  unfold nextListing, findClaudePaneId. ProcFacts.unfold_proc.
  cbn [trace listings hd fst snd selectedPaneId envPaneId paneIdFile].
  MessageFacts.crunch; eexists; (split; [reflexivity|]);
    intros paneId Hres; try discriminate Hres;
    injection Hres as <-;
    first [ left; repeat split; assumption
          | right; repeat split; try reflexivity; discriminate ].
Qed.

Local Transparent listed.

End PaneFacts.

(* ===================================================================== *)
(** * Delivery of a completion *)
(* ===================================================================== *)

Module DeliveryFacts.
Import JS Json Proc Common Vocabulary Phases Frames FrameFacts SessionFacts.

(** The header cannot be built exactly when the working directory or
    the session id of the body is a truthy value that cannot be
    printed. *)
Lemma htmlHeader_none cwd sessionId :
  Server.htmlHeader cwd sessionId = None
  <-> (exists v, cwd = Some v /\ truthy v = true /\ toString v = None)
      \/ (exists v, sessionId = Some v /\ truthy v = true /\ toString v = None).
Proof.
  unfold Server.htmlHeader, Server.orDefault. split.
  - destruct cwd as [c|]; [destruct (truthy c) eqn:Hc|].
    + destruct (toString c) eqn:Hp; [|intros _; left; now exists c].
      destruct sessionId as [s|]; [destruct (truthy s) eqn:Hs|];
        try discriminate.
      destruct (toString s) eqn:Hq; [discriminate|].
      intros _. right. now exists s.
    + destruct sessionId as [s|]; [destruct (truthy s) eqn:Hs|];
        try discriminate.
      destruct (toString s) eqn:Hq; [discriminate|].
      intros _. right. now exists s.
    + destruct sessionId as [s|]; [destruct (truthy s) eqn:Hs|];
        try discriminate.
      destruct (toString s) eqn:Hq; [discriminate|].
      intros _. right. now exists s.
  - intros [(v & -> & Ht & Hp)|(v & -> & Ht & Hp)]; rewrite Ht, Hp.
    + reflexivity.
    + destruct cwd as [c|]; [destruct (truthy c); [destruct (toString c)|]|];
        reflexivity.
Qed.

Local Opaque ServerMarkup.markdownToTelegramHtml Server.htmlHeader.

(** X11: A completion callback with a text, while the mute flag is off and a
    chat id is on file.  The typing timer is stopped.  When the header
    can be built, the header and the converted text, cut at 4000 code
    units, are sent as HTML, and only if the chat API refuses that call
    the same text is sent once more without a parse mode; the answer is
    200 when the last attempt succeeded and 500 with the description of
    the chat API otherwise.  When the header cannot be built, which is
    the case exactly when the working directory or the session id of the
    body is a truthy value that cannot be printed, nothing is sent and
    the answer is 500 with the message of the error. *)
Theorem hook_delivery_falls_back_to_plain_text :
  forall (data : json) (m chat : jsstring) (st : State),
    prop data (js "message") = Some (JStr m) ->
    m <> [] ->
    isMuted st = false ->
    chatIdFile st = Some chat ->
    trim chat <> [] ->
    emitted (Server.handleHookRequest (Server.Parsed data)) st
    = clearEvents st
        ++ match Server.htmlHeader (prop data (js "cwd"))
                   (prop data (js "sessionId")) with
           | Some header =>
             let text :=
               slice0 MAX_MESSAGE_LENGTH
                 (header ++ ServerMarkup.markdownToTelegramHtml m) in
             Api (SendMessage (JStr (trim chat)) text (Some (js "HTML")))
             :: (if ok (apiAnswer 0 st) then [Respond 200 (Server.okBody [])]
                 else [Api (SendMessage (JStr (trim chat)) text None);
                       if ok (apiAnswer 1 st)
                       then Respond 200 (Server.okBody [])
                       else Respond 500
                              (Server.errorBody (description (apiAnswer 1 st)))])
           | None =>
             [Respond 500
                (Server.errorBody
                   (Some (js "Cannot convert object to primitive value")))]
           end
    /\ (Server.htmlHeader (prop data (js "cwd")) (prop data (js "sessionId"))
        = None
        <-> (exists v, prop data (js "cwd") = Some v
                       /\ truthy v = true /\ toString v = None)
            \/ (exists v, prop data (js "sessionId") = Some v
                          /\ truthy v = true /\ toString v = None)).
Proof.
  intros data m chat st Hmsg Hm Hmute Hchat Htrim.
  split; [|apply htmlHeader_none].
  apply ProcFacts.emitted_of_trace.
  destruct st as [mu sel ti cf pf pe env ls ex ap nw tr].
  cbn in Hmute, Hchat. subst mu cf.
  destruct data; try discriminate Hmsg.
  destruct m as [|c0 m0]; [congruence|].
  cbv beta iota zeta delta
    [Server.handleHookRequest Server.getChatId Server.sendMessageWithFallback
     Server.convertMessage Server.buildHeader clearEvents apiAnswer prop] in *.
  rewrite Hmsg.
  cbv beta iota delta [truthy].
  ProcFacts.unfold_proc.
  destruct (Server.htmlHeader (lookup (js "cwd") fields)
              (lookup (js "sessionId") fields)) as [header|];
    destruct ti; cbn; (destruct (trim chat) as [|c r]; [congruence|]);
    try (destruct ap as [|[o1 d1] [|[o2 d2] rest]]; try destruct o1;
         try destruct o2); cbn; rewrite <- ?app_assoc; reflexivity.
Qed.

Local Transparent ServerMarkup.markdownToTelegramHtml Server.htmlHeader.

End DeliveryFacts.

(* ===================================================================== *)
(** * Free text through the webhook *)
(* ===================================================================== *)

Module WebhookFacts.
Import JS Json Proc Common Vocabulary Phases Frames FrameFacts SessionFacts.

Lemma startsWith_slash_prefix s p :
  startsWith s (SLASH :: p) = true -> startsWith s [SLASH] = true.
Proof.
  destruct s as [|c r]; [discriminate|]. cbn [startsWith].
  intros H. apply andb_true_iff in H. destruct H as [H _]. rewrite H.
  now destruct r.
Qed.

(** Every denylisted prefix starts with a slash. *)
Lemma isBlocked_slash s : isBlocked s = true -> startsWith s [SLASH] = true.
Proof.
  unfold isBlocked, BLOCKED_COMMANDS. cbn [existsb].
  change (js "/mcp") with (SLASH :: js "mcp").
  change (js "/help") with (SLASH :: js "help").
  change (js "/config") with (SLASH :: js "config").
  change (js "/settings") with (SLASH :: js "settings").
  change (js "/model") with (SLASH :: js "model").
  change (js "/vim") with (SLASH :: js "vim").
  change (js "/terminal-setup") with (SLASH :: js "terminal-setup").
  rewrite !orb_true_iff.
  intros [H|[H|[H|[H|[H|[H|[H|H]]]]]]]; try discriminate H;
    exact (startsWith_slash_prefix _ _ H).
Qed.

Lemma free_text_is_not_blocked toLowerCase text :
  keepsSlash toLowerCase ->
  startsWith text [SLASH] = false ->
  isBlocked (toLowerCase text) = false.
Proof.
  intros Hlower Hslash.
  destruct (isBlocked (toLowerCase text)) eqn:Hb; [|reflexivity].
  apply isBlocked_slash, Hlower in Hb. congruence.
Qed.

(** The lower-casing of ASCII letters maps no other character to a
    slash. *)
Lemma lowerASCII_keepsSlash : keepsSlash lowerASCII.
Proof.
  intros [|c r]; [discriminate|]. cbn [startsWith lowerASCII map].
  replace (startsWith (map lowerChar r) []) with true
    by (destruct r; reflexivity).
  replace (startsWith r []) with true by (destruct r; reflexivity).
  rewrite !andb_true_r. intros H. apply N.eqb_eq in H. apply N.eqb_eq.
  unfold lowerChar, SLASH in *.
  destruct ((65 <=? c)%N && (c <=? 90)%N) eqn:E; [|exact H].
  apply andb_true_iff in E. destruct E as [E1 E2].
  apply N.leb_le in E1. lia.
Qed.

(** ** The answer to a free text *)

Lemma anything_refl s : emitsOnly (fun _ => True) s s.
Proof. apply emitsOnly_refl. Qed.

Lemma anything_trans a b c :
  emitsOnly (fun _ => True) a b -> emitsOnly (fun _ => True) b c ->
  emitsOnly (fun _ => True) a c.
Proof. apply emitsOnly_trans. Qed.

Ltac grows :=
  keeps_all anything_refl anything_trans ltac:(emits_leaf ltac:(exact I)).

Lemma then_emit_is_last (A : Type) (m : M A) e st :
  returns m -> keeps (emitsOnly (fun _ => True)) m ->
  exists evs, emitted (m ;; emit e) st = evs ++ [e]
              /\ value (m ;; emit e) st = Ok tt.
Proof.
  intros Hr Hk. destruct (Hr st) as [a Ha]. destruct (Hk st) as (evs & Htr & _).
  exists evs. unfold value, bind. split.
  - apply ProcFacts.emitted_of_trace. unfold exec, bind.
    destruct (m st) as [[u|x] s1]; cbn in *; [|discriminate].
    rewrite Htr. destruct s1; cbn. now rewrite app_assoc.
  - destruct (m st) as [[u|x] s1]; cbn in *; [reflexivity|discriminate].
Qed.

Lemma Server_handleMessage_returns toLowerCase chatId text :
  returns (Server.handleMessage toLowerCase chatId text).
Proof. unfold_handlers. returns_all. Qed.

Lemma Bridge_handleMessage_returns toLowerCase chatId text :
  returns (Bridge.handleMessage toLowerCase chatId text).
Proof. unfold_handlers. returns_all. Qed.

(** X13: A free text never makes the webhook fail: whatever happens to the
    dispatch (no pane, a pane that is gone, a failing command), the error
    stays inside [handleMessage] and the request is answered 200 OK, as
    the last effect of the handler.  This holds for every allow-list, the
    unauthorized chat included. *)
Theorem free_text_is_answered_200 :
  forall (toLowerCase : jsstring -> jsstring) (allowed : list jsstring)
         (m : Message) (st : State),
    startsWith (match msg_text m with Some t => t | None => [] end) [SLASH]
    = false ->
    (exists evs,
       emitted (Server.handleTelegramWebhook toLowerCase allowed
                  (Envelope (mkUpdate (Some m) None))) st
       = evs ++ [Respond 200 (Text (js "OK"))])
    /\ (exists evs,
          emitted (Bridge.handleWebhook toLowerCase (js "POST")
                     (Envelope (mkUpdate (Some m) None))) st
          = evs ++ [Respond 200 (Text (js "OK"))]).
Proof.
  intros toLowerCase allowed m st Hslash. split.
  - unfold Server.handleTelegramWebhook, Server.handleUpdate,
      Server.handleCallbackQuery, Server.respondOK.
    cbn [message callback_query]. rewrite Hslash.
    set (h := fun _ : jsstring => emit _).
    assert (H : forall (A : Type) (b : M A) s,
               returns b -> keeps (emitsOnly (fun _ => True)) b ->
               exists evs,
                 emitted (tryCatch (b ;; emit (Respond 200 (Text (js "OK")))) h) s
                 = evs ++ [Respond 200 (Text (js "OK"))]).
    { intros A b s Hb Hk.
      destruct (then_emit_is_last (Respond 200 (Text (js "OK"))) s Hb Hk)
        as (evs & He & Hv).
      exists evs. rewrite <- He. unfold emitted, exec, value, tryCatch in *.
      destruct ((b ;; emit (Respond 200 (Text (js "OK")))) s) as [[u|x] s1];
        [reflexivity|discriminate]. }
    destruct (negb (Server.isAuthorized allowed (msg_chat_id m))).
    + apply H; [unfold_handlers; returns_all|unfold_handlers; grows].
    + apply H.
      * destruct (trim _); [apply returns_ret|apply Server_handleMessage_returns].
      * destruct (trim _); [apply keeps_ret, anything_refl|].
        unfold_handlers. grows.
  - unfold Bridge.handleWebhook, Bridge.handleUpdate.
    change (negb (jseqb (js "POST") (js "POST"))) with false. cbv iota.
    cbn [message callback_query]. rewrite Hslash.
    set (h := fun _ : jsstring => emit _).
    set (b := (_ ;; ret tt)).
    assert (Hb : returns b).
    { subst b. apply returns_bind; [|intro; apply returns_ret].
      destruct (trim _); [apply returns_ret|apply Bridge_handleMessage_returns]. }
    assert (Hk : keeps (emitsOnly (fun _ => True)) b).
    { subst b. apply (keeps_bind anything_trans);
        [|intro; apply keeps_ret, anything_refl].
      destruct (trim _); [apply keeps_ret, anything_refl|].
      unfold_handlers. grows. }
    destruct (then_emit_is_last (Respond 200 (Text (js "OK"))) st Hb Hk)
      as (evs & He & Hv).
    exists evs. rewrite <- He. unfold emitted, exec, value, tryCatch in *.
    destruct ((b ;; emit (Respond 200 (Text (js "OK")))) st) as [[u|x] s1];
      [reflexivity|discriminate].
Qed.

(** ** The denylist check of [handleMessage] *)

(** X12: The denylist check of [handleMessage] never fires for a text
    that arrives through the webhook.  The webhook hands a text to
    [handleMessage] only when it does not start with a slash, every
    denylisted prefix starts with one, and lower-casing puts no slash in
    front.  So for every message of an authorized chat whose text has no
    leading slash and is not blank, once the pane check has resolved a
    pane, the text is not refused: the handler starts the typing timer
    and runs the dispatch of the text, and what follows (the error reply
    of a failed dispatch, the answer to the request) follows that
    dispatch.  A denylisted command after a leading space is forwarded to
    the terminal in this way. *)
Theorem free_text_is_never_on_the_denylist :
  forall (toLowerCase : jsstring -> jsstring) (allowed : list jsstring)
         (u : Update) (chatId : Z) (text paneId : jsstring) (st : State),
    keepsSlash toLowerCase ->
    message u = Some (mkMessage chatId (Some text)) ->
    Server.isAuthorized allowed chatId = true ->
    startsWith text [SLASH] = false ->
    trim text <> [] ->
    value (paneCheck chatId) st = Ok (Some paneId) ->
    isBlocked (toLowerCase text) = false
    /\ exists rest,
         trace (exec (Server.handleTelegramWebhook toLowerCase allowed
                        (Envelope u)) st)
         = trace (exec (Server.weztermSendText text)
                    (exec (startTypingLoop chatId)
                       (exec (paneCheck chatId) st)))
             ++ rest.
Proof.
  intros toLowerCase allowed u chatId text paneId st
         Hlower Hm Hauth Hslash Htrim Hcheck.
  assert (Hblocked : isBlocked (toLowerCase text) = false)
    by now apply free_text_is_not_blocked.
  split; [exact Hblocked|].
  destruct (MessageFacts.Server_free_text toLowerCase st chatId text
              Hcheck Hblocked)
    as (_ & _ & _ & _ & Hfinal & _).
  cbv zeta in Hfinal.
  set (sent := exec (Server.weztermSendText text)
                 (exec (startTypingLoop chatId) (exec (paneCheck chatId) st)))
    in *.
  assert (Hsent : exists r1,
             trace (exec (Server.handleMessage toLowerCase chatId text) st)
             = trace sent ++ r1).
  { destruct (value (Server.weztermSendText text) _) as [b|e].
    - destruct Hfinal as [-> _]. exists []. now rewrite app_nil_r.
    - destruct Hfinal as [_ ->]. eexists. reflexivity. }
  destruct Hsent as (r1 & Hr1).
  unfold Server.handleTelegramWebhook.
  rewrite (MessageFacts.Server_free_text_is_handled
             toLowerCase allowed u Hm Hauth Hslash Htrim).
  destruct (Server_handleMessage_returns toLowerCase chatId text st)
    as [[] Hret].
  set (h := fun _ : jsstring => emit _).
  assert (Hrest : keeps (emitsOnly (fun _ => True))
                    (tryCatch (Server.handleCallbackQuery allowed u) h))
    by (subst h; unfold_handlers; grows).
  unfold exec in *. unfold tryCatch, bind in *.
  destruct (Server.handleMessage toLowerCase chatId text st) as [[[]|e] final];
    cbn [fst snd] in *; [|discriminate Hret].
  destruct (Hrest final) as (r2 & Hr2 & _).
  exists (r1 ++ r2). now rewrite Hr2, Hr1, app_assoc.
Qed.

End WebhookFacts.

(* ===================================================================== *)
(** * Edge cases of a dispatch *)
(* ===================================================================== *)

Module EdgeFacts.
Import JS Json Proc Common Vocabulary Phases Frames FrameFacts SessionFacts.

(** X14: A dispatch is the text command followed by the return key, and the
    return key is sent only after the text went in: when the text command
    fails, nothing else is run and its error is thrown; when it succeeds,
    the return-key command is run and its error, if any, is thrown. *)
Theorem return_key_follows_only_a_sent_text :
  forall (paneId text : jsstring) (st : State),
    emitted (sendTextThenReturn paneId text) st
    = Exec (sendTextCommand paneId text)
      :: match execAnswer 0 st with
         | Some _ => []
         | None => [Exec (sendKeyCommand paneId (js "`r"))]
         end
    /\ value (sendTextThenReturn paneId text) st
       = match execAnswer 0 st, execAnswer 1 st with
         | Some message, _ => Throw message
         | None, Some message => Throw message
         | None, None => Ok true
         end.
Proof.
  intros paneId text st.
  destruct st as [mu sel ti cf pf pe env ls ex ap nw tr].
  split; [apply ProcFacts.emitted_of_trace|];
    unfold sendTextThenReturn, execAnswer; ProcFacts.unfold_proc;
    destruct ex as [|[m1|] [|[m2|] ex]]; cbn; rewrite <- ?app_assoc;
    reflexivity.
Qed.

(** X15: A free text while no pane is selected and none is configured: the
    chat id is saved, the guidance is sent, and that is all; nothing is
    typed, the panes are not even listed, and the typing timer and the
    pending marker are left alone. *)
Theorem free_text_without_pane_gets_guidance :
  forall (toLowerCase : jsstring -> jsstring) (chatId : Z) (text : jsstring)
         (st : State),
    selectedPaneId st = None ->
    noPane (envPaneId st) = true ->
    let reply :=
      Api (SendMessage (chatJson chatId)
             (slice0 MAX_MESSAGE_LENGTH noPaneGuidance) (Some (js "HTML"))) in
    emitted (Server.handleMessage toLowerCase chatId text) st
    = [WriteFile CHAT_ID_FILE (String_Z chatId); reply]
    /\ emitted (Bridge.handleMessage toLowerCase chatId text) st
       = [WriteFile CHAT_ID_FILE (String_Z chatId); reply]
    /\ typingInterval (exec (Server.handleMessage toLowerCase chatId text) st)
       = typingInterval st
    /\ typingInterval (exec (Bridge.handleMessage toLowerCase chatId text) st)
       = typingInterval st
    /\ pendingFile (exec (Bridge.handleMessage toLowerCase chatId text) st)
       = pendingFile st.
Proof.
  intros toLowerCase chatId text st Hsel Henv reply. subst reply.
  destruct st as [mu sel ti cf pf pe env ls ex ap nw tr].
  cbn in Hsel, Henv. subst sel.
  repeat split; try apply ProcFacts.emitted_of_trace;
    unfold Server.handleMessage, Bridge.handleMessage, findClaudePaneId;
    ProcFacts.unfold_proc;
    destruct env as [[|c r]|]; try discriminate Henv;
    destruct ap; cbn; rewrite <- ?app_assoc; reflexivity.
Qed.

End EdgeFacts.

(* ===================================================================== *)
(** * Failures and the hook endpoint *)
(* ===================================================================== *)

Module FailureFacts.
Import JS Json Proc Common Vocabulary Phases Frames FrameFacts SessionFacts.

Lemma Server_handleCommand_returns chatId command args :
  jseqb command (js "/clear") = false ->
  jseqb command (js "/resume") = false ->
  returns (Server.handleCommand chatId command args).
Proof.
  intros Hclear Hresume. unfold Server.handleCommand.
  rewrite Hclear, Hresume. unfold_handlers. returns_all.
Qed.

Lemma Bridge_handleCommand_returns chatId command args :
  jseqb command (js "/clear") = false ->
  jseqb command (js "/resume") = false ->
  returns (Bridge.handleCommand chatId command args).
Proof.
  intros Hclear Hresume. unfold Bridge.handleCommand.
  rewrite Hclear, Hresume. unfold_handlers. returns_all.
Qed.

Lemma noSend_refl s : emitsOnly (fun e => isSendMessage e = false) s s.
Proof. apply emitsOnly_refl. Qed.

Lemma noSend_trans a b c :
  emitsOnly (fun e => isSendMessage e = false) a b ->
  emitsOnly (fun e => isSendMessage e = false) b c ->
  emitsOnly (fun e => isSendMessage e = false) a c.
Proof. apply emitsOnly_trans. Qed.

Ltac no_send :=
  keeps_all noSend_refl noSend_trans ltac:(emits_leaf ltac:(reflexivity)).

Lemma failsSilently_returns (A : Type) (m : M A) : returns m -> failsSilently m.
Proof. intros H s. destruct (H s) as [a Ha]. now rewrite Ha. Qed.

Lemma failsSilently_bind (A B : Type) (m : M A) (k : A -> M B) :
  keeps (emitsOnly (fun e => isSendMessage e = false)) m ->
  (forall a, failsSilently (k a)) ->
  failsSilently (bind m k).
Proof.
  intros Hm Hk s. unfold bind. specialize (Hm s).
  destruct (m s) as [[a|e] s1]; cbn [fst snd] in *; [|exact Hm].
  specialize (Hk a s1). destruct (k a s1) as [[b|e] s2]; cbn [fst snd] in *;
    [exact I|].
  eapply emitsOnly_trans; eassumption.
Qed.

Lemma saveChatId_no_send chatId :
  keeps (emitsOnly (fun e => isSendMessage e = false)) (saveChatId chatId).
Proof. unfold_handlers. no_send. Qed.

Lemma findClaudePaneId_no_send :
  keeps (emitsOnly (fun e => isSendMessage e = false)) findClaudePaneId.
Proof. unfold_handlers. no_send. Qed.

Lemma Server_weztermSendText_no_send text :
  keeps (emitsOnly (fun e => isSendMessage e = false))
        (Server.weztermSendText text).
Proof. unfold_handlers. no_send. Qed.

Lemma Bridge_weztermSendText_no_send text :
  keeps (emitsOnly (fun e => isSendMessage e = false))
        (Bridge.weztermSendText text).
Proof. unfold_handlers. no_send. Qed.

Lemma reply_returns chatId text : returns (sendMessage chatId text ;; ret tt).
Proof. unfold_handlers. returns_all. Qed.

Lemma Server_forward_fails_silently chatId literal done :
  failsSilently (saveChatId chatId ;; Server.forward chatId literal done).
Proof.
  apply failsSilently_bind; [apply saveChatId_no_send|intros _].
  unfold Server.forward.
  apply failsSilently_bind; [apply findClaudePaneId_no_send|intros [p|]].
  - apply failsSilently_bind; [apply Server_weztermSendText_no_send|intros _].
    apply failsSilently_returns, reply_returns.
  - apply failsSilently_returns, reply_returns.
Qed.

Lemma Bridge_forward_fails_silently chatId literal done :
  failsSilently (saveChatId chatId ;; Bridge.forward chatId literal done).
Proof.
  apply failsSilently_bind; [apply saveChatId_no_send|intros _].
  unfold Bridge.forward.
  apply failsSilently_bind; [apply findClaudePaneId_no_send|intros [p|]].
  - apply failsSilently_bind; [apply Bridge_weztermSendText_no_send|intros _].
    apply failsSilently_returns, reply_returns.
  - apply failsSilently_returns, reply_returns.
Qed.

Lemma silent_run (A : Type) (m : M A) st e :
  failsSilently m -> value m st = Throw e ->
  Forall (fun ev => isSendMessage ev = false) (emitted m st).
Proof.
  intros H He. specialize (H st). unfold value in He. rewrite He in H.
  now apply SafetyFacts.emitsOnly_emitted.
Qed.

(** X16: A command fails only when it is [/clear] or [/resume], and then it
    fails silently: the error of the dispatch leaves the command handler
    uncaught, and no message at all has been sent to the chat.  Every
    other command returns. *)
Theorem only_forwarding_commands_fail_and_silently :
  forall (chatId : Z) (command args e : jsstring) (st : State),
    (value (Server.handleCommand chatId command args) st = Throw e ->
     (command = js "/clear" \/ command = js "/resume")
     /\ Forall (fun ev => isSendMessage ev = false)
               (emitted (Server.handleCommand chatId command args) st))
    /\ (value (Bridge.handleCommand chatId command args) st = Throw e ->
        (command = js "/clear" \/ command = js "/resume")
        /\ Forall (fun ev => isSendMessage ev = false)
                  (emitted (Bridge.handleCommand chatId command args) st)).
Proof.
  intros chatId command args e st.
  destruct (jseqb command (js "/clear")) eqn:Hclear;
    [|destruct (jseqb command (js "/resume")) eqn:Hresume].
  - apply AuthorizationFacts.jseqb_eq in Hclear. subst command.
    split; intros He; (split; [now left|]).
    + exact (@silent_run _ _ _ _ (Server_forward_fails_silently chatId _ _) He).
    + exact (@silent_run _ _ _ _ (Bridge_forward_fails_silently chatId _ _) He).
  - apply AuthorizationFacts.jseqb_eq in Hresume. subst command.
    split; intros He; (split; [now right|]).
    + exact (@silent_run _ _ _ _ (Server_forward_fails_silently chatId _ _) He).
    + exact (@silent_run _ _ _ _ (Bridge_forward_fails_silently chatId _ _) He).
  - split; intros He; exfalso.
    + destruct (@Server_handleCommand_returns chatId command args Hclear Hresume st)
        as [a Ha].
      unfold value in He. rewrite Ha in He. discriminate.
    + destruct (@Bridge_handleCommand_returns chatId command args Hclear Hresume st)
        as [a Ha].
      unfold value in He. rewrite Ha in He. discriminate.
Qed.

(** ** The hook endpoint *)

Lemma notifiesOnly_refl s : notifiesOnly s s.
Proof. split; [apply emitsOnly_refl|repeat split]. Qed.

Lemma notifiesOnly_trans a b c :
  notifiesOnly a b -> notifiesOnly b c -> notifiesOnly a c.
Proof.
  intros (E1 & A1 & B1 & C1 & D1 & F1 & G1) (E2 & A2 & B2 & C2 & D2 & F2 & G2).
  split; [eapply emitsOnly_trans; eassumption|].
  repeat split; congruence.
Qed.

Ltac notifies_leaf :=
  idtac;
  lazymatch goal with
  | |- keeps _ (modify _) =>
    apply keeps_modify; intros [? ? ? ? ? ? ? ? ? ? ? ?];
    (split; [apply emitsOnly_same_trace; reflexivity|repeat split])
  | |- keeps _ (pop _ _ _) =>
    apply keeps_pop; [apply notifiesOnly_refl|];
    intros ? [? ? ? ? ? ? ? ? ? ? ? ?];
    (split; [apply emitsOnly_same_trace; reflexivity|repeat split])
  | |- keeps _ (emit _) =>
    apply keeps_emit; intros [? ? ? ? ? ? ? ? ? ? ? ?];
    (split; [apply emitsOnly_one; reflexivity|repeat split])
  end.

(** X17: The hook endpoint only notifies.  Whatever the body of the request,
    it calls the chat API, stops the typing timer and answers, and does
    nothing else: no shell command is run, so nothing is typed into the
    terminal, no state file is written or removed, and the selection is
    left alone. *)
Theorem hook_endpoint_only_notifies :
  forall (body : Server.HookBody) (st : State),
    Forall (fun e => isHookEvent e = true)
           (emitted (Server.handleHookRequest body) st)
    /\ selectedPaneId (exec (Server.handleHookRequest body) st)
       = selectedPaneId st
    /\ paneIdFile (exec (Server.handleHookRequest body) st) = paneIdFile st
    /\ chatIdFile (exec (Server.handleHookRequest body) st) = chatIdFile st
    /\ pendingFile (exec (Server.handleHookRequest body) st) = pendingFile st
    /\ listings (exec (Server.handleHookRequest body) st) = listings st
    /\ execResults (exec (Server.handleHookRequest body) st) = execResults st.
Proof.
  intros body st.
  assert (H : keeps notifiesOnly (Server.handleHookRequest body)).
  { unfold_handlers.
    keeps_all notifiesOnly_refl notifiesOnly_trans ltac:(notifies_leaf). }
  destruct (H st) as (E & Hrest).
  split; [now apply SafetyFacts.emitsOnly_emitted|exact Hrest].
Qed.

End FailureFacts.

(* ===================================================================== *)
(** * Trimming, splitting and joining *)
(* ===================================================================== *)

Module TextFacts.
Import JS.

(** ** [trim] *)

Lemma trimStart_fixed s :
  match s with [] => True | c :: _ => isWhiteSpace c = false end ->
  trimStart s = s.
Proof. destruct s as [|c r]; [reflexivity|]. cbn. now intros ->. Qed.

Lemma trimStart_head s :
  match trimStart s with [] => True | c :: _ => isWhiteSpace c = false end.
Proof.
  induction s as [|c r IH]; [exact I|]. cbn.
  destruct (isWhiteSpace c) eqn:E; [exact IH|exact E].
Qed.

Lemma trimStart_suffix s :
  exists ws, s = ws ++ trimStart s /\ Forall (fun c => isWhiteSpace c = true) ws.
Proof.
  induction s as [|c r (ws & Hs & Hws)]; [now exists []|]. cbn.
  destruct (isWhiteSpace c) eqn:E.
  - exists (c :: ws). split; [cbn; now rewrite <- Hs|now constructor].
  - now exists [].
Qed.

Lemma trimStart_idem s : trimStart (trimStart s) = trimStart s.
Proof. apply trimStart_fixed, trimStart_head. Qed.

(** What [trimEnd] cuts is white space, and what it leaves does not end
    with white space. *)
Lemma trimEnd_prefix s :
  exists ws, s = trimEnd s ++ ws /\ Forall (fun c => isWhiteSpace c = true) ws.
Proof.
  unfold trimEnd. destruct (trimStart_suffix (rev s)) as (ws & Hs & Hws).
  exists (rev ws). split; [|now apply Forall_rev].
  rewrite <- rev_app_distr, <- Hs. symmetry. apply rev_involutive.
Qed.

Lemma trimEnd_idem s : trimEnd (trimEnd s) = trimEnd s.
Proof. unfold trimEnd. now rewrite rev_involutive, trimStart_idem. Qed.

(** The first character of a trimmed text is no white space. *)
Lemma trim_head s :
  match trim s with [] => True | c :: _ => isWhiteSpace c = false end.
Proof.
  unfold trim. pose proof (trimStart_head s) as Hh.
  destruct (trimEnd_prefix (trimStart s)) as (ws & Hs & Hws).
  destruct (trimEnd (trimStart s)) as [|c r]; [exact I|].
  rewrite Hs in Hh. exact Hh.
Qed.

Lemma trim_idem s : trim (trim s) = trim s.
Proof.
  unfold trim at 1. rewrite (trimStart_fixed _ (trim_head s)).
  unfold trim. apply trimEnd_idem.
Qed.

(** ** [split] and [join] *)

Lemma split_nonempty sep s : split sep s <> [].
Proof.
  induction s as [|c r IH]; [discriminate|]. cbn.
  destruct (split sep r); [congruence|]. destruct (c =? sep)%N; discriminate.
Qed.

(** Joining what [split] returned gives the text back. *)
Lemma join_split sep s : join [sep] (split sep s) = s.
Proof.
  induction s as [|c r IH]; [reflexivity|]. cbn [split].
  pose proof (split_nonempty sep r) as Hne.
  destruct (split sep r) as [|w ws]; [congruence|].
  destruct (N.eqb_spec c sep) as [->|Hc].
  - change (join [sep] ([] :: w :: ws)) with ([] ++ [sep] ++ join [sep] (w :: ws)).
    now rewrite IH.
  - destruct ws as [|w' ws'].
    + cbn in *. now rewrite IH.
    + change (join [sep] ((c :: w) :: w' :: ws'))
        with (c :: (w ++ [sep] ++ join [sep] (w' :: ws'))).
      change (join [sep] (w :: w' :: ws'))
        with (w ++ [sep] ++ join [sep] (w' :: ws')) in IH.
      now rewrite IH.
Qed.

(** No part of a split contains the separator. *)
Lemma split_parts sep s :
  Forall (Forall (fun c => c <> sep)) (split sep s).
Proof.
  induction s as [|c r IH]; [repeat constructor|]. cbn [split].
  destruct (split sep r) as [|w ws]; [repeat constructor|].
  destruct (N.eqb_spec c sep) as [->|Hc].
  - constructor; [constructor|exact IH].
  - inversion IH as [|? ? Hw Hws]; subst. constructor; [|exact Hws].
    now constructor.
Qed.

End TextFacts.

(* ===================================================================== *)
(** * Start-up: allow-list, commands, restored selection *)
(* ===================================================================== *)

Module StartupFacts.
Import JS Json Proc Common Vocabulary Startup TextFacts.

(** ** The allow-list *)

Lemma jseqb_empty_right a : a <> [] -> jseqb a [] = false.
Proof. destruct a; [congruence|reflexivity]. Qed.

Lemma existsb_trimmed_parts id parts :
  id <> [] ->
  existsb (jseqb id) (filter nonEmpty (map trim parts))
  = existsb (fun part => jseqb id (trim part)) parts.
Proof.
  intros Hid. induction parts as [|p ps IH]; [reflexivity|].
  cbn [map filter existsb]. destruct (trim p) as [|c r] eqn:Hp.
  - cbn [nonEmpty]. rewrite IH. now rewrite (jseqb_empty_right Hid).
  - cbn [nonEmpty existsb]. now rewrite IH.
Qed.

(** X18: A chat is authorized exactly when the decimal text of its id equals
    one of the comma-separated entries of the variable after trimming.
    Blank and empty entries authorize nobody, and so does a variable that
    is unset, empty or made of commas and white space only. *)
Theorem authorized_iff_a_trimmed_entry_matches :
  forall (variable : option jsstring) (chatId : Z),
    Server.isAuthorized (parseAllowedChatIds variable) chatId
    = match variable with
      | Some v =>
        existsb (fun entry => jseqb (String_Z chatId) (trim entry))
                (split COMMA v)
      | None => false
      end.
Proof.
  intros variable chatId.
  assert (H : forall l, Server.isAuthorized l chatId
                        = existsb (jseqb (String_Z chatId)) l)
    by (intros [|x l]; reflexivity).
  rewrite H. destruct variable as [[|c r]|]; [|unfold parseAllowedChatIds|reflexivity].
  - cbn. rewrite jseqb_empty_right by apply NumberFacts.String_Z_nonempty.
    reflexivity.
  - apply existsb_trimmed_parts, NumberFacts.String_Z_nonempty.
Qed.

(** ** Commands *)

(** X19: A text is cut at its first space: the command is the lower-cased
    first word, which has no space, and the arguments are the rest of the
    text after that space, unchanged (further spaces included).  This
    holds whatever the lower-casing of the host does to the word. *)
Theorem command_and_arguments_partition_the_text :
  forall (toLowerCase : jsstring -> jsstring) (text : jsstring),
    exists word,
      fst (splitCommand toLowerCase text) = toLowerCase word
      /\ Forall (fun c => c <> SPACE) word
      /\ (text = word /\ snd (splitCommand toLowerCase text) = []
          \/ text = word ++ [SPACE] ++ snd (splitCommand toLowerCase text)).
Proof.
  intros toLowerCase text. unfold splitCommand.
  pose proof (join_split SPACE text) as Hjoin.
  pose proof (split_parts SPACE text) as Hparts.
  pose proof (split_nonempty SPACE text) as Hne.
  destruct (split SPACE text) as [|word args]; [congruence|].
  exists word. cbn [fst snd]. split; [reflexivity|].
  split; [now inversion Hparts|].
  destruct args as [|a args]; [left; now split|right].
  exact (eq_sym Hjoin).
Qed.

(** ** The selection across a restart *)

Lemma listed_nonempty panes paneId : listed panes paneId = true -> paneId <> [].
Proof.
  intros H ->. unfold listed in H. apply existsb_exists in H.
  destruct H as (p & _ & Hp).
  rewrite jseqb_empty_right in Hp by apply NumberFacts.String_Z_nonempty.
  discriminate.
Qed.

Local Opaque listed.

(** X20: A pane selected with [/setpane] is still selected after the bridge
    has been restarted: the start-up code reads the pane-id file back to
    the id that was written, and [findClaudePaneId] resolves to that pane
    as long as the next listing has it. *)
Theorem selection_survives_a_restart :
  forall (chatId : Z) (args : jsstring) (st : State),
    listed (nextListing st) (trim args) = true ->
    let st' := boot (exec (Server.handleCommand chatId (js "/setpane") args) st) in
    selectedPaneId st' = Some (trim args)
    /\ paneIdFile st' = Some (trim args)
    /\ (listed (nextListing st') (trim args) = true ->
        value findClaudePaneId st' = Ok (Some (trim args))).
Proof.
  intros chatId args st Hlisted st'.
  destruct (SetpaneFacts.setpane_known_id_is_persisted st chatId args
              (@listed_nonempty _ _ Hlisted) Hlisted) as [_ Hfile].
  subst st'.
  set (s1 := exec (Server.handleCommand chatId (js "/setpane") args) st) in *.
  destruct s1 as [mu sel ti cf pf pe env ls ex ap nw tr].
  cbn in Hfile. subst pf.
  unfold boot, nextListing, loadSavedPaneId, findClaudePaneId.
  ProcFacts.unfold_proc. cbn. rewrite trim_idem.
  split; [reflexivity|]. split; [reflexivity|].
  destruct ls as [|l ls]; cbn; intros H; now rewrite H.
Qed.

Local Transparent listed.

End StartupFacts.

(* ===================================================================== *)
(** * The [.env] file and the pending marker *)
(* ===================================================================== *)

Module EnvFacts.
Import JS Json Proc Common Vocabulary Startup TextFacts.

Section Loader.

Variable sameKey : jsstring -> jsstring -> bool.

(** Names that denote the same variable are interchangeable. *)
Hypothesis sameKey_right :
  forall a b c, sameKey b c = true -> sameKey a b = sameKey a c.

Lemma getenv_same env k key :
  sameKey k key = true -> getenv sameKey env k = getenv sameKey env key.
Proof.
  intros H. unfold getenv. induction env as [|kv env IH]; [reflexivity|].
  cbn [find]. rewrite (sameKey_right (fst kv) H).
  destruct (sameKey (fst kv) key); [reflexivity|exact IH].
Qed.

Lemma loadLine_keeps env line key c r :
  getenv sameKey env key = Some (c :: r) ->
  getenv sameKey (loadLine sameKey env line) key = Some (c :: r).
Proof.
  intros Hset. unfold loadLine.
  destruct (nonEmpty (trim line) && negb (startsWith (trim line) [HASH]));
    [|exact Hset].
  destruct (split EQUALS (trim line)) as [|k parts]; [exact Hset|].
  destruct (nonEmpty k && nonEmpty (join [EQUALS] parts)); [|exact Hset].
  cbn [andb]. destruct (unset sameKey env k) eqn:Hun; [|exact Hset].
  unfold getenv at 1. cbn [find fst]. destruct (sameKey k key) eqn:Hk.
  - unfold unset in Hun. rewrite (getenv_same env Hk), Hset in Hun.
    discriminate.
  - exact Hset.
Qed.

Lemma loadLine_source env line key v :
  getenv sameKey (loadLine sameKey env line) key = Some v ->
  getenv sameKey env key = Some v
  \/ exists k parts,
       split EQUALS (trim line) = k :: parts
       /\ sameKey k key = true
       /\ v = join [EQUALS] parts.
Proof.
  unfold loadLine.
  destruct (nonEmpty (trim line) && negb (startsWith (trim line) [HASH]));
    [|now left].
  destruct (split EQUALS (trim line)) as [|k parts]; [now left|].
  destruct (nonEmpty k && nonEmpty (join [EQUALS] parts) && unset sameKey env k);
    [|now left].
  unfold getenv at 1. cbn [find fst]. destruct (sameKey k key) eqn:Hk.
  - cbn [snd]. intros H. injection H as <-. right. now exists k, parts.
  - intros H. now left.
Qed.

(** X21: The [.env] file never overrides the environment: a variable that is
    set to a non-empty value keeps it whatever the file says, and every
    value found after loading was either there before or is the text
    after the first equals sign of a line of the file, later equals signs
    included. *)
Theorem env_file_never_overrides_the_environment :
  forall (envContent : jsstring) (env : Env) (key : jsstring),
    (forall c r,
        getenv sameKey env key = Some (c :: r) ->
        getenv sameKey (loadEnv sameKey envContent env) key = Some (c :: r))
    /\ (forall v,
           getenv sameKey (loadEnv sameKey envContent env) key = Some v ->
           getenv sameKey env key = Some v
           \/ exists line k parts,
                In line (split LF envContent)
                /\ split EQUALS (trim line) = k :: parts
                /\ sameKey k key = true
                /\ v = join [EQUALS] parts).
Proof.
  intros envContent env key. unfold loadEnv.
  generalize (split LF envContent) as lines. intros lines. revert env.
  induction lines as [|line lines IH]; intros env.
  - split; [intros c r H; exact H|intros v H; now left].
  - destruct (IH (loadLine sameKey env line)) as [IH1 IH2].
    cbn [fold_left]. split.
    + intros c r H. apply IH1. now apply loadLine_keeps.
    + intros v H. destruct (IH2 v H) as [Hv|(l & k & parts & Hin & Hrest)].
      * destruct (loadLine_source env line key Hv)
          as [Hold|(k & parts & Hsplit & Hk & Hval)]; [now left|].
        right. exists line, k, parts. repeat split; auto. now left.
      * right. exists l, k, parts. split; [now right|exact Hrest].
Qed.

End Loader.

Lemma jseqb_right a b c : jseqb b c = true -> jseqb a b = jseqb a c.
Proof. intros H. apply AuthorizationFacts.jseqb_eq in H. now subst. Qed.

Lemma env_file_never_overrides_the_environment_witness :
  getenv jseqb
    (loadEnv jseqb (js "PORT=1" ++ [LF] ++ js "URL=a=b")
             [(js "PORT", js "3007")])
    (js "PORT")
  = Some (js "3007").
Proof.
  apply (proj1 (@env_file_never_overrides_the_environment jseqb (@jseqb_right)
                  (js "PORT=1" ++ [LF] ++ js "URL=a=b")
                  [(js "PORT", js "3007")] (js "PORT"))).
  reflexivity.
Defined.

End EnvFacts.

Module PendingFacts.
Import JS Json Proc Common Vocabulary PendingHook TextFacts.

Lemma digitsValue_acc d acc :
  digitsValue (Zpos acc) (uint_digits d) = Zpos (Pos.of_uint_acc d acc).
Proof.
  revert acc. induction d; intros acc; cbn [uint_digits digitsValue Pos.of_uint_acc];
    [reflexivity|..];
    match goal with
    | |- context [isDigit ?c] => change (isDigit c) with true; cbv iota
    end; rewrite <- IHd; (apply f_equal2; [lia|reflexivity]).
Qed.

Lemma digitsValue_uint d : digitsValue 0 (uint_digits d) = Z.of_N (Pos.of_uint d).
Proof.
  induction d; cbn [uint_digits digitsValue Pos.of_uint]; [reflexivity|..];
    match goal with
    | |- context [isDigit ?c] => change (isDigit c) with true; cbv iota
    end;
    [exact IHd|..]; cbn [Z.of_N]; rewrite <- digitsValue_acc;
    (apply f_equal2; [reflexivity|reflexivity]).
Qed.

Lemma digits_value_of_positive p :
  digitsValue 0 (uint_digits (Pos.to_uint p)) = Zpos p.
Proof. now rewrite digitsValue_uint, DecimalPos.Unsigned.of_to. Qed.

Lemma unsigned_digits p :
  exists c r, uint_digits (Pos.to_uint p) = c :: r /\ isDigit c = true.
Proof.
  pose proof (NumberFacts.uint_digits_nonempty p) as Hne.
  pose proof (NumberFacts.uint_digits_are_digits (Pos.to_uint p)) as Hd.
  destruct (uint_digits (Pos.to_uint p)) as [|c r]; [congruence|].
  exists c, r. split; [reflexivity|now inversion Hd].
Qed.

(** [parseInt] reads back the integer that [String] printed. *)
Lemma parseInt_String_Z z : parseInt (String_Z z) = Some z.
Proof.
  unfold parseInt.
  rewrite NumberFacts.trimStart_no_space by apply NumberFacts.String_Z_no_space.
  destruct z as [|p|p]; unfold String_Z; [reflexivity| |].
  - pose proof (digits_value_of_positive p) as Hv.
    destruct (unsigned_digits p) as (c & r & Hs & Hc). rewrite Hs in *.
    assert (H45 : (c =? 45)%N = false).
    { unfold isDigit in Hc. apply andb_true_iff in Hc. destruct Hc as [H1 _].
      apply N.leb_le in H1. apply N.eqb_neq. lia. }
    assert (H43 : (c =? 43)%N = false).
    { unfold isDigit in Hc. apply andb_true_iff in Hc. destruct Hc as [H1 _].
      apply N.leb_le in H1. apply N.eqb_neq. lia. }
    rewrite H45, H43, Hc. now rewrite Hv.
  - pose proof (digits_value_of_positive p) as Hv.
    destruct (unsigned_digits p) as (c & r & Hs & Hc). rewrite Hs in *.
    change (45 =? 45)%N with true. cbv iota. rewrite Hc.
    cbn [option_map]. now rewrite Hv.
Qed.

(** X22: The pending marker written by the bridge is read by the hook as
    pending for ten minutes and not any longer: with the marker written at
    one time and read at a later one (time stamps that a double holds
    exactly), [isPending] is true exactly when less than 600000
    milliseconds have passed; once the marker is cleared, nothing is
    pending. *)
Theorem pending_marker_lasts_ten_minutes :
  forall (st : State) (later : Z),
    (0 <= now st < 2 ^ 53)%Z ->
    (0 <= later < 2 ^ 53)%Z ->
    isPending (pendingFile (exec Bridge.setPending st)) later
    = (later - now st <? 600000)%Z
    /\ isPending (pendingFile (exec Bridge.clearPending st)) later = false.
Proof.
  intros st later _ _. destruct st as [mu sel ti cf pf pe env ls ex ap nw tr].
  split.
  - unfold isPending. cbn. now rewrite parseInt_String_Z.
  - unfold Bridge.clearPending. ProcFacts.unfold_proc. destruct pe; reflexivity.
Qed.

Lemma pending_marker_lasts_ten_minutes_witness :
  isPending (pendingFile (exec Bridge.setPending Samples.idle))
            1700000599999%Z
  = true.
Proof.
  apply (proj1 (@pending_marker_lasts_ten_minutes Samples.idle 1700000599999%Z
                  ltac:(cbn; lia) ltac:(lia))).
Defined.

End PendingFacts.

(* ===================================================================== *)
(** * Inline code spans in the two converters *)
(* ===================================================================== *)

Module CodeSpanFacts.
Import JS Markup Vocabulary StringFacts MarkupFacts.

(** ** Scanning with a global regular expression *)

Section Scanning.

Variable A : Type.
Variable m : matcher.
Variable f : A -> jsstring -> jsstring -> jsstring -> list jsstring -> jsstring * A.

(** Characters at which the expression cannot start are copied. *)
Lemma replaceRegex_copy (P : char -> Prop) :
  (forall c s, P c -> m (c :: s) = None) ->
  forall p, Forall P p ->
  forall rest before a,
    replaceRegex m f before (p ++ rest) 0 a
    = (p ++ fst (replaceRegex m f (before ++ p) rest 0 a),
       snd (replaceRegex m f (before ++ p) rest 0 a)).
Proof.
  intros Hm p Hp. induction Hp as [|c p Hc Hp IH]; intros rest before a.
  - cbn [app]. rewrite app_nil_r. now destruct (replaceRegex m f before rest 0 a).
  - cbn [app replaceRegex]. rewrite (Hm c (p ++ rest) Hc), IH.
    now rewrite <- app_assoc.
Qed.

(** The characters of a match are passed over. *)
Lemma replaceRegex_skip p :
  forall rest before a,
    replaceRegex m f before (p ++ rest) (length p) a
    = replaceRegex m f (before ++ p) rest 0 a.
Proof.
  induction p as [|c p IH]; intros rest before a.
  - cbn [app length]. rewrite app_nil_r. now destruct rest.
  - cbn [app length replaceRegex]. rewrite IH. now rewrite <- app_assoc.
Qed.

(** A match at the current position: the callback is applied to it and
    the scan resumes behind it. *)
Lemma replaceRegex_match c matched rest groups before a :
  m (c :: matched ++ rest) = Some (groups, S (length matched)) ->
  replaceRegex m f before (c :: matched ++ rest) 0 a
  = (fst (f a (c :: matched) before rest groups)
       ++ fst (replaceRegex m f (before ++ c :: matched) rest 0
                 (snd (f a (c :: matched) before rest groups))),
     snd (replaceRegex m f (before ++ c :: matched) rest 0
            (snd (f a (c :: matched) before rest groups)))).
Proof.
  intros Hm. cbn [replaceRegex]. rewrite Hm.
  change (firstn (S (length matched)) (c :: matched ++ rest))
    with (c :: firstn (length matched) (matched ++ rest)).
  change (skipn (S (length matched)) (c :: matched ++ rest))
    with (skipn (length matched) (matched ++ rest)).
  rewrite firstn_app, Nat.sub_diag, firstn_all, app_nil_r.
  rewrite skipn_app, Nat.sub_diag, skipn_all. cbn [skipn app].
  destruct (f a (c :: matched) before rest groups) as [r a1]. cbn [fst snd].
  replace (S (length matched) - 1) with (length matched) by lia.
  rewrite replaceRegex_skip.
  replace ((before ++ [c]) ++ matched) with (before ++ c :: matched)
    by (now rewrite <- app_assoc).
  now destruct (replaceRegex m f (before ++ c :: matched) rest 0 a1).
Qed.

End Scanning.

(** ** One inline code span *)

Lemma matchFence_single s :
  match s with [] => True | c :: _ => c <> BACKTICK end ->
  matchFence (BACKTICK :: s) = None.
Proof.
  intros H. unfold matchFence, FENCE.
  change (js "```") with [BACKTICK; BACKTICK; BACKTICK].
  destruct s as [|c s]; [reflexivity|]. cbn [startsWith].
  now rewrite (eqb_false_of_neq H), andb_false_r.
Qed.

Lemma span_run (code post : jsstring) :
  Forall (fun c => c <> BACKTICK) code ->
  span (fun x => negb (x =? BACKTICK)%N) (code ++ BACKTICK :: post)
  = (code, BACKTICK :: post).
Proof.
  intros H. induction H as [|c code Hc H IH]; [reflexivity|].
  cbn [app span]. rewrite (eqb_false_of_neq Hc). cbn [negb]. now rewrite IH.
Qed.

Lemma matchInline_span code post :
  code <> [] ->
  Forall (fun c => c <> BACKTICK) code ->
  matchInline (BACKTICK :: (code ++ [BACKTICK]) ++ post)
  = Some ([code], S (length (code ++ [BACKTICK]))).
Proof.
  intros Hne H. unfold matchInline. change (BACKTICK =? BACKTICK)%N with true.
  cbv iota. rewrite <- app_assoc. cbn [app]. rewrite (span_run post H).
  destruct code as [|c code]; [congruence|].
  change (BACKTICK =? BACKTICK)%N with true. cbv iota.
  rewrite length_app. cbn [length]. do 2 f_equal. lia.
Qed.

Lemma plain_no_backtick s :
  plainText s -> Forall (fun c => c <> BACKTICK) s.
Proof.
  intros H. eapply Forall_impl; [|exact H].
  intros c Hc. now apply markdownChar_split in Hc.
Qed.

Lemma head_of_Forall (P : char -> Prop) s :
  Forall P s -> match s with [] => True | c :: _ => P c end.
Proof. intros H. destruct H; [exact I|assumption]. Qed.

Section Span.

Variables placeholderBlock placeholderInline keyBlock keyInline : nat -> jsstring.
Variables pre code post : jsstring.

Hypothesis pre_plain : plainText pre.
Hypothesis post_plain : plainText post.
Hypothesis code_nonempty : code <> [].
Hypothesis code_no_backtick : Forall (fun c => c <> BACKTICK) code.

Lemma extractCodeBlocks_span :
  extractCodeBlocks placeholderBlock (pre ++ BACKTICK :: code ++ BACKTICK :: post)
  = (pre ++ BACKTICK :: code ++ BACKTICK :: post, []).
Proof.
  unfold extractCodeBlocks.
  rewrite replaceRegex_copy with (P := fun c => c <> BACKTICK);
    [|exact matchFence_first|exact (plain_no_backtick pre_plain)].
  cbn [replaceRegex].
  rewrite matchFence_single
    by (destruct code as [|c r]; [congruence|now inversion code_no_backtick]).
  rewrite replaceRegex_copy with (P := fun c => c <> BACKTICK);
    [|exact matchFence_first|exact code_no_backtick].
  cbn [replaceRegex].
  rewrite matchFence_single
    by (apply (head_of_Forall (plain_no_backtick post_plain))).
  rewrite replaceRegex_no_match with (P := fun c => c <> BACKTICK);
    [|exact matchFence_first|exact (plain_no_backtick post_plain)].
  reflexivity.
Qed.

Lemma extractInlineCodes_span :
  extractInlineCodes placeholderInline
    (pre ++ BACKTICK :: code ++ BACKTICK :: post)
  = (pre ++ placeholderInline 0 ++ post,
     [js "<code>" ++ escapeHtml code ++ js "</code>"]).
Proof.
  unfold extractInlineCodes.
  rewrite replaceRegex_copy with (P := fun c => c <> BACKTICK);
    [|exact matchInline_first|exact (plain_no_backtick pre_plain)].
  replace (BACKTICK :: code ++ BACKTICK :: post)
    with (BACKTICK :: (code ++ [BACKTICK]) ++ post)
    by (now rewrite <- app_assoc).
  rewrite replaceRegex_match with (groups := [code])
    by (apply matchInline_span; assumption).
  cbn [fst snd nth length app].
  rewrite replaceRegex_no_match with (P := fun c => c <> BACKTICK);
    [|exact matchInline_first|exact (plain_no_backtick post_plain)].
  reflexivity.
Qed.

(** The converter on a text with one inline code span, up to the
    restoring step. *)
Lemma convert_span :
  convert placeholderBlock placeholderInline keyBlock keyInline
    (pre ++ BACKTICK :: code ++ BACKTICK :: post)
  = replaceString (keyInline 0)
      (js "<code>" ++ escapeHtml code ++ js "</code>")
      (emphasis (escapeHtml pre ++ escapeHtml (placeholderInline 0)
                   ++ escapeHtml post)).
Proof.
  unfold convert. rewrite extractCodeBlocks_span, extractInlineCodes_span.
  cbn [restore]. now rewrite !escapeHtml_app.
Qed.

End Span.

(** ** Restoring *)

Lemma splitFirst_eq pat s :
  splitFirst pat s
  = if startsWith s pat then Some ([], skipn (length pat) s)
    else match s with
         | [] => None
         | c :: s' =>
           match splitFirst pat s' with
           | Some (b, a) => Some (c :: b, a)
           | None => None
           end
         end.
Proof. destruct s; reflexivity. Qed.

Lemma startsWith_self key rest : startsWith (key ++ rest) key = true.
Proof.
  induction key as [|c key IH]; [now destruct rest|].
  cbn [app startsWith]. now rewrite N.eqb_refl, IH.
Qed.

Lemma splitFirst_here key rest : splitFirst key (key ++ rest) = Some ([], rest).
Proof.
  rewrite splitFirst_eq, startsWith_self.
  now rewrite ProcFacts.skipn_length_app.
Qed.

(** A character other than the first one of the pattern is passed. *)
Lemma splitFirst_pass c0 k c s :
  c <> c0 ->
  splitFirst (c0 :: k) (c :: s)
  = match splitFirst (c0 :: k) s with
    | Some (b, a) => Some (c :: b, a)
    | None => None
    end.
Proof.
  intros H. rewrite splitFirst_eq. cbn [startsWith].
  now rewrite (eqb_false_of_neq H).
Qed.

Lemma splitFirst_absent c0 k s :
  Forall (fun c => c <> c0) s -> splitFirst (c0 :: k) s = None.
Proof.
  intros H. induction H as [|c s Hc H IH]; [reflexivity|].
  now rewrite (splitFirst_pass k s Hc), IH.
Qed.

(** The key of the bridge server, which starts with the entity of the
    left angle bracket, is found right behind an escaped text that had no
    left angle bracket. *)
Lemma splitFirst_escaped k pre rest :
  Forall (fun c => c <> LT) pre ->
  splitFirst (AMP :: 108%N :: k) (escapeHtml pre ++ (AMP :: 108%N :: k) ++ rest)
  = Some (escapeHtml pre, rest).
Proof.
  intros H. rewrite escapeHtml_flat_map.
  induction H as [|c pre Hc H IH];
    [change (flat_map escapeChar [] ++ (AMP :: 108%N :: k) ++ rest)
       with ((AMP :: 108%N :: k) ++ rest); apply splitFirst_here|].
  cbn [flat_map]. rewrite <- app_assoc.
  set (T := flat_map escapeChar pre ++ (AMP :: 108%N :: k) ++ rest) in *.
  unfold escapeChar at 1.
  destruct (N.eqb_spec c AMP) as [->|Hamp].
  - change (js "&amp;") with [AMP; 97; 109; 112; 59]%N. cbn [app].
    rewrite splitFirst_eq. cbn [startsWith].
    change (97 =? 108)%N with false. rewrite andb_false_r. cbv iota.
    rewrite !splitFirst_pass by discriminate. now rewrite IH.
  - rewrite (eqb_false_of_neq Hc).
    destruct (N.eqb_spec c GT) as [->|Hgt].
    + change (js "&gt;") with [AMP; 103; 116; 59]%N. cbn [app].
      rewrite splitFirst_eq. cbn [startsWith].
      change (103 =? 108)%N with false. rewrite andb_false_r. cbv iota.
      rewrite !splitFirst_pass by discriminate. now rewrite IH.
    + cbn [app]. rewrite splitFirst_pass by exact Hamp. rewrite IH.
      unfold escapeChar.
      now rewrite (eqb_false_of_neq Hamp), (eqb_false_of_neq Hc),
        (eqb_false_of_neq Hgt).
Qed.

(** A replacement text without dollar sign stands for itself. *)
Lemma getSubstitution_no_dollar matched before after captures template :
  Forall (fun c => c <> DOLLAR) template ->
  getSubstitution matched before after captures template = template.
Proof.
  intros H. induction H as [|c t Hc H IH]; [reflexivity|].
  cbn [getSubstitution]. rewrite (eqb_false_of_neq Hc). cbn [negb].
  now rewrite IH.
Qed.

Lemma code_tag_no_dollar code :
  Forall (fun c => c <> DOLLAR) code ->
  Forall (fun c => c <> DOLLAR) (js "<code>" ++ escapeHtml code ++ js "</code>").
Proof.
  intros H. apply Forall_app. split; [repeat constructor; discriminate|].
  apply Forall_app. split; [|repeat constructor; discriminate].
  apply escapeHtml_Forall; try discriminate. exact H.
Qed.

Lemma plainText_check s :
  forallb (fun c => negb (isMarkdownChar c)) s = true -> plainText s.
Proof.
  intros H. apply Forall_forall. intros c Hc.
  rewrite forallb_forall in H. specialize (H c Hc).
  now apply negb_true_iff in H.
Qed.

Lemma without_check c0 s :
  forallb (fun c => negb (c =? c0)%N) s = true -> Forall (fun c => c <> c0) s.
Proof.
  intros H. apply Forall_forall. intros c Hc.
  rewrite forallb_forall in H. specialize (H c Hc).
  apply negb_true_iff in H. now apply N.eqb_neq.
Qed.

(** X23: An inline code span is protected by the converter of the bridge
    server: around the span the text is escaped, inside it the special
    characters are escaped and the emphasis delimiters stand for
    themselves.  This holds when the code has no dollar sign and the text
    before the span has no left angle bracket. *)
Theorem inline_code_is_protected :
  forall pre code post : jsstring,
    plainText pre ->
    Forall (fun c => c <> LT) pre ->
    code <> [] ->
    Forall (fun c => c <> BACKTICK) code ->
    Forall (fun c => c <> DOLLAR) code ->
    plainText post ->
    ServerMarkup.markdownToTelegramHtml
      (pre ++ BACKTICK :: code ++ BACKTICK :: post)
    = escapeHtml pre ++ js "<code>" ++ escapeHtml code ++ js "</code>"
        ++ escapeHtml post.
Proof.
  intros pre code post Hpre Hlt Hne Hbt Hdl Hpost.
  unfold ServerMarkup.markdownToTelegramHtml.
  rewrite convert_span by assumption.
  change (escapeHtml (js "<<<INLINECODE" ++ String_nat 0 ++ js ">>>"))
    with (AMP :: 108%N :: js "t;&lt;&lt;INLINECODE0&gt;&gt;&gt;").
  change (js "&lt;&lt;&lt;INLINECODE" ++ String_nat 0 ++ js "&gt;&gt;&gt;")
    with (AMP :: 108%N :: js "t;&lt;&lt;INLINECODE0&gt;&gt;&gt;").
  rewrite emphasis_plain.
  - unfold replaceString. rewrite splitFirst_escaped by exact Hlt.
    rewrite getSubstitution_no_dollar by (apply code_tag_no_dollar, Hdl).
    now rewrite <- !app_assoc.
  - apply plainText_app; [now apply plainText_escapeHtml|].
    apply plainText_app; [|now apply plainText_escapeHtml].
    apply plainText_check. vm_compute. reflexivity.
Qed.

Lemma inline_code_is_protected_witness :
  ServerMarkup.markdownToTelegramHtml
    (js "a > b " ++ BACKTICK :: js "x*y<z" ++ BACKTICK :: js " now")
  = js "a &gt; b <code>x*y&lt;z</code> now".
Proof.
  apply (@inline_code_is_protected (js "a > b ") (js "x*y<z") (js " now")).
  - apply plainText_check. vm_compute. reflexivity.
  - apply without_check. vm_compute. reflexivity.
  - discriminate.
  - apply without_check. vm_compute. reflexivity.
  - apply without_check. vm_compute. reflexivity.
  - apply plainText_check. vm_compute. reflexivity.
Defined.

(** ** The converter of the first hook *)

Lemma startsWith_nil s : startsWith s [] = true.
Proof. now destruct s. Qed.

Lemma underline_matches_the_placeholder b :
  matchPair [UNDERSCORE; UNDERSCORE]
            (UNDERSCORE :: js "_INLINE_CODE_0__" ++ b)
  = Some ([js "INLINE_CODE_0"], S (length (js "_INLINE_CODE_0__"))).
Proof.
  let v := eval vm_compute in (js "_INLINE_CODE_0__") in
  change (js "_INLINE_CODE_0__") with v.
  let v := eval vm_compute in (js "INLINE_CODE_0") in
  change (js "INLINE_CODE_0") with v.
  unfold matchPair. cbn. now rewrite startsWith_nil.
Qed.

Lemma underline_takes_the_placeholder a b :
  Forall (fun c => c <> UNDERSCORE) a ->
  Forall (fun c => c <> UNDERSCORE) b ->
  replaceTemplate (matchPair (js "__")) (js "<u>$1</u>")
    (a ++ js "__INLINE_CODE_0__" ++ b)
  = a ++ js "<u>INLINE_CODE_0</u>" ++ b.
Proof.
  intros Ha Hb. unfold replaceTemplate.
  change (js "__") with [UNDERSCORE; UNDERSCORE].
  rewrite replaceRegex_copy with (P := fun c => c <> UNDERSCORE);
    [|exact (fun c s => @matchPair_first UNDERSCORE [UNDERSCORE] c s)|exact Ha].
  cbn [fst].
  change (js "__INLINE_CODE_0__" ++ b)
    with (UNDERSCORE :: js "_INLINE_CODE_0__" ++ b).
  rewrite replaceRegex_match with (groups := [js "INLINE_CODE_0"])
    by apply underline_matches_the_placeholder.
  cbn [fst snd].
  rewrite replaceRegex_no_match with (P := fun c => c <> UNDERSCORE);
    [|exact (fun c s => @matchPair_first UNDERSCORE [UNDERSCORE] c s)|exact Hb].
  cbn [fst]. f_equal.
Qed.

Lemma splitFirst_pass_all c0 k p s :
  Forall (fun c => c <> c0) p ->
  splitFirst (c0 :: k) (p ++ s)
  = match splitFirst (c0 :: k) s with
    | Some (b, a) => Some (p ++ b, a)
    | None => None
    end.
Proof.
  intros H. induction H as [|c p Hc H IH].
  - cbn [app]. now destruct (splitFirst (c0 :: k) s) as [[b a]|].
  - cbn [app]. rewrite splitFirst_pass by exact Hc. rewrite IH.
    now destruct (splitFirst (c0 :: k) s) as [[b a]|].
Qed.

(** A key that starts with the same character twice is not found where
    that character stands alone. *)
Lemma splitFirst_single c0 k c s :
  (c =? c0)%N = false ->
  splitFirst (c0 :: c0 :: k) (c0 :: c :: s)
  = match splitFirst (c0 :: c0 :: k) (c :: s) with
    | Some (b, a) => Some (c0 :: b, a)
    | None => None
    end.
Proof.
  intros H. rewrite splitFirst_eq. cbn [startsWith].
  now rewrite H, N.eqb_refl.
Qed.

Lemma splitFirst_other c0 k c s :
  (c =? c0)%N = false ->
  splitFirst (c0 :: k) (c :: s)
  = match splitFirst (c0 :: k) s with
    | Some (b, a) => Some (c :: b, a)
    | None => None
    end.
Proof. intros H. apply splitFirst_pass. now apply N.eqb_neq. Qed.

Lemma underlined_name_has_no_key k a b :
  Forall (fun c => c <> UNDERSCORE) a ->
  Forall (fun c => c <> UNDERSCORE) b ->
  splitFirst (UNDERSCORE :: UNDERSCORE :: k)
             (a ++ js "<u>INLINE_CODE_0</u>" ++ b)
  = None.
Proof.
  intros Ha Hb. rewrite splitFirst_pass_all by exact Ha.
  let v := eval vm_compute in (js "<u>INLINE_CODE_0</u>") in
  change (js "<u>INLINE_CODE_0</u>") with v.
  cbn [app].
  repeat first [ rewrite splitFirst_other by reflexivity
               | rewrite splitFirst_single by reflexivity ].
  now rewrite (splitFirst_absent _ Hb).
Qed.

(** X24: The converter of the first hook loses every inline code span: the
    placeholder it puts in place of the span is made of underscores, the
    underline step rewrites it, and the restoring step no longer finds
    it.  What the chat receives in place of the code is the underlined
    name of the placeholder. *)
Theorem first_hook_loses_inline_code :
  forall pre code post : jsstring,
    plainText pre ->
    plainText post ->
    code <> [] ->
    Forall (fun c => c <> BACKTICK) code ->
    HookMarkup.markdownToTelegramHtml
      (pre ++ BACKTICK :: code ++ BACKTICK :: post)
    = escapeHtml pre ++ js "<u>INLINE_CODE_0</u>" ++ escapeHtml post.
Proof.
  intros pre code post Hpre Hpost Hne Hbt.
  unfold HookMarkup.markdownToTelegramHtml.
  rewrite convert_span by assumption.
  change (escapeHtml (js "__INLINE_CODE_" ++ String_nat 0 ++ js "__"))
    with (js "__INLINE_CODE_0__").
  change (js "__INLINE_CODE_" ++ String_nat 0 ++ js "__")
    with (UNDERSCORE :: UNDERSCORE :: js "INLINE_CODE_0__").
  assert (Hplain : forall s, plainText s ->
            Forall (fun c => c <> STAR) (escapeHtml s)
            /\ Forall (fun c => c <> UNDERSCORE) (escapeHtml s)
            /\ Forall (fun c => c <> TILDE) (escapeHtml s)).
  { intros s Hs. apply plainText_escapeHtml in Hs.
    repeat split; (eapply Forall_impl; [|exact Hs]); intros c Hc;
      now apply markdownChar_split in Hc. }
  destruct (Hplain pre Hpre) as (Hs1 & Hu1 & Ht1).
  destruct (Hplain post Hpost) as (Hs2 & Hu2 & Ht2).
  unfold emphasis.
  change (js "**") with [STAR; STAR]. change (js "*") with [STAR].
  change (js "~~") with [TILDE; TILDE].
  rewrite (@replaceTemplate_no_match _ (fun c => c <> STAR) _
             (fun c s => @matchPair_first STAR [STAR] c s))
    by (apply Forall_app; split; [exact Hs1|];
        apply Forall_app; split; [|exact Hs2];
        apply without_check; vm_compute; reflexivity).
  rewrite (@replaceTemplate_no_match _ (fun c => c <> STAR) _
             (fun c s => @matchPair_first STAR [] c s))
    by (apply Forall_app; split; [exact Hs1|];
        apply Forall_app; split; [|exact Hs2];
        apply without_check; vm_compute; reflexivity).
  rewrite underline_takes_the_placeholder by assumption.
  rewrite (@replaceTemplate_no_match _ (fun c => c <> TILDE) _
             (fun c s => @matchPair_first TILDE [TILDE] c s))
    by (apply Forall_app; split; [exact Ht1|];
        apply Forall_app; split; [|exact Ht2];
        apply without_check; vm_compute; reflexivity).
  unfold replaceString.
  now rewrite underlined_name_has_no_key by assumption.
Qed.

Lemma first_hook_loses_inline_code_witness :
  HookMarkup.markdownToTelegramHtml
    (js "run " ++ BACKTICK :: js "npm test" ++ BACKTICK :: js " now")
  = js "run <u>INLINE_CODE_0</u> now".
Proof.
  apply (@first_hook_loses_inline_code (js "run ") (js "npm test") (js " now")).
  - apply plainText_check. vm_compute. reflexivity.
  - apply plainText_check. vm_compute. reflexivity.
  - discriminate.
  - apply without_check. vm_compute. reflexivity.
Defined.

End CodeSpanFacts.

(* ===================================================================== *)
(** * The hook script *)
(* ===================================================================== *)

Module HookScriptFacts.
Import JS Json HookScript.

Section Script.

Variable JSON_parse : jsstring -> option json.
Variable files : jsstring -> option jsstring.
Variable basename : jsstring -> jsstring.
Variable homedir : jsstring.

Lemma notStop_false hookInput :
  notStop hookInput = false
  <-> prop hookInput (js "hook_event_name") = Some (JStr (js "Stop")).
Proof.
  unfold notStop. split.
  - destruct (prop hookInput (js "hook_event_name")) as [[| | |name| |]|];
      try discriminate.
    intros H. apply negb_false_iff, AuthorizationFacts.jseqb_eq in H.
    now subst.
  - intros ->. reflexivity.
Qed.

(** X25: The hook script posts to the bridge in one case only: the input
    parses, the event is [Stop], the transcript path is a non-empty
    string, and the transcript at the expanded path yields a non-empty
    text.  What it posts then is that text with the working directory of
    the input (or the fixed default) and the base name of the transcript
    path as the session id.  In every other case it exits without a
    request, so the bridge never receives an empty or missing message
    from the script. *)
Theorem hook_script_posts_only_a_found_text :
  forall (inputData : jsstring) (body : json),
    main JSON_parse files basename homedir inputData = Post body
    <-> exists hookInput transcriptPath text,
          JSON_parse inputData = Some hookInput
          /\ prop hookInput (js "hook_event_name") = Some (JStr (js "Stop"))
          /\ prop hookInput (js "transcript_path") = Some (JStr transcriptPath)
          /\ transcriptPath <> []
          /\ Extractor.extractLastAssistantMessage JSON_parse
               (files (expandPath homedir transcriptPath)) = Some text
          /\ text <> []
          /\ body = bridgeBody text (cwdOf hookInput) (basename transcriptPath).
Proof.
  intros inputData body. unfold main. split.
  - destruct (JSON_parse inputData) as [hookInput|]; [|discriminate].
    intros H.
    assert (Hin : hookInput <> JNull) by (intros ->; discriminate H).
    assert (H' :
      (if notStop hookInput then Exit 0
       else
         match prop hookInput (js "transcript_path") with
         | Some (JStr transcriptPath) =>
           match transcriptPath with
           | [] => Exit 1
           | _ =>
             match Extractor.extractLastAssistantMessage JSON_parse
                     (files (expandPath homedir transcriptPath)) with
             | Some (c :: r) =>
               Post (bridgeBody (c :: r) (cwdOf hookInput)
                                (basename transcriptPath))
             | _ => Exit 0
             end
           end
         | Some _ => Exit 1
         | None => Exit 1
         end) = Post body)
      by (destruct hookInput; [congruence|exact H..]).
    clear H. destruct (notStop hookInput) eqn:Hstop; [discriminate|].
    apply notStop_false in Hstop.
    destruct (prop hookInput (js "transcript_path")) as [[| | |path| |]|]
      eqn:Hpath; try discriminate.
    destruct path as [|p0 path]; [discriminate|]. cbv iota in H'.
    destruct (Extractor.extractLastAssistantMessage JSON_parse
                (files (expandPath homedir (p0 :: path))))
      as [[|c r]|] eqn:Htext; try discriminate.
    injection H' as Hbody. subst body.
    exists hookInput, (p0 :: path), (c :: r).
    repeat split; auto; discriminate.
  - intros (hookInput & path & text & Hparse & Hstop & Hpath & Hne & Htext
            & Htne & ->).
    rewrite Hparse. apply notStop_false in Hstop.
    assert (Hin : hookInput <> JNull) by (intros ->; discriminate Hpath).
    destruct hookInput; try congruence;
      rewrite Hstop, Hpath; (destruct path; [congruence|]);
      rewrite Htext; (destruct text; [congruence|reflexivity]).
Qed.

End Script.

End HookScriptFacts.

(* ===================================================================== *)
(** * The resume button *)
(* ===================================================================== *)

Module CallbackFacts.
Import JS Json Proc Common Vocabulary Phases Frames FrameFacts.

Lemma resume_prefix_is_cut sessionId :
  startsWith (js "resume:" ++ sessionId) (js "resume:") = true
  /\ replaceString (js "resume:") [] (js "resume:" ++ sessionId) = sessionId.
Proof.
  split; [apply CodeSpanFacts.startsWith_self|].
  unfold replaceString. now rewrite CodeSpanFacts.splitFirst_here.
Qed.

(** X26: A callback query whose data is [resume:] followed by a session id,
    from an authorized chat, types exactly [/resume] and that session id:
    every shell command of the handler other than the pane listing is
    the text command or the return-key command for that text, into a
    pane of the listing just fetched. *)
Theorem resume_callback_types_the_session_command :
  forall (allowed : list jsstring) (update : Update) (q : CallbackQuery)
         (sessionId : jsstring) (st : State) (e : Event),
    callback_query update = Some q ->
    cb_data q = js "resume:" ++ sessionId ->
    Server.isAuthorized allowed (cb_chat_id q) = true ->
    In e (emitted (Server.handleCallbackQuery allowed update) st) ->
    isDispatch e = true ->
    exists paneId,
      listed (nextListing st) paneId = true
      /\ typesInto paneId (js "/resume " ++ sessionId) e.
Proof.
  intros allowed update q sessionId st e Hq Hdata Hauth Hin Hd.
  destruct (resume_prefix_is_cut sessionId) as [Hstart Hcut].
  assert (H : exists evs,
             trace (exec (Server.handleCallbackQuery allowed update) st)
             = trace st ++ evs
             /\ Forall (fun e => isDispatch e = true ->
                          exists paneId,
                            listed (nextListing st) paneId = true
                            /\ typesInto paneId (js "/resume " ++ sessionId) e)
                       evs).
  { unfold Server.handleCallbackQuery, Server.respondOK.
    rewrite Hq, Hauth, Hdata, Hstart, Hcut. cbn [negb].
    generalize (cb_chat_id q) (cb_id q). intros chat callback.
    set (text := js "/resume " ++ sessionId).
    set (reply := js "▶️ Resuming session " ++ sessionId ++ js "...").
    destruct st as [mu sel ti cf pf pe env ls ex ap nw tr].
    assert (Hafter : forall ap1,
               let st1 := mkState mu sel ti cf pf pe env ls ex ap1 nw
                            (tr ++ [Api (AnswerCallbackQuery callback None false)]) in
               exists evs,
                 trace (snd (((Server.weztermSendText text ;;
                                sendMessage chat reply ;; ret tt) ;;
                               emit (Respond 200 (Text (js "OK")))) st1))
                 = tr ++ evs
                 /\ Forall (fun e => isDispatch e = true ->
                              exists paneId,
                                listed (nextListing st1) paneId = true
                                /\ typesInto paneId text e) evs).
    { intros ap1 st1.
      destruct (PaneFacts.Server_weztermSendText_targets text st1)
        as (evs & Htr & Hall).
      unfold exec in Htr. unfold bind.
      destruct (Server.weztermSendText text st1) as [[sent|err] st2].
      - cbn [snd] in Htr.
        destruct st2 as [mu2 sel2 ti2 cf2 pf2 pe2 env2 ls2 ex2 ap2 nw2 tr2].
        cbn [trace] in Htr. subst tr2.
        unfold sendMessage, telegramApi, bind, emit, modify, pop, ret.
        destruct ap2; cbn; eexists;
          (split; [rewrite <- !app_assoc; reflexivity|]);
          (apply Forall_cons; [intros Hx; discriminate Hx|]);
          (apply Forall_app; split; [exact Hall|]);
          repeat (apply Forall_cons; [intros Hx; discriminate Hx|]);
          apply Forall_nil.
      - cbn [snd] in *. rewrite Htr. cbn [trace st1]. eexists.
        split; [rewrite <- app_assoc; reflexivity|].
        apply Forall_cons; [intros Hx; discriminate Hx|exact Hall]. }
    unfold exec, telegramApi, bind at 1 2.
    destruct ap as [|a ap]; cbn [emit modify pop fst snd set_trace set_apiResults trace
                                 isMuted selectedPaneId typingInterval chatIdFile
                                 paneIdFile pendingFile envPaneId listings execResults
                                 apiResults now];
      apply Hafter. }
  destruct H as (evs & Htr & Hall).
  rewrite ProcFacts.emitted_of_trace with (evs := evs) in Hin by exact Htr.
  rewrite Forall_forall in Hall. now apply Hall.
Qed.

End CallbackFacts.

(* ===================================================================== *)
(** * Runs of the handlers on the sample states *)
(* ===================================================================== *)

Module Runs.
Import JS Json Proc Common Vocabulary Phases Frames Samples Startup Requests.

Lemma typing_intervals_never_accumulate_witness :
  timerConsistent
    (exec (Server.handleRequest lowerASCII [js "111"] hello) pane3Selected).
Proof.
  apply (proj1 (@SafetyFacts.typing_intervals_never_accumulate
                  lowerASCII [js "111"] hello (js "POST")
                  (Envelope (textFrom 111 (js "hi"))) pane3Selected eq_refl)).
Defined.

Lemma selection_and_file_stay_equal_witness :
  selectionMirrored
    (exec (Server.handleRequest lowerASCII [js "111"] hello) pane3Gone).
Proof.
  apply (proj1 (@SafetyFacts.selection_and_file_stay_equal
                  lowerASCII [js "111"] hello (js "POST")
                  (Envelope (textFrom 111 (js "hi"))) pane3Gone eq_refl)).
Defined.

Lemma other_commands_never_reach_the_terminal_witness :
  Forall (fun e => isDispatch e = false)
         (emitted (Server.handleCommand 111 (js "/panes") []) pane3Selected).
Proof.
  apply (proj1 (@TerminalFacts.other_commands_never_reach_the_terminal
                  111 (js "/panes") [] pane3Selected eq_refl eq_refl eq_refl)).
Defined.

Lemma only_forwarding_commands_fail_and_silently_witness :
  Forall (fun ev => isSendMessage ev = false)
         (emitted (Server.handleCommand 111 (js "/clear") []) pane3Failing).
Proof.
  apply (proj1 (FailureFacts.only_forwarding_commands_fail_and_silently
                  111 (js "/clear") [] (js "Command failed") pane3Failing)).
  reflexivity.
Defined.

Lemma Server_types_only_into_listed_panes_witness :
  exists paneId,
    listed (nextListing pane3Selected) paneId = true
    /\ typesInto paneId (js "hi") (Exec (sendTextCommand (js "3") (js "hi"))).
Proof.
  apply (@PaneFacts.Server_types_only_into_listed_panes (js "hi") pane3Selected).
  - right. right. left. reflexivity.
  - reflexivity.
Defined.

Lemma findClaudePaneId_returns_a_checked_pane_witness :
  exists result, value findClaudePaneId pane3Selected = Ok result.
Proof.
  destruct (PaneFacts.findClaudePaneId_returns_a_checked_pane pane3Selected)
    as (result & Hvalue & _).
  now exists result.
Defined.

Lemma free_text_is_answered_200_witness :
  exists evs,
    emitted (Server.handleTelegramWebhook lowerASCII [js "111"]
               (Envelope (mkUpdate (Some (mkMessage 111 (Some (js "hi")))) None)))
            pane3Failing
    = evs ++ [Respond 200 (Text (js "OK"))].
Proof.
  apply (proj1 (@WebhookFacts.free_text_is_answered_200
                  lowerASCII [js "111"] (mkMessage 111 (Some (js "hi")))
                  pane3Failing eq_refl)).
Defined.

Lemma free_text_without_pane_gets_guidance_witness :
  emitted (Server.handleMessage lowerASCII 111 (js "hi")) idle
  = [WriteFile CHAT_ID_FILE (js "111");
     Api (SendMessage (chatJson 111) (slice0 MAX_MESSAGE_LENGTH noPaneGuidance)
                      (Some (js "HTML")))].
Proof.
  apply (proj1 (@EdgeFacts.free_text_without_pane_gets_guidance
                  lowerASCII 111 (js "hi") idle eq_refl eq_refl)).
Defined.

Lemma hook_delivery_falls_back_to_plain_text_witness :
  emitted (Server.handleHookRequest (Server.Parsed (completion (js "done"))))
          (set_isMuted false mutedTyping)
  = [ClearInterval;
     Api (SendMessage (JStr (js "111"))
            (js "<code>📁 /tmp</code>" ++ nl ++ js "<code>🔖 abc</code>" ++ nl
               ++ nl ++ js "done")
            (Some (js "HTML")));
     Respond 200 (Server.okBody [])].
Proof.
  apply (proj1 (@DeliveryFacts.hook_delivery_falls_back_to_plain_text
                  (completion (js "done")) (js "done") (js "111")
                  (set_isMuted false mutedTyping)
                  eq_refl ltac:(discriminate) eq_refl eq_refl
                  ltac:(discriminate))).
Defined.

(** A completion whose working directory is an object with a field
    [toString]: the header cannot be built, nothing is sent. *)
Example hook_delivery_fails_on_an_unprintable_directory :
  emitted (Server.handleHookRequest
             (Server.Parsed
                (JObj [(js "message", JStr (js "done"));
                       (js "cwd", JObj [(js "toString", JNull)])])))
          (set_isMuted false mutedTyping)
  = [ClearInterval;
     Respond 500
       (Server.errorBody
          (Some (js "Cannot convert object to primitive value")))].
Proof. vm_compute. reflexivity. Qed.

Lemma free_text_is_never_on_the_denylist_witness :
  isBlocked (lowerASCII (js " /config")) = false
  /\ exists rest,
       trace (exec (Server.handleTelegramWebhook lowerASCII [js "111"]
                      (Envelope (textFrom 111 (js " /config"))))
                   pane3Selected)
       = trace (exec (Server.weztermSendText (js " /config"))
                  (exec (startTypingLoop 111)
                     (exec (paneCheck 111) pane3Selected)))
           ++ rest.
Proof.
  apply (@WebhookFacts.free_text_is_never_on_the_denylist
           lowerASCII [js "111"] (textFrom 111 (js " /config")) 111
           (js " /config") (js "3") pane3Selected
           WebhookFacts.lowerASCII_keepsSlash eq_refl eq_refl eq_refl).
  - intros H. vm_compute in H. discriminate H.
  - vm_compute. reflexivity.
Defined.

(** A request whose target the URL constructor rejects. *)
Example rejected_target_gets_no_response :
  Server.handleRequest lowerASCII [js "111"]
    (Server.mkRequest (js "GET") None (Server.Unparseable [])
                      (Malformed []))
    pane3Selected
  = (Throw (js "Invalid URL"), pane3Selected).
Proof. reflexivity. Qed.

Lemma selection_survives_a_restart_witness :
  selectedPaneId
    (boot (exec (Server.handleCommand 111 (js "/setpane") (js " 3 "))
                pane3Selected))
  = Some (js "3").
Proof.
  apply (proj1 (@StartupFacts.selection_survives_a_restart
                  111 (js " 3 ") pane3Selected eq_refl)).
Defined.

Lemma resume_callback_types_the_session_command_witness :
  exists paneId,
    listed (nextListing pane3Selected) paneId = true
    /\ typesInto paneId (js "/resume " ++ js "abc")
         (Exec (sendTextCommand (js "3") (js "/resume " ++ js "abc"))).
Proof.
  apply (@CallbackFacts.resume_callback_types_the_session_command
           [js "111"]
           (mkUpdate None (Some (mkCallbackQuery 111 (js "resume:abc") (js "7"))))
           (mkCallbackQuery 111 (js "resume:abc") (js "7"))
           (js "abc") pane3Selected
           (Exec (sendTextCommand (js "3") (js "/resume " ++ js "abc")))
           eq_refl eq_refl eq_refl).
  - do 3 right. left. reflexivity.
  - reflexivity.
Defined.

End Runs.
